(** * Motion extraction pipeline: background model, detector, morphology
      and persistence fading, in the CPU (2D canvas) and GPU (WebGL 2)
      variants of the repository.

    Conventions of the embedding.
    - JavaScript numbers and GLSL floats are read as real numbers ([R]):
      the development is about the formulas the code evaluates, not about
      rounding.  [Uint8ClampedArray] cells are integers ([Z]) and every
      store into one clamps to [0, 255] as the typed array does.
    - Typed arrays are lists updated by index; a read past the end is
      [undefined] in JavaScript and is never reached when the buffers have
      the lengths [getImageData]/[createImageData] give them, which the
      theorems assume where they need it.
    - A texture is a function from texel coordinates to an RGBA value
      together with the engine's width and height, which are integers as
      WebGL takes them.  A [NEAREST], [CLAMP_TO_EDGE] sampler read at a
      fragment centre displaced by whole texels fetches the texel at the
      coordinates clamped into the image; storage allocated without data
      is zero, and [clear] writes the clear colour whatever the blend
      switch says.
    - GLSL leaves [smoothstep] undefined when its first edge is not below
      its second, which in the detector is the case of a threshold that is
      not positive; [Gpu.smoothstep] is evaluated as written for every
      argument, and the theorems about the value of the score assume a
      positive threshold, as every slider of the interface gives it.
    - A 2D canvas is the list of its pixels, colour premultiplied by alpha;
      [fillRect] and [drawImage] composite with source-over, [clearRect]
      leaves transparent black.
    - Scheduling ([requestAnimationFrame]), the source canvas and
      recording are outside the embedding; of the user interface only
      [handleControlChange] and the ranges of the sliders are modelled. *)

From Stdlib Require Import ZArith Lia Reals Lra.
From stdpp Require Import base list list_numbers.

Local Open Scope Z_scope.

(** ** Shared configuration (interface [MotionControls]) *)

Inductive DetectionMode := color | luminance.
Inductive Morphology := none | open | close.
Inductive Effect := classic | colorBurn | electricTrails | heatmap | chromatic.

Global Instance DetectionMode_eq_dec : EqDecision DetectionMode.
Proof. solve_decision. Defined.
Global Instance Morphology_eq_dec : EqDecision Morphology.
Proof. solve_decision. Defined.
Global Instance Effect_eq_dec : EqDecision Effect.
Proof. solve_decision. Defined.

Record MotionControls := {
  detectionMode : DetectionMode;
  detectionThreshold : R;
  processingResolution : R;
  noiseReduction : R;
  adaptationRate : R;
  morphology : Morphology;
  effect : Effect;
  invert : bool;
  persistence : R
}.

(** ** The CPU pipeline (2D canvas variant) *)

Module Cpu.

(** A [Uint8ClampedArray]: a store clamps its operand to [0, 255]. *)
Definition clamp8 (v : Z) : Z := Z.max 0 (Z.min 255 v).

(** Cell read and store at a natural index ([data[i]], [data[i] = v]). *)
Definition byte (data : list Z) (i : nat) : Z := default 0 (data !! i).
Definition store (data : list Z) (i : nat) (v : Z) : list Z :=
  <[i := clamp8 v]> data.

(** The same at an index computed from pixel coordinates; a negative index
    names no cell. *)
Definition rd (data : list Z) (i : Z) : Z :=
  if i <? 0 then 0 else byte data (Z.to_nat i).
Definition wr (data : list Z) (i : Z) (v : Z) : list Z :=
  if i <? 0 then data else store data (Z.to_nat i) v.

(** [getPixel]: out-of-bounds pixels read as black (0). *)
Definition getPixel (data : list Z) (x y width height : Z) : Z :=
  if (x <? 0) || (x >=? width) || (y <? 0) || (y >=? height) then 0
  else rd data ((y * width + x) * 4).

(** [setPixel]: the three colour channels get [value], alpha gets 255. *)
Definition setPixel (data : list Z) (x y width value : Z) : list Z :=
  let i := (y * width + x) * 4 in
  let data := wr data (i + 2) value in
  let data := wr data (i + 1) value in
  let data := wr data i value in
  wr data (i + 3) 255.

Definition offsets : list Z := [-1; 0; 1].

(** The two inner loops of [erode] at one pixel. *)
Definition erode_at (input : list Z) (width height x y : Z) : Z :=
  foldl (fun min j =>
    foldl (fun min i => Z.min min (getPixel input (x + i) (y + j) width height))
          min offsets)
    255 offsets.

(** The two inner loops of [dilate] at one pixel. *)
Definition dilate_at (input : list Z) (width height x y : Z) : Z :=
  foldl (fun max j =>
    foldl (fun max i => Z.max max (getPixel input (x + i) (y + j) width height))
          max offsets)
    0 offsets.

Definition erode (width height : Z) (input output : list Z) : list Z :=
  foldl (fun output y =>
    foldl (fun output x =>
      setPixel output x y width (erode_at input width height x y))
      output (seqZ 0 width))
    output (seqZ 0 height).

Definition dilate (width height : Z) (input output : list Z) : list Z :=
  foldl (fun output y =>
    foldl (fun output x =>
      setPixel output x y width (dilate_at input width height x y))
      output (seqZ 0 width))
    output (seqZ 0 height).

(** [applyMorphology] returns the final contents of [data]. *)
Definition applyMorphology (data : list Z) (width height : Z) (type : Morphology)
  : list Z :=
  let src := data in
  let buffer := replicate (length data) 0 in
  match type with
  | open => let buffer := erode width height src buffer in
            dilate width height buffer data
  | close => let buffer := dilate width height src buffer in
             erode width height buffer data
  | none => data
  end.

(** *** The per-frame callback [draw] *)

(** [backgroundModelData.current]: two [Float32Array]s. *)
Record BackgroundModel := { mean : list R; variance : list R }.

Definition cell (a : list R) (i : nat) : R := default 0%R (a !! i).

(** A pixel of a 2D canvas, colour premultiplied by alpha, channels in
    [0, 1]. *)
Record RGBA := { red : R; green : R; blue : R; alpha : R }.

Definition transparent : RGBA := {| red := 0; green := 0; blue := 0; alpha := 0 |}.

Definition clamp01 (a : R) : R := Rmax 0 (Rmin 1 a).

(** The CSS colour [rgba(0, 0, 0, a)]; CSS clamps the alpha to [0, 1]. *)
Definition black (a : R) : RGBA :=
  {| red := 0; green := 0; blue := 0; alpha := clamp01 a |}.

(** The default compositing operator of the 2D context. *)
Definition source_over (s d : RGBA) : RGBA :=
  {| red := red s + red d * (1 - alpha s);
     green := green s + green d * (1 - alpha s);
     blue := blue s + blue d * (1 - alpha s);
     alpha := alpha s + alpha d * (1 - alpha s) |}%R.

(** [fillRect] and [clearRect] over the whole canvas. *)
Definition fillRect (fillStyle : RGBA) (canvas : list RGBA) : list RGBA :=
  source_over fillStyle <$> canvas.
Definition clearRect (canvas : list RGBA) : list RGBA :=
  (fun _ => transparent) <$> canvas.

(** Pixel [p] of an [ImageData] buffer as a canvas pixel. *)
Definition imagePixel (data : list Z) (p : nat) : RGBA :=
  let a := (IZR (byte data (4 * p + 3)) / 255)%R in
  {| red := IZR (byte data (4 * p)) / 255 * a;
     green := IZR (byte data (4 * p + 1)) / 255 * a;
     blue := IZR (byte data (4 * p + 2)) / 255 * a;
     alpha := a |}%R.

(** [drawImage(processingCanvas, 0, 0, width, height)] without smoothing:
    canvas pixel [d] takes processing pixel [resample d]. *)
Definition drawImage (resample : nat -> nat) (data : list Z) (canvas : list RGBA)
  : list RGBA :=
  imap (fun d dst => source_over (imagePixel data (resample d)) dst) canvas.

Record Dimensions := { width : R; height : R }.

(** The video element: [frame w h blur] is what [getImageData] returns once
    the current frame is drawn, blurred, into a [w] by [h] canvas. *)
Record Video := {
  ended : bool;
  readyState : Z;
  frame : Z -> Z -> R -> list Z
}.

Record State := {
  backgroundModelData : option BackgroundModel;
  motionCanvas : list RGBA;
  processingCanvas : list Z
}.

Definition initialVariance : R := 100.
Definition minVariance : R := 25.
Definition colorBurnColor : list Z := [3; 218; 198].
Definition fg (controls : MotionControls) : list Z :=
  if invert controls then [0; 0; 0] else [255; 255; 255].
Definition bg (controls : MotionControls) : list Z :=
  if invert controls then [255; 255; 255] else [0; 0; 0].

Definition gtb (a b : R) : bool := if Rgt_dec a b then true else false.

(** Number of rounds of [for (i = 0, j = 0; i < length; i += 4, j++)]. *)
Definition rounds (currentData : list Z) : nat := (length currentData + 3) / 4.

(** Both seeding loops of the branch taken when the model is absent. *)
Definition seedMean (mode : DetectionMode) (currentData : list Z) (pSize : nat)
  : list R :=
  match mode with
  | color =>
    foldl (fun mean j =>
      let i := (4 * j)%nat in
      let mean := <[(j * 3)%nat := IZR (byte currentData i)]> mean in
      let mean := <[(j * 3 + 1)%nat := IZR (byte currentData (i + 1))]> mean in
      <[(j * 3 + 2)%nat := IZR (byte currentData (i + 2))]> mean)
      (replicate (pSize * 3) 0%R) (seq 0 (rounds currentData))
  | luminance =>
    foldl (fun mean j =>
      let i := (4 * j)%nat in
      let brightness :=
        ((IZR (byte currentData i) + IZR (byte currentData (i + 1))
          + IZR (byte currentData (i + 2))) / 3)%R in
      <[j := brightness]> mean)
      (replicate pSize 0%R) (seq 0 (rounds currentData))
  end.

Definition seedModel (mode : DetectionMode) (currentData : list Z) (pSize : nat)
  : BackgroundModel :=
  {| mean := seedMean mode currentData pSize;
     variance := replicate pSize initialVariance |}.

(** One round of the per-pixel loop, first half: classify pixel [j] and
    adapt the model there when it is background.  Returns [isForeground]
    and the two arrays. *)
Definition detect (controls : MotionControls) (currentData : list Z)
    (meanData varianceData : list R) (j : nat) : bool * list R * list R :=
  let i := (4 * j)%nat in
  let alpha := adaptationRate controls in
  let thresholdMultiplier := detectionThreshold controls in
  let r := IZR (byte currentData i) in
  let g := IZR (byte currentData (i + 1)) in
  let b := IZR (byte currentData (i + 2)) in
  let currentBrightness := ((r + g + b) / 3)%R in
  let variance := cell varianceData j in
  match detectionMode controls with
  | color =>
    let meanR := cell meanData (j * 3) in
    let meanG := cell meanData (j * 3 + 1) in
    let meanB := cell meanData (j * 3 + 2) in
    let colorDist :=
      sqrt ((r - meanR) ^ 2 + (g - meanG) ^ 2 + (b - meanB) ^ 2)%R in
    let isForeground :=
      gtb colorDist (thresholdMultiplier * sqrt (Rmax variance minVariance))%R in
    if negb isForeground then
      let meanData := <[(j * 3)%nat := ((1 - alpha) * meanR + alpha * r)%R]> meanData in
      let meanData := <[(j * 3 + 1)%nat := ((1 - alpha) * meanG + alpha * g)%R]> meanData in
      let meanData := <[(j * 3 + 2)%nat := ((1 - alpha) * meanB + alpha * b)%R]> meanData in
      let meanBrightness := ((meanR + meanG + meanB) / 3)%R in
      let diff := (currentBrightness - meanBrightness)%R in
      let varianceData :=
        <[j := ((1 - alpha) * variance + alpha * (diff * diff))%R]> varianceData in
      (isForeground, meanData, varianceData)
    else (isForeground, meanData, varianceData)
  | luminance =>
    let mean := cell meanData j in
    let diff := (currentBrightness - mean)%R in
    let isForeground :=
      gtb (Rabs diff) (thresholdMultiplier * sqrt (Rmax variance minVariance))%R in
    if negb isForeground then
      let meanData := <[j := ((1 - alpha) * mean + alpha * currentBrightness)%R]> meanData in
      let varianceData :=
        <[j := ((1 - alpha) * variance + alpha * (diff * diff))%R]> varianceData in
      (isForeground, meanData, varianceData)
    else (isForeground, meanData, varianceData)
  end.

(** Second half: paint the mask pixel. *)
Definition paint (controls : MotionControls) (motionData : list Z) (j : nat)
    (isForeground : bool) : list Z :=
  let i := (4 * j)%nat in
  if isForeground then
    let color :=
      if bool_decide (effect controls = colorBurn) && negb (invert controls)
      then colorBurnColor else fg controls in
    let motionData := store motionData i (byte color 0) in
    let motionData := store motionData (i + 1) (byte color 1) in
    let motionData := store motionData (i + 2) (byte color 2) in
    store motionData (i + 3) 255
  else
    let motionData := store motionData i (byte (bg controls) 0) in
    let motionData := store motionData (i + 1) (byte (bg controls) 1) in
    let motionData := store motionData (i + 2) (byte (bg controls) 2) in
    store motionData (i + 3)
      (if bool_decide (effect controls = electricTrails) then 0 else 255).

Definition pixel (controls : MotionControls) (currentData : list Z)
    (st : list R * list R * list Z) (j : nat) : list R * list R * list Z :=
  let '(meanData, varianceData, motionData) := st in
  let '(isForeground, meanData, varianceData) :=
    detect controls currentData meanData varianceData j in
  (meanData, varianceData, paint controls motionData j isForeground).

Definition pixels (controls : MotionControls) (currentData : list Z)
    (st : list R * list R * list Z) : list R * list R * list Z :=
  foldl (pixel controls currentData) st (seq 0 (rounds currentData)).

(** [draw]: [None] for the video stands for a missing element; the early
    exits only reschedule the callback and leave everything as it is. *)
Definition draw (dimensions : Dimensions) (controls : MotionControls)
    (resample : nat -> nat) (video : option Video) (st : State) : State :=
  match video with
  | None => st
  | Some video =>
    if ended video || (readyState video <? 2) then st
    else
      let pWidth := Int_part (width dimensions * processingResolution controls) in
      let pHeight := Int_part (height dimensions * processingResolution controls) in
      let motionCanvas :=
        if bool_decide (effect controls = electricTrails)
        then fillRect (black (1 - persistence controls)) (motionCanvas st)
        else clearRect (motionCanvas st) in
      if (pWidth =? 0) || (pHeight =? 0) then
        (* [getImageData] throws on an empty rectangle: the callback ends
           with the canvas faded or cleared and nothing else done *)
        {| backgroundModelData := backgroundModelData st;
           motionCanvas := motionCanvas;
           processingCanvas := processingCanvas st |}
      else
      let currentData := frame video pWidth pHeight (noiseReduction controls) in
      let motionData := replicate (Z.to_nat (4 * pWidth * pHeight)) 0 in
      match backgroundModelData st with
      | None =>
        let pSize := Z.to_nat (pWidth * pHeight) in
        {| backgroundModelData :=
             Some (seedModel (detectionMode controls) currentData pSize);
           motionCanvas := motionCanvas;
           processingCanvas := currentData |}
      | Some backgroundModel =>
        let '(meanData, varianceData, motionData) :=
          pixels controls currentData
            (mean backgroundModel, variance backgroundModel, motionData) in
        let motionData :=
          if bool_decide (morphology controls <> none)
          then applyMorphology motionData pWidth pHeight (morphology controls)
          else motionData in
        {| backgroundModelData :=
             Some {| mean := meanData; variance := varianceData |};
           motionCanvas := drawImage resample motionData motionCanvas;
           processingCanvas := motionData |}
      end
  end.

(** The effect that resets the model when the processing resolution, the
    detection mode or the source changes. *)
Definition resetModel (st : State) : State :=
  {| backgroundModelData := None;
     motionCanvas := motionCanvas st;
     processingCanvas := processingCanvas st |}.

End Cpu.

(** ** The GPU pipeline (WebGL 2 variant: [MotionEngine] and its shaders) *)

Module Gpu.

Local Open Scope R_scope.

(** *** GLSL values and built-ins *)

Record vec3 := Vec3 { x : R; y : R; z : R }.
Record vec4 := Vec4 { r : R; g : R; b : R; a : R }.

Definition rgb (v : vec4) : vec3 := Vec3 (r v) (g v) (b v).
Definition vec4_of (v : vec3) (w : R) : vec4 := Vec4 (x v) (y v) (z v) w.
Definition splat3 (s : R) : vec3 := Vec3 s s s.
Definition sub3 (u v : vec3) : vec3 := Vec3 (x u - x v) (y u - y v) (z u - z v).
Definition dot (u v : vec3) : R := x u * x v + y u * y v + z u * z v.
Definition length (v : vec3) : R := sqrt (dot v v).
Definition set_r (v : vec4) (s : R) : vec4 := Vec4 s (g v) (b v) (a v).

Definition mix (u v t : R) : R := u * (1 - t) + v * t.
Definition mix4 (u v : vec4) (t : R) : vec4 :=
  Vec4 (mix (r u) (r v) t) (mix (g u) (g v) t) (mix (b u) (b v) t)
       (mix (a u) (a v) t).
Definition clamp (v lo hi : R) : R := Rmin (Rmax v lo) hi.
Definition smoothstep (edge0 edge1 v : R) : R :=
  let t := clamp ((v - edge0) / (edge1 - edge0)) 0 1 in
  t * t * (3 - 2 * t).

(** *** Textures and the context state the engine relies on *)

Definition Texture := Z -> Z -> vec4.

Definition clampZ (v lo hi : Z) : Z := Z.min (Z.max v lo) hi.

(** A [NEAREST] / [CLAMP_TO_EDGE] read of a [w] by [h] texture at the centre
    of texel [(i, j)], which may lie outside the image. *)
Definition texture (w h : Z) (t : Texture) (i j : Z) : vec4 :=
  t (clampZ i 0 (w - 1)) (clampZ j 0 (h - 1)).

(** [texImage2D(..., null)]: storage initialised to zero. *)
Definition createTex : Texture := fun _ _ => Vec4 0 0 0 0.

(** The parts of the WebGL context that survive between calls: the blend
    switch, the clear colour and the canvas' drawing buffer (the context is
    created with [preserveDrawingBuffer]). *)
Record Context := {
  BLEND : bool;
  COLOR_CLEAR_VALUE : vec4;
  drawingBuffer : Texture
}.

(** [blendFunc(SRC_ALPHA, ONE_MINUS_SRC_ALPHA)], the only blend function the
    engine ever sets, applied to all four channels. *)
Definition blend (src dst : vec4) : vec4 :=
  Vec4 (r src * a src + r dst * (1 - a src))
       (g src * a src + g dst * (1 - a src))
       (b src * a src + b dst * (1 - a src))
       (a src * a src + a dst * (1 - a src)).

Definition inside (w h i j : Z) : bool :=
  (0 <=? i)%Z && (i <? w)%Z && (0 <=? j)%Z && (j <? h)%Z.

(** [drawQuad] under [viewport(0, 0, w, h)]: each covered pixel of the
    target receives the fragment output, blended when [BLEND] is on. *)
Definition drawQuad (blending : bool) (w h : Z) (fragment : Z -> Z -> vec4)
    (target : Texture) : Texture :=
  fun i j =>
    if inside w h i j then
      if blending then blend (fragment i j) (target i j) else fragment i j
    else target i j.

(** [clear(COLOR_BUFFER_BIT)]: every pixel takes the clear colour; blending
    does not apply to a clear. *)
Definition clear (clearColor : vec4) (target : Texture) : Texture :=
  fun _ _ => clearColor.

(** What a fixed-point colour buffer keeps of a value written to it. *)
Definition saturate (v : vec4) : vec4 :=
  Vec4 (clamp (r v) 0 1) (clamp (g v) 0 1) (clamp (b v) 0 1) (clamp (a v) 0 1).

(** A ping-pong pair and its two accessors. *)
Definition sel {A} (p : A * A) (idx : nat) : A :=
  match idx with O => fst p | _ => snd p end.
Definition upd {A} (p : A * A) (idx : nat) (v : A) : A * A :=
  match idx with O => (v, snd p) | _ => (fst p, v) end.

Record Textures := {
  video : Texture;
  mean : Texture * Texture;
  variance : Texture * Texture;
  mask : Texture * Texture
}.

Record MotionEngine := {
  gl : Context;
  width : Z;
  height : Z;
  programs : bool;
  textures : option Textures;
  pingPongIndex : nat;
  isInitialized : bool
}.

(** *** Shaders *)

(** [backgroundSubtractionFragmentSource]: the three outputs
    [(o_newMean, o_newVariance, o_motionMask)] for one fragment. *)
Definition backgroundSubtraction (u_adaptationRate u_threshold : R)
    (u_isColorMode : bool) (u_minVariance : R)
    (current mean variance : vec4) : vec4 * vec4 * vec4 :=
  let '(dist, var) :=
    if u_isColorMode then
      let diff := sub3 (rgb current) (rgb mean) in
      (length diff, Rmax (r variance) u_minVariance)
    else
      let curLum := dot (rgb current) (Vec3 0.299 0.587 0.114) in
      let meanLum := r mean in
      (Rabs (curLum - meanLum), Rmax (r variance) u_minVariance) in
  let edge := u_threshold * sqrt var in
  let soft := smoothstep (edge * 0.6) (edge * 1.4) dist in
  let newMean := mean in
  let newVariance := variance in
  let bgWeight := 1 - soft in
  let alpha := u_adaptationRate * bgWeight in
  let '(newMean, newVariance) :=
    if u_isColorMode then
      let newMean := mix4 mean current alpha in
      let lumDiff :=
        dot (rgb current) (splat3 0.333) - dot (rgb mean) (splat3 0.333) in
      (newMean, set_r newVariance (mix (r variance) (lumDiff * lumDiff) alpha))
    else
      let curLum := dot (rgb current) (Vec3 0.299 0.587 0.114) in
      let newMean := set_r newMean (mix (r mean) curLum alpha) in
      let d := curLum - r newMean in
      (newMean, set_r newVariance (mix (r variance) (d * d) alpha)) in
  (vec4_of (rgb newMean) 1, vec4_of (rgb newVariance) 1, Vec4 soft soft soft 1).

Definition offsets : list Z := [-1; 0; 1]%Z.

(** [morphologyFragmentSource] at fragment [(i0, j0)]; [u_resolution] is the
    [w] by [h] of the sampled texture. *)
Definition morphologyFragment (w h : Z) (u_type : Z) (u_image : Texture)
    (i0 j0 : Z) : vec4 :=
  let val := r (texture w h u_image i0 j0) in
  let val :=
    foldl (fun val i =>
      foldl (fun val j =>
        let n := r (texture w h u_image (i0 + i) (j0 + j)) in
        if (u_type =? 0)%Z then Rmin val n else Rmax val n)
        val offsets)
      val offsets in
  Vec4 val val val 1.

(** *** The engine *)

Section Engine.

(** [outputFragmentSource] taken as given: the colour each effect computes
    from the video and the mask is not what this development is about. Its
    arguments are [u_effect], [u_invert], [u_resolution], [u_video],
    [u_mask] and the fragment. *)
Variable outputFragment :
  Z -> bool -> Z * Z -> Texture -> Texture -> Z -> Z -> vec4.

Definition createTexturesAndFBOs (e : MotionEngine) : MotionEngine :=
  let createPingPong := (createTex, createTex) in
  {| gl := gl e; width := width e; height := height e;
     programs := programs e;
     textures := Some {| video := createTex;
                         mean := createPingPong;
                         variance := createPingPong;
                         mask := createPingPong |};
     pingPongIndex := pingPongIndex e;
     isInitialized := isInitialized e |}.

(** The engine a constructor call leaves behind. *)
Definition new (canvas : Texture) : MotionEngine :=
  {| gl := {| BLEND := false; COLOR_CLEAR_VALUE := Vec4 0 0 0 0;
              drawingBuffer := canvas |};
     width := 0; height := 0; programs := false; textures := None;
     pingPongIndex := 0; isInitialized := false |}.

Definition init (w h : Z) (e : MotionEngine) : MotionEngine :=
  let e := {| gl := gl e; width := w; height := h; programs := true;
              textures := textures e; pingPongIndex := pingPongIndex e;
              isInitialized := isInitialized e |} in
  let e := createTexturesAndFBOs e in
  {| gl := gl e; width := width e; height := height e; programs := programs e;
     textures := textures e; pingPongIndex := pingPongIndex e;
     isInitialized := true |}.

Definition resize (w h : Z) (e : MotionEngine) : MotionEngine :=
  if bool_decide (width e <> w \/ height e <> h) then
    createTexturesAndFBOs
      {| gl := gl e; width := w; height := h; programs := programs e;
         textures := textures e; pingPongIndex := pingPongIndex e;
         isInitialized := isInitialized e |}
  else e.

Definition effectIndex (f : Effect) : Z :=
  match f with
  | colorBurn => 1 | electricTrails => 2 | heatmap => 3 | chromatic => 4
  | classic => 0
  end%Z.

(** Pass 1 of [render]: [texImage2D] of the video frame. *)
Definition upload (frame : Texture) (t : Textures) : Textures :=
  {| video := frame; mean := mean t; variance := variance t; mask := mask t |}.

(** Pass 2 of [render]: the three attachments of [framebuffers.bgSub[nextIdx]]
    as written from the textures of index [idx]. *)
Definition bgSubPass (e : MotionEngine) (controls : MotionControls)
    (t : Textures) (idx nextIdx : nat) : Textures :=
  let w := width e in
  let h := height e in
  let out i j :=
    backgroundSubtraction
      (adaptationRate controls)
      (detectionThreshold controls / 10)
      (bool_decide (detectionMode controls = color))
      0.05
      (video t i j)
      (texture w h (sel (mean t) idx) i j)
      (texture w h (sel (variance t) idx) i j) in
  let blending := BLEND (gl e) in
  {| video := video t;
     mean := upd (mean t) nextIdx
       (drawQuad blending w h (fun i j => fst (fst (out i j))) (sel (mean t) nextIdx));
     variance := upd (variance t) nextIdx
       (drawQuad blending w h (fun i j => snd (fst (out i j)))
          (sel (variance t) nextIdx));
     mask := upd (mask t) nextIdx
       (drawQuad blending w h (fun i j => snd (out i j)) (sel (mask t) nextIdx)) |}.

(** One morphology draw: read [mask[from]], write [mask[to]]. *)
Definition morphPass (e : MotionEngine) (u_type : Z) (t : Textures)
    (from to : nat) : Textures :=
  let w := width e in
  let h := height e in
  {| video := video t; mean := mean t; variance := variance t;
     mask := upd (mask t) to
       (drawQuad (BLEND (gl e)) w h
          (morphologyFragment w h u_type (sel (mask t) from))
          (sel (mask t) to)) |}.

(** Pass 3 of [render]. *)
Definition morphologyPasses (e : MotionEngine) (controls : MotionControls)
    (t : Textures) (idx nextIdx : nat) : Textures :=
  match morphology controls with
  | none => t
  | open =>
    let t := morphPass e 0 t nextIdx idx in
    morphPass e 1 t idx nextIdx
  | close =>
    let t := morphPass e 1 t nextIdx idx in
    morphPass e 0 t idx nextIdx
  end.

(** [render]: [frame] is the uploaded video as the sampler of [u_image] and
    [u_video] returns it at each fragment centre.  With [textures] missing
    the first dereference throws before anything is drawn. *)
Definition render (frame : Texture) (controls : MotionControls)
    (e : MotionEngine) : MotionEngine :=
  if negb (isInitialized e) then e
  else
    match textures e with
    | None => e
    | Some t =>
      let idx := pingPongIndex e in
      let nextIdx := ((idx + 1) mod 2)%nat in
      let w := width e in
      let h := height e in
      (* 1. upload the video frame *)
      let t := upload frame t in
      (* 2. background subtraction *)
      let t := bgSubPass e controls t idx nextIdx in
      (* 3. morphology *)
      let t := morphologyPasses e controls t idx nextIdx in
      (* 4. final display pass *)
      let isPersistence :=
        bool_decide (effect controls = electricTrails)
        || bool_decide (effect controls = heatmap) in
      let g :=
        if isPersistence then
          let fade := 1 - persistence controls in
          {| BLEND := true; COLOR_CLEAR_VALUE := Vec4 0 0 0 fade;
             drawingBuffer :=
               clear (saturate (Vec4 0 0 0 fade)) (drawingBuffer (gl e)) |}
        else
          {| BLEND := false; COLOR_CLEAR_VALUE := Vec4 0 0 0 1;
             drawingBuffer :=
               clear (saturate (Vec4 0 0 0 1)) (drawingBuffer (gl e)) |} in
      let g :=
        {| BLEND := BLEND g; COLOR_CLEAR_VALUE := COLOR_CLEAR_VALUE g;
           drawingBuffer :=
             drawQuad (BLEND g) w h
               (fun i j =>
                  saturate
                    (outputFragment (effectIndex (effect controls))
                       (invert controls) (w, h) (video t)
                       (sel (mask t) nextIdx) i j))
               (drawingBuffer g) |} in
      (* 5. swap *)
      {| gl := g; width := w; height := h; programs := programs e;
         textures := Some t; pingPongIndex := nextIdx;
         isInitialized := isInitialized e |}
    end.

End Engine.

End Gpu.

(** ** The display shader ([outputFragmentSource]) *)

Module Display.

Import Gpu.
Local Open Scope R_scope.

Record vec2 := Vec2 { cx : R; cy : R }.

Definition ltb (u v : R) : bool := if Rlt_dec u v then true else false.

Definition scale3 (c : vec3) (k : R) : vec3 := Vec3 (x c * k) (y c * k) (z c * k).
Definition add3 (c d : vec3) : vec3 := Vec3 (x c + x d) (y c + y d) (z c + z d).
Definition mix3 (c d : vec3) (k : R) : vec3 :=
  Vec3 (mix (x c) (x d) k) (mix (y c) (y d) k) (mix (z c) (z d) k).
Definition length2 (p : vec2) : R := sqrt (cx p * cx p + cy p * cy p).
Definition normalize2 (p : vec2) : vec2 :=
  Vec2 (cx p / length2 p) (cy p / length2 p).

(** [v_texCoord] at the centre of fragment [(i, j)] of a [w] by [h]
    viewport, as the vertex shader interpolates it over the quad. *)
Definition v_texCoord (w h i j : Z) : vec2 :=
  Vec2 ((IZR i + 0.5) / IZR w) ((IZR j + 0.5) / IZR h).

(** A [NEAREST], [CLAMP_TO_EDGE] read of a [w] by [h] texture at texture
    coordinates [p]. *)
Definition nearest (w h : Z) (tex : Texture) (p : vec2) : vec4 :=
  tex (clampZ (Int_part (cx p * IZR w)) 0 (w - 1))
      (clampZ (Int_part (cy p * IZR h)) 0 (h - 1)).

(** The reads of [morphologyFragmentSource]: [v_texCoord + vec2(i, j) * px]
    with [px = 1.0 / u_resolution]. *)
Definition morphologyCoord (w h i0 j0 i j : Z) : vec2 :=
  Vec2 (cx (v_texCoord w h i0 j0) + IZR i * (1 / IZR w))
       (cy (v_texCoord w h i0 j0) + IZR j * (1 / IZR h)).

(** [heatPalette]: the 5-stop ramp. *)
Definition heatPalette (t : R) : vec3 :=
  let t := clamp t 0 1 in
  let a := Vec3 0 0 0.15 in
  let b := Vec3 0 0.3 1 in
  let c := Vec3 0 1 0.6 in
  let d := Vec3 1 0.8 0 in
  let e := Vec3 1 0.2 0.05 in
  let f := Vec3 1 1 0.9 in
  if ltb t 0.2 then mix3 a b (t / 0.2)
  else if ltb t 0.4 then mix3 b c ((t - 0.2) / 0.2)
  else if ltb t 0.6 then mix3 c d ((t - 0.4) / 0.2)
  else if ltb t 0.8 then mix3 d e ((t - 0.6) / 0.2)
  else mix3 e f ((t - 0.8) / 0.2).

(** [edgeGlow]: the mean of the eight neighbours of the mask at distance
    [radius], smoothed, damped where the mask itself is high. *)
Definition edgeGlow (w h : Z) (u_mask : Texture) (tc : vec2) (mask radius : R)
  : R :=
  let px := Vec2 (radius / IZR w) (radius / IZR h) in
  let sum := 0 in
  let sum := sum + r (nearest w h u_mask (Vec2 (cx tc + - cx px) (cy tc + 0))) in
  let sum := sum + r (nearest w h u_mask (Vec2 (cx tc + cx px) (cy tc + 0))) in
  let sum := sum + r (nearest w h u_mask (Vec2 (cx tc + 0) (cy tc + - cy px))) in
  let sum := sum + r (nearest w h u_mask (Vec2 (cx tc + 0) (cy tc + cy px))) in
  let sum := sum + r (nearest w h u_mask (Vec2 (cx tc + - cx px) (cy tc + - cy px))) in
  let sum := sum + r (nearest w h u_mask (Vec2 (cx tc + cx px) (cy tc + - cy px))) in
  let sum := sum + r (nearest w h u_mask (Vec2 (cx tc + - cx px) (cy tc + cy px))) in
  let sum := sum + r (nearest w h u_mask (Vec2 (cx tc + cx px) (cy tc + cy px))) in
  let avg := sum / 8 in
  smoothstep 0 0.5 avg * (1 - mask * 0.5).

Section Main.

(** The [LINEAR] sampler of [u_video] away from the fragment centre, where
    the chromatic style reads it; at the centre the shader gets the value
    [render] passes as [u_video]. *)
Variable u_videoAt : vec2 -> vec4.

(** [main] of the display shader: the arguments are those [render] gives
    its output pass. *)
Definition main (u_effect : Z) (u_invert : bool) (u_resolution : Z * Z)
    (u_video u_mask : Texture) (i j : Z) : vec4 :=
  let w := fst u_resolution in
  let h := snd u_resolution in
  let tc := v_texCoord w h i j in
  let video := u_video i j in
  let mask := r (nearest w h u_mask tc) in
  let mask := if u_invert then 1 - mask else mask in
  let result := Vec3 0 0 0 in
  let result :=
    if (u_effect =? 0)%Z then
      scale3 (rgb video) mask
    else if (u_effect =? 1)%Z then
      let neonCyan := Vec3 0 0.95 0.85 in
      let neonPurple := Vec3 0.6 0.1 0.95 in
      let glow := edgeGlow w h u_mask tc mask 2 in
      let edgeColor := mix3 neonCyan neonPurple (cy tc * 0.8 + 0.1) in
      let base := scale3 (scale3 (rgb video) mask) 0.85 in
      let glowLayer := scale3 (scale3 edgeColor glow) 1.5 in
      let result := add3 base glowLayer in
      let vig :=
        1 - smoothstep 0.3 0.9
              (length2 (Vec2 (cx tc - 0.5) (cy tc - 0.5)) * 1.2) in
      scale3 result (mix 0.7 1 vig)
    else if (u_effect =? 2)%Z then
      let trailColor := Vec3 0.1 0.6 1 in
      let hotColor := Vec3 1 0.9 0.7 in
      let core := scale3 (mix3 trailColor hotColor (mask * mask)) mask in
      let glow := edgeGlow w h u_mask tc mask 3 in
      let glowColor := scale3 (scale3 trailColor glow) 0.8 in
      add3 core glowColor
    else if (u_effect =? 3)%Z then
      let heat := heatPalette mask in
      let glow := edgeGlow w h u_mask tc mask 2.5 in
      let heat := add3 heat (scale3 (scale3 (Vec3 1 0.5 0.1) glow) 0.4) in
      let bgDim := smoothstep 0 0.05 mask in
      mix3 (Vec3 0.02 0.01 0.05) heat bgDim
    else if (u_effect =? 4)%Z then
      let shift := mask * 0.015 in
      let dir := normalize2 (Vec2 (cx tc - 0.5 + 0.001) (cy tc - 0.5 + 0.001)) in
      let red :=
        r (u_videoAt (Vec2 (cx tc + cx dir * shift) (cy tc + cy dir * shift))) in
      let green := g video in
      let blue :=
        b (u_videoAt (Vec2 (cx tc - cx dir * shift) (cy tc - cy dir * shift))) in
      let aberrated := Vec3 red green blue in
      let result := mix3 (rgb video) aberrated (smoothstep 0.05 0.3 mask) in
      let scanline := sin (cy tc * IZR h * 1.5) * 0.5 + 0.5 in
      sub3 result (scale3 (scale3 (splat3 0.03) scanline) mask)
    else result in
  vec4_of result mask.

End Main.

End Display.

(** ** The controls of the user interface ([handleControlChange]) *)

Module Ui.

(** An input event of the sidebar, by the control it comes from: the [id]
    of the target and the value read from it ([checked] for the checkbox,
    [Number(value)] for a range, [value] for a select). *)
Inductive Change :=
| detectionModeChange (value : DetectionMode)
| detectionThresholdInput (value : R)
| adaptationRateInput (value : R)
| processingResolutionInput (value : R)
| noiseReductionInput (value : R)
| morphologyChange (value : Morphology)
| effectChange (value : Effect)
| invertChange (checked : bool)
| persistenceInput (value : R).

(** [{ ...controls, [target.id]: value }]. *)
Definition assign (controls : MotionControls) (e : Change) : MotionControls :=
  match e with
  | detectionModeChange value =>
    {| detectionMode := value;
       detectionThreshold := detectionThreshold controls;
       processingResolution := processingResolution controls;
       noiseReduction := noiseReduction controls;
       adaptationRate := adaptationRate controls;
       morphology := morphology controls; effect := effect controls;
       invert := invert controls; persistence := persistence controls |}
  | detectionThresholdInput value =>
    {| detectionMode := detectionMode controls;
       detectionThreshold := value;
       processingResolution := processingResolution controls;
       noiseReduction := noiseReduction controls;
       adaptationRate := adaptationRate controls;
       morphology := morphology controls; effect := effect controls;
       invert := invert controls; persistence := persistence controls |}
  | adaptationRateInput value =>
    {| detectionMode := detectionMode controls;
       detectionThreshold := detectionThreshold controls;
       processingResolution := processingResolution controls;
       noiseReduction := noiseReduction controls;
       adaptationRate := value;
       morphology := morphology controls; effect := effect controls;
       invert := invert controls; persistence := persistence controls |}
  | processingResolutionInput value =>
    {| detectionMode := detectionMode controls;
       detectionThreshold := detectionThreshold controls;
       processingResolution := value;
       noiseReduction := noiseReduction controls;
       adaptationRate := adaptationRate controls;
       morphology := morphology controls; effect := effect controls;
       invert := invert controls; persistence := persistence controls |}
  | noiseReductionInput value =>
    {| detectionMode := detectionMode controls;
       detectionThreshold := detectionThreshold controls;
       processingResolution := processingResolution controls;
       noiseReduction := value;
       adaptationRate := adaptationRate controls;
       morphology := morphology controls; effect := effect controls;
       invert := invert controls; persistence := persistence controls |}
  | morphologyChange value =>
    {| detectionMode := detectionMode controls;
       detectionThreshold := detectionThreshold controls;
       processingResolution := processingResolution controls;
       noiseReduction := noiseReduction controls;
       adaptationRate := adaptationRate controls;
       morphology := value; effect := effect controls;
       invert := invert controls; persistence := persistence controls |}
  | effectChange value =>
    {| detectionMode := detectionMode controls;
       detectionThreshold := detectionThreshold controls;
       processingResolution := processingResolution controls;
       noiseReduction := noiseReduction controls;
       adaptationRate := adaptationRate controls;
       morphology := morphology controls; effect := value;
       invert := invert controls; persistence := persistence controls |}
  | invertChange checked =>
    {| detectionMode := detectionMode controls;
       detectionThreshold := detectionThreshold controls;
       processingResolution := processingResolution controls;
       noiseReduction := noiseReduction controls;
       adaptationRate := adaptationRate controls;
       morphology := morphology controls; effect := effect controls;
       invert := checked; persistence := persistence controls |}
  | persistenceInput value =>
    {| detectionMode := detectionMode controls;
       detectionThreshold := detectionThreshold controls;
       processingResolution := processingResolution controls;
       noiseReduction := noiseReduction controls;
       adaptationRate := adaptationRate controls;
       morphology := morphology controls; effect := effect controls;
       invert := invert controls; persistence := value |}
  end.

(** [handleControlChange]: the controls handed to [setControls].  A change
    of the detection mode also puts the threshold at the default of the
    mode. *)
Definition handleControlChange (controls : MotionControls) (e : Change)
  : MotionControls :=
  let newControls := assign controls e in
  match e with
  | detectionModeChange value =>
    {| detectionMode := detectionMode newControls;
       detectionThreshold :=
         if bool_decide (value = color) then 15%R else 2.5%R;
       processingResolution := processingResolution newControls;
       noiseReduction := noiseReduction newControls;
       adaptationRate := adaptationRate newControls;
       morphology := morphology newControls; effect := effect newControls;
       invert := invert newControls; persistence := persistence newControls |}
  | _ => newControls
  end.

(** The initial controls of the CPU variant. *)
Definition initialControls : MotionControls :=
  {| detectionMode := color; detectionThreshold := 15;
     processingResolution := 0.25; noiseReduction := 0;
     adaptationRate := 0.05; morphology := open; effect := classic;
     invert := false; persistence := 0.85 |}.

(** The bounds of the threshold slider of the CPU variant: [min="1.0"],
    [max] 50 in colour mode and 10 in luminance mode. *)
Definition thresholdMax (mode : DetectionMode) : R :=
  match mode with color => 50%R | luminance => 10%R end.

End Ui.

(** ** Vocabulary of the statements *)

Module Spec.

(** Pixel [(x, y)] lies in a [width] by [height] image. *)
Definition inb (width height x y : Z) : Prop :=
  0 <= x < width /\ 0 <= y < height.

(** An RGBA byte buffer of a [width] by [height] image, as [getImageData]
    and [createImageData] return it. *)
Definition sized (width height : Z) (data : list Z) : Prop :=
  length data = Z.to_nat (4 * width * height).
Definition bytes (data : list Z) : Prop := Forall (fun v => 0 <= v <= 255) data.

(** One row, then the rows [ys], of a pass writing [f x y] at every pixel:
    the shape shared by the outer loops of [erode] and [dilate]. *)
Definition row (width : Z) (f : Z -> Z -> Z) (y : Z) (output : list Z)
    (xs : list Z) : list Z :=
  foldl (fun output x => Cpu.setPixel output x y width (f x y)) output xs.
Definition pass (width : Z) (f : Z -> Z -> Z) (output : list Z) (ys : list Z)
  : list Z :=
  foldl (fun output y => row width f y output (seqZ 0 width)) output ys.

(** The nine reads [f i j] of a 3 by 3 neighbourhood, in loop order. *)
Definition window {A} (f : Z -> Z -> A) : list A :=
  [f (-1) (-1); f 0 (-1); f 1 (-1);
   f (-1) 0; f 0 0; f 1 0;
   f (-1) 1; f 0 1; f 1 1].

(** [v] is the least (greatest) element of [l]. *)
Definition least {A} (le : A -> A -> Prop) (v : A) (l : list A) : Prop :=
  v ∈ l /\ Forall (le v) l.
Definition greatest {A} (le : A -> A -> Prop) (v : A) (l : list A) : Prop :=
  v ∈ l /\ Forall (fun u => le u v) l.

(** Zero padding: the neighbourhood of pixel [(x, y)] with everything
    outside the image read as 0. *)
Definition padded (width height : Z) (data : list Z) (x y : Z) : Z -> Z -> Z :=
  fun i j => Cpu.getPixel data (x + i) (y + j) width height.

(** Edge clamping: the neighbourhood of texel [(i0, j0)] as the sampler of
    the morphology shader reads it. *)
Definition clamped (width height : Z) (t : Gpu.Texture) (i0 j0 : Z)
  : Z -> Z -> R :=
  fun i j => Gpu.r (Gpu.texture width height t (i0 + i) (j0 + j)).


(** The pixels of a [width] by [height] image, row by row. *)
Definition coords (width height : Z) : list (Z * Z) :=
  y ← seqZ 0 height; x ← seqZ 0 width; [(x, y)].

(** Foreground area of a CPU mask: the pixels whose mask channel is not 0. *)
Definition foreground (width height : Z) (data : list Z) : nat :=
  length (filter (fun p => 0 < Cpu.getPixel data p.1 p.2 width height)
                 (coords width height)).

Global Instance Rlt_decision (u v : R) : Decision (u < v)%R := Rlt_dec u v.

(** Foreground area of a GPU mask texture. *)
Definition foregroundTex (width height : Z) (t : Gpu.Texture) : nat :=
  length (filter (fun p => (0 < Gpu.r (t p.1 p.2))%R) (coords width height)).

(** Sample inputs of the detector: a luminance-mode configuration with the
    given threshold and adaptation rate, a uniform grey frame and a single
    red pixel. *)
Definition luminanceControls (threshold rate : R) : MotionControls :=
  {| detectionMode := luminance; detectionThreshold := threshold;
     processingResolution := 1; noiseReduction := 0; adaptationRate := rate;
     morphology := none; effect := classic; invert := false;
     persistence := 0.85 |}.
Definition grey : Gpu.Texture := fun _ _ => Gpu.Vec4 0.5 0.5 0.5 1.
Definition engine1x1 : Gpu.MotionEngine := Gpu.init 1 1 (Gpu.new Gpu.createTex).
Definition redPixel : list Z := [255; 0; 0; 255].

(** What a tick of [draw] paints over the faded or cleared canvas: nothing
    on the tick that seeds the model, the mask otherwise. *)
Definition overlay (resample : nat -> nat) (data : option (list Z))
    (canvas : list Cpu.RGBA) : list Cpu.RGBA :=
  match data with
  | None => canvas
  | Some data => Cpu.drawImage resample data canvas
  end.

(** Successive ticks of [draw], one per video frame. *)
Definition ticks (dimensions : Cpu.Dimensions) (controls : MotionControls)
    (resample : nat -> nat) (videos : list Cpu.Video) (st : Cpu.State)
  : Cpu.State :=
  foldl (fun st video => Cpu.draw dimensions controls resample (Some video) st)
        st videos.

(** A tick without new motion: the video is ready and, when there is a
    model, the detector classifies no pixel of the frame as foreground. *)
Definition still (dimensions : Cpu.Dimensions) (controls : MotionControls)
    (video : Cpu.Video) (st : Cpu.State) : Prop :=
  Cpu.ended video = false /\ 2 <= Cpu.readyState video
  /\ forall model, Cpu.backgroundModelData st = Some model ->
     let currentData :=
       Cpu.frame video
         (Int_part (Cpu.width dimensions * processingResolution controls))
         (Int_part (Cpu.height dimensions * processingResolution controls))
         (noiseReduction controls) in
     forall j, (j < Cpu.rounds currentData)%nat ->
       (Cpu.detect controls currentData (Cpu.mean model) (Cpu.variance model) j).1.1
       = false.

(** A run of ticks without new motion. *)
Fixpoint quiet (dimensions : Cpu.Dimensions) (controls : MotionControls)
    (resample : nat -> nat) (videos : list Cpu.Video) (st : Cpu.State) : Prop :=
  match videos with
  | [] => True
  | video :: videos =>
    still dimensions controls video st
    /\ quiet dimensions controls resample videos
         (Cpu.draw dimensions controls resample (Some video) st)
  end.

(** Sample inputs of [draw]: a video that is ready and shows the same
    colour in every pixel, and a canvas of one white pixel with no model. *)
Definition flatVideo (v : Z) : Cpu.Video :=
  {| Cpu.ended := false; Cpu.readyState := 4;
     Cpu.frame := fun w h _ => replicate (4 * Z.to_nat (w * h)) v |}.
Definition white : Cpu.RGBA :=
  {| Cpu.red := 1; Cpu.green := 1; Cpu.blue := 1; Cpu.alpha := 1 |}.
Definition freshState : Cpu.State :=
  {| Cpu.backgroundModelData := None; Cpu.motionCanvas := [white];
     Cpu.processingCanvas := [] |}.
Definition unit1x1 : Cpu.Dimensions := {| Cpu.width := 1; Cpu.height := 1 |}.

(** The all-foreground mask of a 3 by 3 image. *)
Definition full3x3 : list Z := replicate 36 255.

(** A freshly initialised 2 by 2 engine over a blank canvas, for examples. *)
Definition engine2x2 : Gpu.MotionEngine := Gpu.init 2 2 (Gpu.new Gpu.createTex).
Definition textures2x2 : Gpu.Textures :=
  {| Gpu.video := Gpu.createTex;
     Gpu.mean := (Gpu.createTex, Gpu.createTex);
     Gpu.variance := (Gpu.createTex, Gpu.createTex);
     Gpu.mask := (Gpu.createTex, Gpu.createTex) |}.
Definition controlsWith (m : Morphology) (f : Effect) (mode : DetectionMode)
  : MotionControls :=
  {| detectionMode := mode; detectionThreshold := 15;
     processingResolution := 1; noiseReduction := 0; adaptationRate := 0.05;
     morphology := m; effect := f; invert := false; persistence := 0.85 |}.

(** The cells of the mean array that belong to pixel [j]. *)
Definition owns (mode : DetectionMode) (j c : nat) : Prop :=
  match mode with
  | color => (3 * j <= c < 3 * j + 3)%nat
  | luminance => c = j
  end.

(** Two states of the per-pixel loop hold the same for pixel [j]: its mean
    cells, its variance cell and its four mask bytes. *)
Definition agree_at (mode : DetectionMode) (j : nat)
    (s1 s2 : list R * list R * list Z) : Prop :=
  (forall c, owns mode j c -> s1.1.1 !! c = s2.1.1 !! c)
  /\ s1.1.2 !! j = s2.1.2 !! j
  /\ (forall c, (c < 4)%nat -> s1.2 !! (4 * j + c)%nat = s2.2 !! (4 * j + c)%nat).

(** The detector's formulas, as the specification words them. *)

Definition luma (c : Gpu.vec3) : R :=
  (0.299 * Gpu.x c + 0.587 * Gpu.y c + 0.114 * Gpu.z c)%R.

Definition euclid (u v : Gpu.vec3) : R :=
  sqrt ((Gpu.x u - Gpu.x v) ^ 2 + (Gpu.y u - Gpu.y v) ^ 2
        + (Gpu.z u - Gpu.z v) ^ 2)%R.

(** GPU: distance of the current texel from the model, adaptive edge and
    soft score. *)
Definition gpuDist (controls : MotionControls) (current mean : Gpu.vec4) : R :=
  match detectionMode controls with
  | color => euclid (Gpu.rgb current) (Gpu.rgb mean)
  | luminance => Rabs (luma (Gpu.rgb current) - Gpu.r mean)
  end.
Definition gpuEdge (controls : MotionControls) (variance : Gpu.vec4) : R :=
  (detectionThreshold controls / 10 * sqrt (Rmax (Gpu.r variance) 0.05))%R.
Definition gpuScore (controls : MotionControls)
    (current mean variance : Gpu.vec4) : R :=
  Gpu.smoothstep (0.6 * gpuEdge controls variance)
                 (1.4 * gpuEdge controls variance)
                 (gpuDist controls current mean).

(** The three texels the detector reads at fragment [(i, j)]. *)
Definition currentAt (t : Gpu.Textures) (i j : Z) : Gpu.vec4 := Gpu.video t i j.
Definition meanAt (t : Gpu.Textures) (idx : nat) (i j : Z) : Gpu.vec4 :=
  Gpu.sel (Gpu.mean t) idx i j.
Definition varianceAt (t : Gpu.Textures) (idx : nat) (i j : Z) : Gpu.vec4 :=
  Gpu.sel (Gpu.variance t) idx i j.
Definition maskAt (t : Gpu.Textures) (idx : nat) (i j : Z) : Gpu.vec4 :=
  Gpu.sel (Gpu.mask t) idx i j.

(** CPU: the colour of pixel [j] of the frame, its brightness, its distance
    from the model and the edge it is compared with. *)
Definition redAt (currentData : list Z) (j : nat) : R :=
  IZR (Cpu.byte currentData (4 * j)).
Definition greenAt (currentData : list Z) (j : nat) : R :=
  IZR (Cpu.byte currentData (4 * j + 1)).
Definition blueAt (currentData : list Z) (j : nat) : R :=
  IZR (Cpu.byte currentData (4 * j + 2)).
Definition brightnessAt (currentData : list Z) (j : nat) : R :=
  ((redAt currentData j + greenAt currentData j + blueAt currentData j) / 3)%R.

Definition cpuDist (controls : MotionControls) (currentData : list Z)
    (meanData : list R) (j : nat) : R :=
  match detectionMode controls with
  | color =>
    sqrt ((redAt currentData j - Cpu.cell meanData (j * 3)) ^ 2
          + (greenAt currentData j - Cpu.cell meanData (j * 3 + 1)) ^ 2
          + (blueAt currentData j - Cpu.cell meanData (j * 3 + 2)) ^ 2)%R
  | luminance => Rabs (brightnessAt currentData j - Cpu.cell meanData j)
  end.
Definition cpuEdge (controls : MotionControls) (varianceData : list R) (j : nat)
  : R :=
  (detectionThreshold controls * sqrt (Rmax (Cpu.cell varianceData j) 25))%R.

(** Brightness of the model's mean at pixel [j], before the round. *)
Definition meanBrightnessAt (controls : MotionControls) (meanData : list R)
    (j : nat) : R :=
  match detectionMode controls with
  | color =>
    ((Cpu.cell meanData (j * 3) + Cpu.cell meanData (j * 3 + 1)
      + Cpu.cell meanData (j * 3 + 2)) / 3)%R
  | luminance => Cpu.cell meanData j
  end.

(** Hard score of the CPU: 1 for foreground, 0 for background. *)
Definition hardScore (isForeground : bool) : R :=
  if isForeground then 1%R else 0%R.

(** A value of the unit interval. *)
Definition unit (v : R) : Prop := (0 <= v <= 1)%R.

(** The GPU model at a texel lies in the unit range: the three channels of
    the mean and the variance. *)
Definition modelInRange (t : Gpu.Textures) (idx : nat) (i j : Z) : Prop :=
  unit (Gpu.r (meanAt t idx i j)) /\ unit (Gpu.g (meanAt t idx i j))
  /\ unit (Gpu.b (meanAt t idx i j)) /\ unit (Gpu.r (varianceAt t idx i j)).

(** [n] calls of [render] on the same frame with the same controls. *)
Definition renders
    (outputFragment :
       Z -> bool -> Z * Z -> Gpu.Texture -> Gpu.Texture -> Z -> Z -> Gpu.vec4)
    (frame : Gpu.Texture) (controls : MotionControls) (n : nat)
    (e : Gpu.MotionEngine) : Gpu.MotionEngine :=
  Nat.iter n (Gpu.render outputFragment frame controls) e.

(** Successive calls of [render], one per frame, each with the controls of
    its tick. *)
Definition play
    (outputFragment :
       Z -> bool -> Z * Z -> Gpu.Texture -> Gpu.Texture -> Z -> Z -> Gpu.vec4)
    (inputs : list (Gpu.Texture * MotionControls)) (e : Gpu.MotionEngine)
  : Gpu.MotionEngine :=
  foldl (fun e input => Gpu.render outputFragment input.1 input.2 e) e inputs.

(** The CPU model has the shape of its mode for [pSize] pixels. *)
Definition shaped (mode : DetectionMode) (pSize : nat)
    (model : Cpu.BackgroundModel) : Prop :=
  length (Cpu.mean model)
  = match mode with color => (pSize * 3)%nat | luminance => pSize end
  /\ length (Cpu.variance model) = pSize.

(** The processing size [draw] computes from the dimensions and the
    resolution control, and the frame it reads at that size. *)
Definition pWidthOf (dimensions : Cpu.Dimensions) (controls : MotionControls)
  : Z :=
  Int_part (Cpu.width dimensions * processingResolution controls).
Definition pHeightOf (dimensions : Cpu.Dimensions) (controls : MotionControls)
  : Z :=
  Int_part (Cpu.height dimensions * processingResolution controls).
Definition frameOf (dimensions : Cpu.Dimensions) (controls : MotionControls)
    (video : Cpu.Video) : list Z :=
  Cpu.frame video (pWidthOf dimensions controls) (pHeightOf dimensions controls)
    (noiseReduction controls).
Definition pSizeOf (dimensions : Cpu.Dimensions) (controls : MotionControls)
  : nat :=
  Z.to_nat (pWidthOf dimensions controls * pHeightOf dimensions controls).

(** A video that can be processed at the size of the controls: it is
    ready, the processing rectangle is not empty and the frame read has
    four bytes per pixel. *)
Definition readable (dimensions : Cpu.Dimensions) (controls : MotionControls)
    (video : Cpu.Video) : Prop :=
  Cpu.ended video = false /\ 2 <= Cpu.readyState video
  /\ 0 < pWidthOf dimensions controls /\ 0 < pHeightOf dimensions controls
  /\ length (frameOf dimensions controls video)
     = (4 * pSizeOf dimensions controls)%nat
  /\ bytes (frameOf dimensions controls video).

(** Channel [c] of pixel [(x, y)] of an RGBA byte buffer. *)
Definition channel (width : Z) (data : list Z) (x y c : Z) : Z :=
  Cpu.rd data ((y * width + x) * 4 + c).

(** Pixel [j] of the frame is what the mean of the model holds for it. *)
Definition matches (mode : DetectionMode) (currentData : list Z)
    (meanData : list R) (j : nat) : Prop :=
  match mode with
  | color =>
    Cpu.cell meanData (j * 3) = redAt currentData j
    /\ Cpu.cell meanData (j * 3 + 1) = greenAt currentData j
    /\ Cpu.cell meanData (j * 3 + 2) = blueAt currentData j
  | luminance => Cpu.cell meanData j = brightnessAt currentData j
  end.

(** A model that has seen the frame [currentData], and nothing else, for
    [k] ticks after the one that seeded it. *)
Definition settled (controls : MotionControls) (currentData : list Z)
    (pSize k : nat) (model : Cpu.BackgroundModel) : Prop :=
  shaped (detectionMode controls) pSize model
  /\ forall j, (j < pSize)%nat ->
       matches (detectionMode controls) currentData (Cpu.mean model) j
       /\ Cpu.cell (Cpu.variance model) j
          = (Cpu.initialVariance * (1 - adaptationRate controls) ^ k)%R.

(** The values a CPU model can hold: a mean within the range of a byte, a
    variance within the square of that range. *)
Definition bounded (model : Cpu.BackgroundModel) : Prop :=
  Forall (fun v => 0 <= v <= 255)%R (Cpu.mean model)
  /\ Forall (fun v => 0 <= v <= 255 * 255)%R (Cpu.variance model).

(** The model of a state, when there is one, holds such values. *)
Definition modelBounded (st : Cpu.State) : Prop :=
  match Cpu.backgroundModelData st with
  | Some model => bounded model
  | None => True
  end.

(** What [setPixel] stores in channel [c] of the pixel it writes. *)
Definition stored (v c : Z) : Z := if c =? 3 then 255 else Cpu.clamp8 v.

(** The morphology shader with the sampler read at texture coordinates. *)
Definition morphologyMain (w h : Z) (u_type : Z) (u_image : Gpu.Texture)
    (i0 j0 : Z) : Gpu.vec4 :=
  let val :=
    Gpu.r (Display.nearest w h u_image (Display.v_texCoord w h i0 j0)) in
  let val :=
    foldl (fun val i =>
      foldl (fun val j =>
        let n :=
          Gpu.r (Display.nearest w h u_image
                   (Display.morphologyCoord w h i0 j0 i j)) in
        if u_type =? 0 then Rmin val n else Rmax val n)
        val Gpu.offsets)
      val Gpu.offsets in
  Gpu.Vec4 val val val 1.

(** The controls are within the sliders of the CPU variant. *)
Definition withinSliders (controls : MotionControls) : Prop :=
  (1 <= detectionThreshold controls
   <= Ui.thresholdMax (detectionMode controls)
   /\ 0.001 <= adaptationRate controls <= 0.5
   /\ 0.1 <= processingResolution controls <= 1
   /\ 0 <= noiseReduction controls <= 5
   /\ 0 <= persistence controls <= 0.99)%R.

(** An input event as the sidebar can produce it while it shows
    [controls]: the value of a range input lies between its [min] and
    [max]. *)
Definition fromSidebar (controls : MotionControls) (e : Ui.Change) : Prop :=
  match e with
  | Ui.detectionThresholdInput value =>
    (1 <= value <= Ui.thresholdMax (detectionMode controls))%R
  | Ui.adaptationRateInput value => (0.001 <= value <= 0.5)%R
  | Ui.processingResolutionInput value => (0.1 <= value <= 1)%R
  | Ui.noiseReductionInput value => (0 <= value <= 5)%R
  | Ui.persistenceInput value => (0 <= value <= 0.99)%R
  | _ => True
  end.

(** A run of input events, each produced by the sidebar as the events
    before it left it. *)
Fixpoint operable (controls : MotionControls) (events : list Ui.Change)
  : Prop :=
  match events with
  | [] => True
  | e :: events =>
    fromSidebar controls e
    /\ operable (Ui.handleControlChange controls e) events
  end.

(** The same engine around another state of the WebGL context. *)
Definition withContext (g : Gpu.Context) (e : Gpu.MotionEngine)
  : Gpu.MotionEngine :=
  {| Gpu.gl := g; Gpu.width := Gpu.width e; Gpu.height := Gpu.height e;
     Gpu.programs := Gpu.programs e; Gpu.textures := Gpu.textures e;
     Gpu.pingPongIndex := Gpu.pingPongIndex e;
     Gpu.isInitialized := Gpu.isInitialized e |}.

(** The same engine with other contents in the drawing buffer: what the
    previous tick left on the canvas. *)
Definition repainted (canvas : Gpu.Texture) (e : Gpu.MotionEngine)
  : Gpu.MotionEngine :=
  withContext
    {| Gpu.BLEND := Gpu.BLEND (Gpu.gl e);
       Gpu.COLOR_CLEAR_VALUE := Gpu.COLOR_CLEAR_VALUE (Gpu.gl e);
       Gpu.drawingBuffer := canvas |} e.

(** A drawing buffer that is white and opaque everywhere. *)
Definition whiteCanvas : Gpu.Texture := fun _ _ => Gpu.Vec4 1 1 1 1.

End Spec.

Import Spec.

(** * Properties *)

(** ** CPU morphology: what one pass leaves in every pixel *)

Section CpuMorphology.
Import Cpu.

Variables width height : Z.

Local Abbreviation inb := (inb width height).
Local Abbreviation sized := (sized width height).
Local Abbreviation row := (row width).
Local Abbreviation pass := (pass width).
Local Abbreviation padded := (padded width height).

Lemma index_bound x y :
  inb x y ->
  0 <= (y * width + x) * 4 /\ (y * width + x) * 4 + 3 < 4 * width * height.
Proof. unfold inb. intros [Hx Hy]. split; nia. Qed.

Lemma index_inj x y x' y' :
  inb x y -> inb x' y' -> y * width + x = y' * width + x' -> x = x' /\ y = y'.
Proof.
  unfold inb. intros [Hx Hy] [Hx' Hy'] E.
  assert (y = y') by nia. subst. split; lia.
Qed.

Lemma length_wr data i v : length (wr data i v) = length data.
Proof. unfold wr, store. destruct (i <? 0); [done | apply length_insert]. Qed.

Lemma length_setPixel data x y v :
  length (setPixel data x y width v) = length data.
Proof. unfold setPixel. by rewrite !length_wr. Qed.

Lemma rd_wr_eq data i v :
  0 <= i -> (Z.to_nat i < length data)%nat -> rd (wr data i v) i = clamp8 v.
Proof.
  intros Hi Hl. unfold rd, wr, byte, store.
  destruct (Z.ltb_spec i 0); [lia |].
  by rewrite list_lookup_insert_eq.
Qed.

Lemma rd_wr_ne data i j v : i <> j -> 0 <= j -> rd (wr data i v) j = rd data j.
Proof.
  intros Hne Hj. unfold rd, wr, byte, store.
  destruct (Z.ltb_spec i 0); [done |].
  destruct (Z.ltb_spec j 0); [done |].
  rewrite list_lookup_insert_ne; [done | lia].
Qed.

Lemma getPixel_inb data x y :
  inb x y -> getPixel data x y width height = rd data ((y * width + x) * 4).
Proof.
  unfold inb, getPixel. intros [Hx Hy].
  destruct (Z.ltb_spec x 0); [lia |].
  destruct (Z.geb_spec x width); [lia |].
  destruct (Z.ltb_spec y 0); [lia |].
  destruct (Z.geb_spec y height); [lia | done].
Qed.

Lemma getPixel_outside data x y :
  ~ inb x y -> getPixel data x y width height = 0.
Proof.
  unfold inb, getPixel. intros Hn.
  destruct (Z.ltb_spec x 0); [done |].
  destruct (Z.geb_spec x width); [done |].
  destruct (Z.ltb_spec y 0); [done |].
  destruct (Z.geb_spec y height); [done | lia].
Qed.

Lemma getPixel_setPixel_eq data x y v :
  inb x y -> sized data ->
  getPixel (setPixel data x y width v) x y width height = clamp8 v.
Proof.
  intros Hin Hs. rewrite getPixel_inb by done.
  destruct (index_bound x y Hin) as [H0 H3]. unfold sized in Hs.
  unfold setPixel.
  rewrite rd_wr_ne by lia.
  rewrite rd_wr_eq; [done | lia |].
  rewrite !length_wr. lia.
Qed.

Lemma getPixel_setPixel_ne data x y x' y' v :
  inb x y -> inb x' y' -> (x, y) <> (x', y') ->
  getPixel (setPixel data x' y' width v) x y width height
  = getPixel data x y width height.
Proof.
  intros Hin Hin' Hne. rewrite !getPixel_inb by done.
  destruct (index_bound x y Hin) as [H0 H3].
  destruct (index_bound x' y' Hin') as [H0' H3'].
  assert (y * width + x <> y' * width + x') as Hd.
  { intros E. destruct (index_inj _ _ _ _ Hin Hin' E). congruence. }
  unfold setPixel. rewrite !rd_wr_ne by lia. done.
Qed.

Lemma getPixel_bytes data x y :
  bytes data -> 0 <= getPixel data x y width height <= 255.
Proof.
  intros Hb. unfold getPixel, rd, byte.
  destruct (_ || _); [lia |].
  destruct (_ <? 0); [lia |].
  destruct (data !! _) as [v|] eqn:E; simpl; [| lia].
  unfold bytes in Hb. rewrite Forall_lookup in Hb. eauto.
Qed.

Lemma length_row f y output xs : length (row f y output xs) = length output.
Proof.
  unfold row. induction xs as [| x xs IH] using rev_ind; [done |].
  by rewrite foldl_snoc, length_setPixel.
Qed.

Lemma length_pass f output ys : length (pass f output ys) = length output.
Proof.
  unfold pass. induction ys as [| y ys IH] using rev_ind; [done |].
  by rewrite foldl_snoc, length_row.
Qed.

Lemma getPixel_row f y output xs x' y' :
  sized output -> 0 <= y < height -> Forall (fun x => 0 <= x < width) xs ->
  inb x' y' ->
  getPixel (row f y output xs) x' y' width height
  = if decide (y' = y /\ x' ∈ xs) then clamp8 (f x' y)
    else getPixel output x' y' width height.
Proof.
  intros Hs Hy Hxs Hin. unfold row.
  induction xs as [| x xs IH] using rev_ind.
  - simpl. destruct (decide _) as [[_ H] |]; [by apply elem_of_nil in H | done].
  - rewrite foldl_snoc. apply Forall_app in Hxs as [Hxs Hx].
    rewrite Forall_singleton in Hx. specialize (IH Hxs).
    destruct (decide ((x', y') = (x, y))) as [E | Hne].
    + inversion E; subst. rewrite getPixel_setPixel_eq.
      * rewrite decide_True; [done |]. split; [done |].
        apply elem_of_app. right. by apply list_elem_of_singleton.
      * done.
      * red. fold (row f y output xs). by rewrite length_row.
    + rewrite getPixel_setPixel_ne; [| done | by split | done].
      rewrite IH. destruct (decide (y' = y /\ x' ∈ xs)) as [[-> Hm] | Hn].
      * rewrite decide_True; [done |]. split; [done |].
        apply elem_of_app. by left.
      * rewrite decide_False; [done |]. intros [-> Hm].
        apply elem_of_app in Hm as [Hm | Hm]; [by apply Hn |].
        apply list_elem_of_singleton in Hm. congruence.
Qed.

Lemma getPixel_pass f output ys x' y' :
  sized output -> Forall (fun y => 0 <= y < height) ys -> inb x' y' ->
  getPixel (pass f output ys) x' y' width height
  = if decide (y' ∈ ys) then clamp8 (f x' y')
    else getPixel output x' y' width height.
Proof.
  intros Hs Hys Hin. unfold pass.
  induction ys as [| y ys IH] using rev_ind.
  - destruct (decide (y' ∈ [])) as [H |]; [by apply elem_of_nil in H | done].
  - rewrite foldl_snoc. apply Forall_app in Hys as [Hys Hy].
    rewrite Forall_singleton in Hy. specialize (IH Hys).
    fold (pass f output ys).
    rewrite getPixel_row; [| red; by rewrite length_pass | done | | done].
    2: { apply Forall_seqZ. lia. }
    destruct (decide (y' = y /\ x' ∈ seqZ 0 width)) as [[-> Hm] | Hn].
    + rewrite decide_True; [done |]. apply elem_of_app. right.
      by apply list_elem_of_singleton.
    + unfold pass. rewrite IH.
      destruct (decide (y' ∈ ys)) as [Hm | Hm].
      * rewrite decide_True; [done |]. apply elem_of_app. by left.
      * rewrite decide_False; [done |]. intros Hm'.
        apply elem_of_app in Hm' as [Hm' | Hm']; [done |].
        apply list_elem_of_singleton in Hm'. subst. apply Hn. split; [done |].
        apply elem_of_seqZ. unfold inb in Hin. lia.
Qed.

Lemma erode_is_pass input output :
  erode width height input output
  = pass (erode_at input width height) output (seqZ 0 height).
Proof. reflexivity. Qed.

Lemma dilate_is_pass input output :
  dilate width height input output
  = pass (dilate_at input width height) output (seqZ 0 height).
Proof. reflexivity. Qed.

Lemma getPixel_erode input output x y :
  sized output -> inb x y ->
  getPixel (erode width height input output) x y width height
  = clamp8 (erode_at input width height x y).
Proof.
  intros Hs Hin. rewrite erode_is_pass, getPixel_pass; [| done | | done].
  - rewrite decide_True; [done |]. apply elem_of_seqZ. unfold inb in Hin. lia.
  - apply Forall_seqZ. lia.
Qed.

Lemma getPixel_dilate input output x y :
  sized output -> inb x y ->
  getPixel (dilate width height input output) x y width height
  = clamp8 (dilate_at input width height x y).
Proof.
  intros Hs Hin. rewrite dilate_is_pass, getPixel_pass; [| done | | done].
  - rewrite decide_True; [done |]. apply elem_of_seqZ. unfold inb in Hin. lia.
  - apply Forall_seqZ. lia.
Qed.

Lemma length_erode input output :
  length (erode width height input output) = length output.
Proof. rewrite erode_is_pass. apply length_pass. Qed.

Lemma length_dilate input output :
  length (dilate width height input output) = length output.
Proof. rewrite dilate_is_pass. apply length_pass. Qed.

Lemma elem_of_window {A} (f : Z -> Z -> A) i j :
  -1 <= i <= 1 -> -1 <= j <= 1 -> f i j ∈ window f.
Proof.
  intros Hi Hj. unfold window.
  assert (i = -1 \/ i = 0 \/ i = 1) as [-> | [-> | ->]] by lia;
    assert (j = -1 \/ j = 0 \/ j = 1) as [-> | [-> | ->]] by lia;
    repeat first [apply list_elem_of_here | apply list_elem_of_further].
Qed.

Lemma window_elem {A} (f : Z -> Z -> A) v :
  v ∈ window f -> exists i j, -1 <= i <= 1 /\ -1 <= j <= 1 /\ v = f i j.
Proof.
  unfold window. rewrite !elem_of_cons, elem_of_nil.
  intros H. repeat destruct H as [-> | H]; try done;
    do 2 eexists; (split; [| split; [| reflexivity]]); lia.
Qed.

Lemma foldl_min_spec (l : list Z) (a : Z) :
  foldl Z.min a l <= a /\ Forall (Z.le (foldl Z.min a l)) l
  /\ (foldl Z.min a l = a \/ foldl Z.min a l ∈ l).
Proof.
  revert a. induction l as [| u l IH]; intros a; cbn [foldl].
  - split; [lia |]. split; [constructor | by left].
  - destruct (IH (Z.min a u)) as (H1 & H2 & H3). split; [lia |]. split.
    + apply Forall_cons. split; [lia | done].
    + destruct H3 as [H3 | H3].
      * rewrite H3. destruct (Z.min_spec a u) as [[_ E] | [_ E]]; rewrite E.
        -- by left.
        -- right. apply list_elem_of_here.
      * right. by apply list_elem_of_further.
Qed.

Lemma foldl_max_spec (l : list Z) (a : Z) :
  a <= foldl Z.max a l /\ Forall (fun u => u <= foldl Z.max a l) l
  /\ (foldl Z.max a l = a \/ foldl Z.max a l ∈ l).
Proof.
  revert a. induction l as [| u l IH]; intros a; cbn [foldl].
  - split; [lia |]. split; [constructor | by left].
  - destruct (IH (Z.max a u)) as (H1 & H2 & H3). split; [lia |]. split.
    + apply Forall_cons. split; [lia | done].
    + destruct H3 as [H3 | H3].
      * rewrite H3. destruct (Z.max_spec a u) as [[_ E] | [_ E]]; rewrite E.
        -- right. apply list_elem_of_here.
        -- by left.
      * right. by apply list_elem_of_further.
Qed.

Lemma erode_at_window input x y :
  erode_at input width height x y = foldl Z.min 255 (window (padded input x y)).
Proof. reflexivity. Qed.

Lemma dilate_at_window input x y :
  dilate_at input width height x y = foldl Z.max 0 (window (padded input x y)).
Proof. reflexivity. Qed.

Lemma window_bytes input x y :
  bytes input -> Forall (fun u => 0 <= u <= 255) (window (padded input x y)).
Proof.
  intros Hb. unfold window, padded.
  repeat (apply Forall_cons; split; [by apply getPixel_bytes |]).
  constructor.
Qed.

Lemma erode_at_least input x y :
  bytes input ->
  least Z.le (erode_at input width height x y) (window (padded input x y)).
Proof.
  intros Hb. rewrite erode_at_window.
  pose proof (window_bytes input x y Hb) as Hw.
  destruct (foldl_min_spec (window (padded input x y)) 255) as (H1 & H2 & H3).
  split; [| done]. destruct H3 as [H3 | H3]; [| done].
  rewrite H3 in *.
  assert (padded input x y 0 0 ∈ window (padded input x y)) as Hc
    by (apply elem_of_window; lia).
  rewrite Forall_forall in H2, Hw.
  specialize (H2 _ Hc). specialize (Hw _ Hc).
  replace 255 with (padded input x y 0 0) by lia. done.
Qed.

Lemma dilate_at_greatest input x y :
  bytes input ->
  greatest Z.le (dilate_at input width height x y) (window (padded input x y)).
Proof.
  intros Hb. rewrite dilate_at_window.
  pose proof (window_bytes input x y Hb) as Hw.
  destruct (foldl_max_spec (window (padded input x y)) 0) as (H1 & H2 & H3).
  split; [| done]. destruct H3 as [H3 | H3]; [| done].
  rewrite H3 in *.
  assert (padded input x y 0 0 ∈ window (padded input x y)) as Hc
    by (apply elem_of_window; lia).
  rewrite Forall_forall in H2, Hw.
  specialize (H2 _ Hc). specialize (Hw _ Hc).
  replace 0 with (padded input x y 0 0) by lia. done.
Qed.

Lemma least_bytes v l :
  Forall (fun u => 0 <= u <= 255) l -> least Z.le v l -> 0 <= v <= 255.
Proof. intros Hl [Hv _]. rewrite Forall_forall in Hl. auto. Qed.

Lemma greatest_bytes v l :
  Forall (fun u => 0 <= u <= 255) l -> greatest Z.le v l -> 0 <= v <= 255.
Proof. intros Hl [Hv _]. rewrite Forall_forall in Hl. auto. Qed.

Lemma clamp8_id v : 0 <= v <= 255 -> clamp8 v = v.
Proof. unfold clamp8. lia. Qed.

Lemma erode_at_bytes input x y :
  bytes input -> 0 <= erode_at input width height x y <= 255.
Proof.
  intros Hb. eapply least_bytes; [by apply window_bytes | by apply erode_at_least].
Qed.

Lemma dilate_at_bytes input x y :
  bytes input -> 0 <= dilate_at input width height x y <= 255.
Proof.
  intros Hb.
  eapply greatest_bytes; [by apply window_bytes | by apply dilate_at_greatest].
Qed.

Lemma bytes_wr data i v : bytes data -> bytes (wr data i v).
Proof.
  intros Hb. unfold wr, store. destruct (i <? 0); [done |].
  apply Forall_insert; [done | unfold clamp8; lia].
Qed.

Lemma bytes_setPixel data x y v : bytes data -> bytes (setPixel data x y width v).
Proof. intros Hb. unfold setPixel. by repeat apply bytes_wr. Qed.

Lemma bytes_row f y output xs : bytes output -> bytes (row f y output xs).
Proof.
  intros Hb. unfold Spec.row.
  induction xs as [| x xs IH] using rev_ind; [done |].
  rewrite foldl_snoc. by apply bytes_setPixel.
Qed.

Lemma bytes_pass f output ys : bytes output -> bytes (pass f output ys).
Proof.
  intros Hb. unfold Spec.pass.
  induction ys as [| y ys IH] using rev_ind; [done |].
  rewrite foldl_snoc. by apply bytes_row.
Qed.

Lemma bytes_replicate_of n v : 0 <= v <= 255 -> bytes (replicate n v).
Proof. intros Hv. by apply Forall_replicate. Qed.

Lemma bytes_replicate n : bytes (replicate n 0).
Proof. apply bytes_replicate_of. lia. Qed.

(** Opening never raises a pixel. *)
Lemma open_le data x y :
  sized data -> bytes data -> inb x y ->
  getPixel (applyMorphology data width height open) x y width height
  <= getPixel data x y width height.
Proof.
  intros Hs Hb Hin. unfold applyMorphology.
  set (buffer := erode width height data (replicate (length data) 0)).
  assert (bytes buffer) as Hbb.
  { unfold buffer. rewrite erode_is_pass. apply bytes_pass, bytes_replicate. }
  rewrite getPixel_dilate by done.
  rewrite clamp8_id by by apply dilate_at_bytes.
  destruct (dilate_at_greatest buffer x y Hbb) as [Hm _].
  apply window_elem in Hm as (i & j & Hi & Hj & ->).
  unfold Spec.padded.
  destruct (decide (inb (x + i) (y + j))) as [Hin' | Hout].
  - unfold buffer. rewrite getPixel_erode; [| | done].
    2: { red. by rewrite length_replicate. }
    rewrite clamp8_id by by apply erode_at_bytes.
    destruct (erode_at_least data (x + i) (y + j) Hb) as [_ Hl].
    rewrite Forall_forall in Hl.
    specialize (Hl (Spec.padded width height data (x + i) (y + j) (- i) (- j))).
    assert (Spec.padded width height data (x + i) (y + j) (- i) (- j)
            = getPixel data x y width height) as Hp
      by (unfold Spec.padded; f_equal; lia).
    rewrite <- Hp. apply Hl. apply elem_of_window; lia.
  - rewrite getPixel_outside by done. by apply getPixel_bytes.
Qed.

(** Closing never lowers a pixel whose whole neighbourhood is in the image. *)
Lemma close_ge_interior data x y :
  sized data -> bytes data ->
  1 <= x < width - 1 -> 1 <= y < height - 1 ->
  getPixel data x y width height
  <= getPixel (applyMorphology data width height close) x y width height.
Proof.
  intros Hs Hb Hx Hy. unfold applyMorphology.
  set (buffer := dilate width height data (replicate (length data) 0)).
  assert (bytes buffer) as Hbb.
  { unfold buffer. rewrite dilate_is_pass. apply bytes_pass, bytes_replicate. }
  rewrite getPixel_erode; [| done | red; lia].
  rewrite clamp8_id by by apply erode_at_bytes.
  destruct (erode_at_least buffer x y Hbb) as [Hm _].
  apply window_elem in Hm as (i & j & Hi & Hj & ->).
  unfold Spec.padded, buffer.
  rewrite getPixel_dilate; [| red; by rewrite length_replicate | red; lia].
  rewrite clamp8_id by by apply dilate_at_bytes.
  destruct (dilate_at_greatest data (x + i) (y + j) Hb) as [_ Hl].
  rewrite Forall_forall in Hl.
  specialize (Hl (Spec.padded width height data (x + i) (y + j) (- i) (- j))).
  assert (Spec.padded width height data (x + i) (y + j) (- i) (- j)
          = getPixel data x y width height) as Hp
    by (unfold Spec.padded; f_equal; lia).
  rewrite <- Hp. apply Hl. apply elem_of_window; lia.
Qed.

(** Closing always blanks a pixel on the border of the image. *)
Lemma close_border data x y :
  sized data -> bytes data -> inb x y ->
  x = 0 \/ x = width - 1 \/ y = 0 \/ y = height - 1 ->
  getPixel (applyMorphology data width height close) x y width height = 0.
Proof.
  intros Hs Hb Hin Hedge. unfold applyMorphology.
  set (buffer := dilate width height data (replicate (length data) 0)).
  assert (bytes buffer) as Hbb.
  { unfold buffer. rewrite dilate_is_pass. apply bytes_pass, bytes_replicate. }
  rewrite getPixel_erode by done.
  pose proof (erode_at_bytes buffer x y Hbb) as Hr.
  rewrite clamp8_id by done.
  destruct (erode_at_least buffer x y Hbb) as [_ Hl].
  rewrite Forall_forall in Hl.
  assert (exists i j, -1 <= i <= 1 /\ -1 <= j <= 1 /\ ~ inb (x + i) (y + j))
    as (i & j & Hi & Hj & Hout).
  { unfold Spec.inb in *.
    destruct Hedge as [-> | [-> | [-> | ->]]].
    - exists (-1), 0. lia.
    - exists 1, 0. lia.
    - exists 0, (-1). lia.
    - exists 0, 1. lia. }
  assert (Spec.padded width height buffer x y i j = 0) as Hp
    by (unfold Spec.padded; by apply getPixel_outside).
  assert (erode_at buffer width height x y <= 0); [| lia].
  rewrite <- Hp. apply Hl. apply elem_of_window; lia.
Qed.

End CpuMorphology.

(** ** GPU morphology: what one draw leaves in every texel *)

Section GpuMorphology.
Import Gpu.
Local Open Scope R_scope.

Variables width height : Z.

Local Abbreviation inb := (inb width height).
Local Abbreviation clamped := (clamped width height).

Lemma foldl_Rmin_spec (l : list R) (v : R) :
  foldl Rmin v l <= v /\ Forall (Rle (foldl Rmin v l)) l
  /\ (foldl Rmin v l = v \/ foldl Rmin v l ∈ l).
Proof.
  revert v. induction l as [| u l IH]; intros v; cbn [foldl].
  - split; [lra |]. split; [constructor | by left].
  - destruct (IH (Rmin v u)) as (H1 & H2 & H3).
    pose proof (Rmin_l v u). pose proof (Rmin_r v u).
    split; [lra |]. split.
    + apply Forall_cons. split; [lra | done].
    + destruct H3 as [H3 | H3].
      * rewrite H3. apply Rmin_case; [by left | right; apply list_elem_of_here].
      * right. by apply list_elem_of_further.
Qed.

Lemma foldl_Rmax_spec (l : list R) (v : R) :
  v <= foldl Rmax v l /\ Forall (fun u => u <= foldl Rmax v l) l
  /\ (foldl Rmax v l = v \/ foldl Rmax v l ∈ l).
Proof.
  revert v. induction l as [| u l IH]; intros v; cbn [foldl].
  - split; [lra |]. split; [constructor | by left].
  - destruct (IH (Rmax v u)) as (H1 & H2 & H3).
    pose proof (Rmax_l v u). pose proof (Rmax_r v u).
    split; [lra |]. split.
    + apply Forall_cons. split; [lra | done].
    + destruct H3 as [H3 | H3].
      * rewrite H3. apply Rmax_case; [by left | right; apply list_elem_of_here].
      * right. by apply list_elem_of_further.
Qed.

(** The shader walks the neighbourhood column by column. *)
Lemma morphologyFragment_erode t i0 j0 :
  r (morphologyFragment width height 0 t i0 j0)
  = foldl Rmin (clamped t i0 j0 0%Z 0%Z)
      (window (fun j i => clamped t i0 j0 i j)).
Proof.
  unfold morphologyFragment, Spec.clamped, window, offsets.
  cbn [foldl r Z.eqb]. by rewrite !Z.add_0_r.
Qed.

Lemma morphologyFragment_dilate t i0 j0 :
  r (morphologyFragment width height 1 t i0 j0)
  = foldl Rmax (clamped t i0 j0 0%Z 0%Z)
      (window (fun j i => clamped t i0 j0 i j)).
Proof.
  unfold morphologyFragment, Spec.clamped, window, offsets.
  cbn [foldl r Z.eqb]. by rewrite !Z.add_0_r.
Qed.

Lemma window_transpose {A} (f : Z -> Z -> A) v :
  v ∈ window (fun j i => f i j) <-> v ∈ window f.
Proof.
  split; intros H; apply window_elem in H as (i & j & Hi & Hj & ->).
  - by apply (elem_of_window f).
  - by apply (elem_of_window (fun j i => f i j)).
Qed.

Lemma morphologyFragment_least t i0 j0 :
  least Rle (r (morphologyFragment width height 0 t i0 j0))
        (window (clamped t i0 j0)).
Proof.
  rewrite morphologyFragment_erode.
  destruct (foldl_Rmin_spec (window (fun j i => clamped t i0 j0 i j))
              (clamped t i0 j0 0%Z 0%Z)) as (H1 & H2 & H3).
  split.
  - destruct H3 as [-> | H3]; [apply elem_of_window; lia |].
    by apply window_transpose in H3.
  - rewrite Forall_forall in *. intros u Hu. apply H2.
    by apply window_transpose.
Qed.

Lemma morphologyFragment_greatest t i0 j0 :
  greatest Rle (r (morphologyFragment width height 1 t i0 j0))
           (window (clamped t i0 j0)).
Proof.
  rewrite morphologyFragment_dilate.
  destruct (foldl_Rmax_spec (window (fun j i => clamped t i0 j0 i j))
              (clamped t i0 j0 0%Z 0%Z)) as (H1 & H2 & H3).
  split.
  - destruct H3 as [-> | H3]; [apply elem_of_window; lia |].
    by apply window_transpose in H3.
  - rewrite Forall_forall in *. intros u Hu. apply H2.
    by apply window_transpose.
Qed.

Lemma clampZ_inb i0 j0 i j :
  inb i0 j0 -> (-1 <= i <= 1)%Z -> (-1 <= j <= 1)%Z ->
  let q1 := clampZ (i0 + i) 0 (width - 1) in
  let q2 := clampZ (j0 + j) 0 (height - 1) in
  inb q1 q2 /\
  exists i' j', (-1 <= i' <= 1)%Z /\ (-1 <= j' <= 1)%Z
    /\ clampZ (q1 + i') 0 (width - 1) = i0
    /\ clampZ (q2 + j') 0 (height - 1) = j0.
Proof.
  unfold Spec.inb, clampZ. intros [Hi0 Hj0] Hi Hj. cbn zeta.
  split; [lia |].
  exists (i0 - Z.min (Z.max (i0 + i) 0) (width - 1))%Z,
         (j0 - Z.min (Z.max (j0 + j) 0) (height - 1))%Z.
  lia.
Qed.

(** Opening never raises a texel: [E] is any texture that holds the eroded
    mask on the image. *)
Lemma gpu_open_le (t E : Texture) i0 j0 :
  inb i0 j0 ->
  (forall i j, inb i j -> r (E i j) = r (morphologyFragment width height 0 t i j)) ->
  r (morphologyFragment width height 1 E i0 j0) <= r (t i0 j0).
Proof.
  intros Hin HE.
  destruct (morphologyFragment_greatest E i0 j0) as [Hm _].
  apply window_elem in Hm as (i & j & Hi & Hj & ->).
  destruct (clampZ_inb i0 j0 i j Hin Hi Hj) as (Hq & i' & j' & Hi' & Hj' & E1 & E2).
  unfold Spec.clamped at 1. unfold texture. rewrite HE by done.
  destruct (morphologyFragment_least t
              (clampZ (i0 + i) 0 (width - 1)) (clampZ (j0 + j) 0 (height - 1)))
    as [_ Hl].
  rewrite Forall_forall in Hl.
  etransitivity; [apply Hl, (elem_of_window _ i' j'); lia |].
  unfold Spec.clamped, texture. rewrite E1, E2. lra.
Qed.

(** Closing never lowers a texel: [D] is any texture that holds the dilated
    mask on the image. *)
Lemma gpu_close_ge (t D : Texture) i0 j0 :
  inb i0 j0 ->
  (forall i j, inb i j -> r (D i j) = r (morphologyFragment width height 1 t i j)) ->
  r (t i0 j0) <= r (morphologyFragment width height 0 D i0 j0).
Proof.
  intros Hin HD.
  destruct (morphologyFragment_least D i0 j0) as [Hm _].
  apply window_elem in Hm as (i & j & Hi & Hj & ->).
  destruct (clampZ_inb i0 j0 i j Hin Hi Hj) as (Hq & i' & j' & Hi' & Hj' & E1 & E2).
  unfold Spec.clamped at 1. unfold texture. rewrite HD by done.
  destruct (morphologyFragment_greatest t
              (clampZ (i0 + i) 0 (width - 1)) (clampZ (j0 + j) 0 (height - 1)))
    as [_ Hl].
  rewrite Forall_forall in Hl.
  etransitivity; [| apply Hl, (elem_of_window _ i' j'); lia].
  unfold Spec.clamped, texture. rewrite E1, E2. lra.
Qed.

Lemma inside_inb i j : inside width height i j = true <-> inb i j.
Proof. unfold inside, Spec.inb. lia. Qed.

Lemma blend_opaque (src dst : vec4) : a src = 1 -> blend src dst = src.
Proof.
  destruct src as [sr sg sb sa]. cbn. intros ->. unfold blend. cbn.
  f_equal; ring.
Qed.

(** A draw whose fragments are opaque writes them as they are, whatever the
    blend switch says. *)
Lemma drawQuad_opaque blending fragment target i j :
  inb i j -> a (fragment i j) = 1 ->
  drawQuad blending width height fragment target i j = fragment i j.
Proof.
  intros Hin Ha. unfold drawQuad.
  apply inside_inb in Hin. rewrite Hin.
  destruct blending; [by apply blend_opaque | done].
Qed.

Lemma drawQuad_outside blending fragment target i j :
  ~ inb i j -> drawQuad blending width height fragment target i j = target i j.
Proof.
  intros Hout. unfold drawQuad.
  destruct (inside width height i j) eqn:E; [| done].
  by apply inside_inb in E.
Qed.


End GpuMorphology.

(** ** Counting foreground pixels *)

Lemma filter_length_mono {A} (P Q : A -> Prop)
    `{forall v, Decision (P v)} `{forall v, Decision (Q v)} (l : list A) :
  (forall v, v ∈ l -> P v -> Q v) ->
  (length (filter P l) <= length (filter Q l))%nat.
Proof.
  induction l as [| u l IH]; intros Himp; [done |].
  assert (length (filter P l) <= length (filter Q l))%nat as IH'.
  { apply IH. intros v Hv. apply Himp. by apply list_elem_of_further. }
  rewrite !filter_cons.
  destruct (decide (P u)) as [HP | HP].
  - rewrite decide_True by (apply Himp; [apply list_elem_of_here | done]).
    cbn. lia.
  - destruct (decide (Q u)); cbn; lia.
Qed.

Lemma elem_of_coords width height x y :
  (x, y) ∈ coords width height <-> inb width height x y.
Proof.
  unfold coords, inb. rewrite list_elem_of_bind. split.
  - intros (y' & Hx & Hy). apply list_elem_of_bind in Hx as (x' & Hp & Hx).
    apply list_elem_of_singleton in Hp. inversion Hp; subst.
    apply elem_of_seqZ in Hx, Hy. lia.
  - intros [Hx Hy]. exists y. split; [| apply elem_of_seqZ; lia].
    apply list_elem_of_bind. exists x. split; [| apply elem_of_seqZ; lia].
    by apply list_elem_of_singleton.
Qed.

Lemma foreground_open width height data :
  sized width height data -> bytes data ->
  (foreground width height (Cpu.applyMorphology data width height open)
   <= foreground width height data)%nat.
Proof.
  intros Hs Hb. unfold foreground. apply filter_length_mono.
  intros [x y] Hin Hp. apply elem_of_coords in Hin. cbn [fst snd] in *.
  pose proof (open_le width height data x y Hs Hb Hin). lia.
Qed.

(** ** The GPU passes as [render] chains them *)

Section GpuEngine.
Import Gpu.
Local Open Scope R_scope.

Lemma sel_upd {A} (p : A * A) k (v : A) : sel (upd p k v) k = v.
Proof. by destruct k. Qed.

Lemma sel_upd_next {A} (p : A * A) idx (v : A) :
  (idx < 2)%nat -> sel (upd p ((idx + 1) mod 2)%nat v) idx = sel p idx.
Proof. intros H. destruct idx as [| [| ?]]; [done | done | lia]. Qed.

Lemma sel_upd_prev {A} (p : A * A) idx (v : A) :
  (idx < 2)%nat -> sel (upd p idx v) ((idx + 1) mod 2)%nat
                   = sel p ((idx + 1) mod 2)%nat.
Proof. intros H. destruct idx as [| [| ?]]; [done | done | lia]. Qed.

Lemma mask_morphPass e u_type t from to i j :
  inb (width e) (height e) i j ->
  sel (mask (morphPass e u_type t from to)) to i j
  = morphologyFragment (width e) (height e) u_type (sel (mask t) from) i j.
Proof.
  intros Hin. unfold morphPass. cbn [mask]. rewrite sel_upd.
  by apply drawQuad_opaque.
Qed.

Lemma morphologyPasses_open e controls t idx i j :
  morphology controls = open -> (idx < 2)%nat ->
  inb (width e) (height e) i j ->
  r (sel (mask (morphologyPasses e controls t idx ((idx + 1) mod 2)%nat))
         ((idx + 1) mod 2)%nat i j)
  <= r (sel (mask t) ((idx + 1) mod 2)%nat i j).
Proof.
  intros Hm Hidx Hin. unfold morphologyPasses. rewrite Hm.
  rewrite mask_morphPass by done.
  apply gpu_open_le; [done |].
  intros i' j' Hin'. by rewrite mask_morphPass.
Qed.

Lemma morphologyPasses_close e controls t idx i j :
  morphology controls = close -> (idx < 2)%nat ->
  inb (width e) (height e) i j ->
  r (sel (mask t) ((idx + 1) mod 2)%nat i j)
  <= r (sel (mask (morphologyPasses e controls t idx ((idx + 1) mod 2)%nat))
            ((idx + 1) mod 2)%nat i j).
Proof.
  intros Hm Hidx Hin. unfold morphologyPasses. rewrite Hm.
  rewrite mask_morphPass by done.
  apply gpu_close_ge; [done |].
  intros i' j' Hin'. by rewrite mask_morphPass.
Qed.

Lemma foregroundTex_open e controls t idx :
  morphology controls = open -> (idx < 2)%nat ->
  (foregroundTex (width e) (height e)
     (sel (mask (morphologyPasses e controls t idx ((idx + 1) mod 2)%nat))
          ((idx + 1) mod 2)%nat)
   <= foregroundTex (width e) (height e) (sel (mask t) ((idx + 1) mod 2)%nat))%nat.
Proof.
  intros Hm Hidx. unfold foregroundTex. apply filter_length_mono.
  intros [i j] Hin Hp. apply elem_of_coords in Hin. cbn [fst snd] in *.
  pose proof (morphologyPasses_open e controls t idx i j Hm Hidx Hin). lra.
Qed.

Lemma foregroundTex_close e controls t idx :
  morphology controls = close -> (idx < 2)%nat ->
  (foregroundTex (width e) (height e) (sel (mask t) ((idx + 1) mod 2)%nat)
   <= foregroundTex (width e) (height e)
        (sel (mask (morphologyPasses e controls t idx ((idx + 1) mod 2)%nat))
             ((idx + 1) mod 2)%nat))%nat.
Proof.
  intros Hm Hidx. unfold foregroundTex. apply filter_length_mono.
  intros [i j] Hin Hp. apply elem_of_coords in Hin. cbn [fst snd] in *.
  pose proof (morphologyPasses_close e controls t idx i j Hm Hidx Hin). lra.
Qed.

Section Render.

Variable outputFragment :
  Z -> bool -> Z * Z -> Texture -> Texture -> Z -> Z -> vec4.

Lemma render_textures frame controls e t :
  isInitialized e = true -> textures e = Some t ->
  textures (render outputFragment frame controls e)
  = Some (morphologyPasses e controls
            (bgSubPass e controls (upload frame t) (pingPongIndex e)
               ((pingPongIndex e + 1) mod 2)%nat)
            (pingPongIndex e) ((pingPongIndex e + 1) mod 2)%nat).
Proof. intros Hi Ht. unfold render. by rewrite Hi, Ht. Qed.

Lemma render_pingPongIndex frame controls e t :
  isInitialized e = true -> textures e = Some t ->
  pingPongIndex (render outputFragment frame controls e)
  = ((pingPongIndex e + 1) mod 2)%nat.
Proof. intros Hi Ht. unfold render. by rewrite Hi, Ht. Qed.

(** The ping-pong index stays 0 or 1. *)
Lemma render_index_bound frame controls e :
  (pingPongIndex e < 2)%nat ->
  (pingPongIndex (render outputFragment frame controls e) < 2)%nat.
Proof.
  intros Hb. unfold render.
  destruct (isInitialized e); [| done].
  destruct (textures e); [| done].
  cbn [pingPongIndex]. apply Nat.mod_upper_bound. lia.
Qed.

End Render.

(** *** The background-subtraction shader *)

Lemma smoothstep_below e0 e1 v : e0 < e1 -> v <= e0 -> smoothstep e0 e1 v = 0.
Proof.
  intros He Hv. unfold smoothstep, clamp.
  assert (0 < / (e1 - e0)) as Hi by (apply Rinv_0_lt_compat; lra).
  assert ((v - e0) / (e1 - e0) <= 0) as Hq by (unfold Rdiv; nra).
  rewrite (Rmax_right _ 0) by lra. rewrite Rmin_left by lra. ring.
Qed.

Lemma smoothstep_above e0 e1 v : e0 < e1 -> e1 <= v -> smoothstep e0 e1 v = 1.
Proof.
  intros He Hv. unfold smoothstep, clamp.
  assert (0 < / (e1 - e0)) as Hi by (apply Rinv_0_lt_compat; lra).
  assert ((e1 - e0) * / (e1 - e0) = 1) as Hu by (apply Rinv_r; lra).
  assert (1 <= (v - e0) / (e1 - e0)) as Hq by (unfold Rdiv; nra).
  rewrite (Rmax_left _ 0) by lra. rewrite Rmin_right by lra. ring.
Qed.

Lemma mix_0 u v : mix u v 0 = u.
Proof. unfold mix. ring. Qed.

Lemma length_euclid u v : length (sub3 u v) = euclid u v.
Proof.
  unfold length, dot, sub3, euclid. cbn [x y z]. f_equal. ring.
Qed.

Lemma dot_luma c : dot c (Vec3 0.299 0.587 0.114) = luma c.
Proof. unfold dot, luma. cbn [x y z]. ring. Qed.

(** The three outputs of the shader, with the locals of [main] named. *)
Lemma backgroundSubtraction_mask controls current mean variance :
  snd (backgroundSubtraction (adaptationRate controls)
         (detectionThreshold controls / 10)
         (bool_decide (detectionMode controls = color)) 0.05
         current mean variance)
  = let soft := gpuScore controls current mean variance in
    Vec4 soft soft soft 1.
Proof.
  unfold backgroundSubtraction, gpuScore, gpuEdge, gpuDist.
  destruct (detectionMode controls); cbn [bool_decide decide_rel snd fst];
    rewrite ?length_euclid, ?dot_luma;
    rewrite (Rmult_comm 0.6), (Rmult_comm 1.4); reflexivity.
Qed.

Lemma backgroundSubtraction_mean controls current mean variance :
  fst (fst (backgroundSubtraction (adaptationRate controls)
              (detectionThreshold controls / 10)
              (bool_decide (detectionMode controls = color)) 0.05
              current mean variance))
  = let alpha :=
      adaptationRate controls * (1 - gpuScore controls current mean variance) in
    match detectionMode controls with
    | color =>
      Vec4 (mix (r mean) (r current) alpha) (mix (g mean) (g current) alpha)
           (mix (b mean) (b current) alpha) 1
    | luminance =>
      Vec4 (mix (r mean) (luma (rgb current)) alpha) (g mean) (b mean) 1
    end.
Proof.
  unfold backgroundSubtraction, gpuScore, gpuEdge, gpuDist.
  destruct (detectionMode controls); cbn [bool_decide decide_rel snd fst];
    rewrite ?length_euclid, ?dot_luma;
    rewrite (Rmult_comm 0.6), (Rmult_comm 1.4); reflexivity.
Qed.

Lemma backgroundSubtraction_variance controls current mean variance :
  snd (fst (backgroundSubtraction (adaptationRate controls)
              (detectionThreshold controls / 10)
              (bool_decide (detectionMode controls = color)) 0.05
              current mean variance))
  = let alpha :=
      adaptationRate controls * (1 - gpuScore controls current mean variance) in
    match detectionMode controls with
    | color =>
      let lumDiff :=
        dot (rgb current) (splat3 0.333) - dot (rgb mean) (splat3 0.333) in
      Vec4 (mix (r variance) (lumDiff * lumDiff) alpha) (g variance)
           (b variance) 1
    | luminance =>
      let d :=
        luma (rgb current) - mix (r mean) (luma (rgb current)) alpha in
      Vec4 (mix (r variance) (d * d) alpha) (g variance) (b variance) 1
    end.
Proof.
  unfold backgroundSubtraction, gpuScore, gpuEdge, gpuDist.
  destruct (detectionMode controls); cbn [bool_decide decide_rel snd fst];
    rewrite ?length_euclid, ?dot_luma;
    rewrite (Rmult_comm 0.6), (Rmult_comm 1.4); reflexivity.
Qed.

Lemma texture_inb w h (t : Texture) i j :
  inb w h i j -> texture w h t i j = t i j.
Proof.
  unfold Spec.inb, texture, clampZ. intros [Hi Hj]. f_equal; lia.
Qed.

(** What pass 2 leaves in the three textures of index [next], texel by
    texel. *)
Lemma bgSubPass_at e controls t idx next i j :
  inb (width e) (height e) i j ->
  let out :=
    backgroundSubtraction (adaptationRate controls)
      (detectionThreshold controls / 10)
      (bool_decide (detectionMode controls = color)) 0.05
      (currentAt t i j) (meanAt t idx i j) (varianceAt t idx i j) in
  meanAt (bgSubPass e controls t idx next) next i j = fst (fst out)
  /\ varianceAt (bgSubPass e controls t idx next) next i j = snd (fst out)
  /\ maskAt (bgSubPass e controls t idx next) next i j = snd out.
Proof.
  intros Hin out. unfold meanAt, varianceAt, maskAt, bgSubPass.
  cbn [mean variance mask]. rewrite !sel_upd.
  rewrite !drawQuad_opaque; try done;
    rewrite ?texture_inb by done; try done.
  all: unfold backgroundSubtraction;
    repeat match goal with |- context [if ?c then _ else _] => destruct c end;
    reflexivity.
Qed.

Lemma morphologyPasses_model e controls t idx next :
  mean (morphologyPasses e controls t idx next) = mean t
  /\ variance (morphologyPasses e controls t idx next) = variance t.
Proof. unfold morphologyPasses. by destruct (morphology controls). Qed.

End GpuEngine.

(** ** The per-pixel loop of the CPU: every round is local to its pixel *)

Section CpuLoop.
Import Cpu.

Variables (controls : MotionControls) (currentData : list Z).

Local Abbreviation mode := (detectionMode controls).
Local Abbreviation agree_at := (agree_at (detectionMode controls)).

Lemma agree_insert {A} (l1 l2 : list A) (c k : nat) (v : A) :
  l1 !! k = l2 !! k -> <[c := v]> l1 !! k = <[c := v]> l2 !! k.
Proof.
  intros E. destruct (decide (c = k)) as [-> | Hne].
  - assert ((k < length l1)%nat <-> (k < length l2)%nat) as Hl.
    { rewrite <- !lookup_lt_is_Some. by rewrite E. }
    destruct (decide (k < length l1)%nat) as [Hk | Hk].
    + rewrite !list_lookup_insert_eq by tauto. done.
    + rewrite !list_insert_ge by lia. done.
  - by rewrite !list_lookup_insert_ne.
Qed.

Lemma agree_at_refl j s : agree_at j s s.
Proof. by repeat split. Qed.

Lemma agree_at_sym j s1 s2 : agree_at j s1 s2 -> agree_at j s2 s1.
Proof.
  intros (H1 & H2 & H3). repeat split; [| done |]; intros c Hc; symmetry; auto.
Qed.

Lemma agree_at_trans j s1 s2 s3 :
  agree_at j s1 s2 -> agree_at j s2 s3 -> agree_at j s1 s3.
Proof.
  intros (H1 & H2 & H3) (H1' & H2' & H3'). repeat split.
  - intros c Hc. by rewrite H1, H1'.
  - by rewrite H2, H2'.
  - intros c Hc. by rewrite H3, H3'.
Qed.

Lemma agree_cell (a1 a2 : list R) c : a1 !! c = a2 !! c -> cell a1 c = cell a2 c.
Proof. unfold cell. by intros ->. Qed.

Lemma paint_agree d1 d2 j isForeground :
  (forall c, (c < 4)%nat -> d1 !! (4 * j + c)%nat = d2 !! (4 * j + c)%nat) ->
  forall c, (c < 4)%nat ->
    paint controls d1 j isForeground !! (4 * j + c)%nat
    = paint controls d2 j isForeground !! (4 * j + c)%nat.
Proof.
  intros H c Hc. unfold paint, store.
  destruct isForeground; repeat apply agree_insert; by apply H.
Qed.

Lemma paint_frame d j k isForeground c :
  j <> k -> (c < 4)%nat ->
  paint controls d k isForeground !! (4 * j + c)%nat = d !! (4 * j + c)%nat.
Proof.
  intros Hne Hc. unfold paint, store.
  destruct isForeground; rewrite !list_lookup_insert_ne by lia; done.
Qed.

(** A round computes the same for its pixel from any two states that hold
    the same for that pixel. *)
Lemma pixel_local j s1 s2 :
  agree_at j s1 s2 ->
  agree_at j (pixel controls currentData s1 j) (pixel controls currentData s2 j).
Proof.
  destruct s1 as [[m1 v1] d1], s2 as [[m2 v2] d2].
  intros (Hm & Hv & Hd). cbn [fst snd] in *.
  unfold pixel, detect, Spec.agree_at, owns in *.
  rewrite (agree_cell v1 v2 j Hv).
  destruct (detectionMode controls).
  - rewrite (agree_cell m1 m2 (j * 3) (Hm (j * 3)%nat ltac:(lia))).
    rewrite (agree_cell m1 m2 (j * 3 + 1) (Hm (j * 3 + 1)%nat ltac:(lia))).
    rewrite (agree_cell m1 m2 (j * 3 + 2) (Hm (j * 3 + 2)%nat ltac:(lia))).
    destruct (gtb _ _); cbn [negb fst snd].
    + split; [done |]. split; [done |]. by apply paint_agree.
    + split; [| split; [| by apply paint_agree]].
      * intros c Hc. repeat apply agree_insert. by apply Hm.
      * by apply agree_insert.
  - rewrite (agree_cell m1 m2 j (Hm j eq_refl)).
    destruct (gtb _ _); cbn [negb fst snd].
    + split; [done |]. split; [done |]. by apply paint_agree.
    + split; [| split; [| by apply paint_agree]].
      * intros c Hc. apply agree_insert. by apply Hm.
      * by apply agree_insert.
Qed.

(** A round leaves every other pixel as it was. *)
Lemma pixel_frame j k s :
  j <> k -> agree_at j (pixel controls currentData s k) s.
Proof.
  destruct s as [[m v] d]. intros Hne.
  unfold pixel, detect, Spec.agree_at, owns.
  destruct (detectionMode controls).
  - destruct (gtb _ _); cbn [negb fst snd].
    + split; [done |]. split; [done |]. intros c Hc. by apply paint_frame.
    + split; [| split; [| intros c Hc; by apply paint_frame]].
      * intros c Hc. rewrite !list_lookup_insert_ne by lia. done.
      * by rewrite list_lookup_insert_ne.
  - destruct (gtb _ _); cbn [negb fst snd].
    + split; [done |]. split; [done |]. intros c Hc. by apply paint_frame.
    + split; [| split; [| intros c Hc; by apply paint_frame]].
      * intros c ->. by rewrite list_lookup_insert_ne.
      * by rewrite list_lookup_insert_ne.
Qed.

Lemma pixels_untouched j s n :
  (n <= j)%nat -> agree_at j (foldl (pixel controls currentData) s (seq 0 n)) s.
Proof.
  induction n as [| n IH]; intros Hj; [apply agree_at_refl |].
  rewrite seq_S, foldl_snoc. cbn [plus].
  eapply agree_at_trans; [apply pixel_frame; lia | apply IH; lia].
Qed.

(** After [n] rounds, pixel [j < n] holds what its own round computes from
    the state the loop started in. *)
Lemma pixels_prefix j s n :
  (j < n)%nat ->
  agree_at j (foldl (pixel controls currentData) s (seq 0 n))
             (pixel controls currentData s j).
Proof.
  induction n as [| n IH]; intros Hj; [lia |].
  rewrite seq_S, foldl_snoc. cbn [plus].
  destruct (decide (j = n)) as [-> | Hne].
  - apply pixel_local. by apply pixels_untouched.
  - eapply agree_at_trans; [apply pixel_frame; lia | apply IH; lia].
Qed.

Lemma pixels_at j s :
  (j < rounds currentData)%nat ->
  agree_at j (pixels controls currentData s) (pixel controls currentData s j).
Proof. apply pixels_prefix. Qed.

End CpuLoop.

(** ** The detector on the CPU *)

Section CpuDetector.
Import Cpu.
Local Open Scope R_scope.

Variables (controls : MotionControls) (currentData : list Z).

Lemma gtb_true u v : gtb u v = true <-> u > v.
Proof. unfold gtb. destruct (Rgt_dec u v); split; (done || lra). Qed.

Lemma gtb_false u v : gtb u v = false <-> u <= v.
Proof. unfold gtb. destruct (Rgt_dec u v); split; (done || lra). Qed.

Lemma detect_classification meanData varianceData j :
  (detect controls currentData meanData varianceData j).1.1
  = gtb (cpuDist controls currentData meanData j)
        (cpuEdge controls varianceData j).
Proof.
  unfold detect, cpuDist, cpuEdge, brightnessAt, redAt, greenAt, blueAt,
    minVariance.
  destruct (detectionMode controls); destruct (gtb _ _); reflexivity.
Qed.

(** A foreground pixel leaves both arrays as they are. *)
Lemma detect_foreground meanData varianceData j :
  (detect controls currentData meanData varianceData j).1.1 = true ->
  detect controls currentData meanData varianceData j
  = (true, meanData, varianceData).
Proof.
  unfold detect.
  destruct (detectionMode controls); destruct (gtb _ _); cbn; done.
Qed.

(** A background pixel moves its variance towards the squared difference
    of the brightness of the frame and of the mean read before the round. *)
Lemma detect_background_variance meanData varianceData j :
  (detect controls currentData meanData varianceData j).1.1 = false ->
  (detect controls currentData meanData varianceData j).2
  = <[j := (1 - adaptationRate controls) * cell varianceData j
           + adaptationRate controls
             * ((brightnessAt currentData j
                 - meanBrightnessAt controls meanData j)
                * (brightnessAt currentData j
                   - meanBrightnessAt controls meanData j))]> varianceData.
Proof.
  unfold detect, meanBrightnessAt, brightnessAt, redAt, greenAt, blueAt.
  destruct (detectionMode controls); destruct (gtb _ _); cbn; done.
Qed.

Lemma pixel_detect meanData varianceData motionData j :
  pixel controls currentData (meanData, varianceData, motionData) j
  = ((detect controls currentData meanData varianceData j).1.2,
     (detect controls currentData meanData varianceData j).2,
     paint controls motionData j
       (detect controls currentData meanData varianceData j).1.1).
Proof.
  unfold pixel.
  by destruct (detect controls currentData meanData varianceData j) as [[? ?] ?].
Qed.

(** Loop level: a pixel the loop classifies as foreground keeps its mean
    and its variance. *)
Lemma pixels_foreground meanData varianceData motionData j :
  (j < rounds currentData)%nat ->
  (detect controls currentData meanData varianceData j).1.1 = true ->
  (forall c, owns (detectionMode controls) j c ->
     (pixels controls currentData (meanData, varianceData, motionData)).1.1 !! c
     = meanData !! c)
  /\ (pixels controls currentData (meanData, varianceData, motionData)).1.2 !! j
     = varianceData !! j.
Proof.
  intros Hj Hfg.
  destruct (pixels_at controls currentData j
              (meanData, varianceData, motionData) Hj) as (Hm & Hv & _).
  rewrite pixel_detect, (detect_foreground _ _ _ Hfg) in Hm, Hv.
  cbn [fst snd] in Hm, Hv. done.
Qed.

(** Loop level: the variance of every pixel after the loop, in both
    modes, with the weight [adaptationRate * (1 - score)] of the hard
    score. *)
Lemma pixels_variance meanData varianceData motionData j :
  (j < rounds currentData)%nat -> (j < length varianceData)%nat ->
  let isForeground :=
    (detect controls currentData meanData varianceData j).1.1 in
  let delta :=
    brightnessAt currentData j - meanBrightnessAt controls meanData j in
  cell (pixels controls currentData (meanData, varianceData, motionData)).1.2 j
  = Gpu.mix (cell varianceData j) (delta * delta)
      (adaptationRate controls * (1 - hardScore isForeground)).
Proof.
  intros Hj Hl isForeground delta.
  destruct (pixels_at controls currentData j
              (meanData, varianceData, motionData) Hj) as (_ & Hv & _).
  rewrite pixel_detect in Hv. cbn [fst snd] in Hv.
  unfold cell at 1. rewrite Hv. unfold isForeground, hardScore, Gpu.mix.
  destruct (detect controls currentData meanData varianceData j).1.1 eqn:E.
  - rewrite (detect_foreground _ _ _ E). cbn [snd]. unfold cell.
    destruct (varianceData !! j); cbn; ring.
  - rewrite (detect_background_variance _ _ _ E).
    rewrite list_lookup_insert_eq by done. cbn. unfold delta. ring.
Qed.

(** Loop level: the mask bytes of every pixel after the loop. *)
Lemma pixels_paint meanData varianceData motionData j c :
  (j < rounds currentData)%nat -> (c < 4)%nat ->
  (pixels controls currentData (meanData, varianceData, motionData)).2
    !! (4 * j + c)%nat
  = paint controls motionData j
      (detect controls currentData meanData varianceData j).1.1
    !! (4 * j + c)%nat.
Proof.
  intros Hj Hc.
  destruct (pixels_at controls currentData j
              (meanData, varianceData, motionData) Hj) as (_ & _ & Hd).
  rewrite pixel_detect in Hd. cbn [fst snd] in Hd. by apply Hd.
Qed.

End CpuDetector.

(** ** Seeding the model on the CPU *)

Section CpuSeed.
Import Cpu.

Variables (currentData : list Z) (pSize : nat).
Hypothesis Hlen : length currentData = (4 * pSize)%nat.

Lemma rounds_sized : rounds currentData = pSize.
Proof.
  unfold rounds. rewrite Hlen. symmetry.
  apply (Nat.div_unique _ 4 pSize 3); lia.
Qed.

Lemma seedMean_color_prefix n :
  (n <= pSize)%nat ->
  let acc :=
    foldl (fun mean j =>
      let i := (4 * j)%nat in
      let mean := <[(j * 3)%nat := IZR (byte currentData i)]> mean in
      let mean := <[(j * 3 + 1)%nat := IZR (byte currentData (i + 1))]> mean in
      <[(j * 3 + 2)%nat := IZR (byte currentData (i + 2))]> mean)
      (replicate (pSize * 3) 0%R) (seq 0 n) in
  length acc = (pSize * 3)%nat
  /\ forall j, (j < n)%nat ->
       acc !! (j * 3)%nat = Some (redAt currentData j)
       /\ acc !! (j * 3 + 1)%nat = Some (greenAt currentData j)
       /\ acc !! (j * 3 + 2)%nat = Some (blueAt currentData j).
Proof.
  induction n as [| n IH]; intros Hn; cbn zeta.
  - split; [apply length_replicate | lia].
  - destruct (IH ltac:(lia)) as [Hl Hc]. cbn zeta in Hl, Hc.
    rewrite seq_S, foldl_snoc. cbn [plus].
    split; [by rewrite !length_insert |].
    intros j Hj. destruct (decide (j = n)) as [-> | Hne].
    + unfold redAt, greenAt, blueAt. repeat split.
      * rewrite !list_lookup_insert_ne by lia.
        rewrite list_lookup_insert_eq by lia. done.
      * rewrite list_lookup_insert_ne by lia.
        rewrite list_lookup_insert_eq by (rewrite length_insert; lia). done.
      * rewrite list_lookup_insert_eq by (rewrite !length_insert; lia). done.
    + rewrite !list_lookup_insert_ne by lia. apply Hc. lia.
Qed.

Lemma seedMean_luminance_prefix n :
  (n <= pSize)%nat ->
  let acc :=
    foldl (fun mean j =>
      let i := (4 * j)%nat in
      let brightness :=
        ((IZR (byte currentData i) + IZR (byte currentData (i + 1))
          + IZR (byte currentData (i + 2))) / 3)%R in
      <[j := brightness]> mean)
      (replicate pSize 0%R) (seq 0 n) in
  length acc = pSize
  /\ forall j, (j < n)%nat -> acc !! j = Some (brightnessAt currentData j).
Proof.
  induction n as [| n IH]; intros Hn; cbn zeta.
  - split; [apply length_replicate | lia].
  - destruct (IH ltac:(lia)) as [Hl Hc]. cbn zeta in Hl, Hc.
    rewrite seq_S, foldl_snoc. cbn [plus].
    split; [by rewrite length_insert |].
    intros j Hj. destruct (decide (j = n)) as [-> | Hne].
    + rewrite list_lookup_insert_eq by lia. done.
    + rewrite list_lookup_insert_ne by lia. apply Hc. lia.
Qed.

(** Every pixel of the seeded mean holds the value of that pixel in the
    frame: its three channels in colour mode, their average in luminance
    mode. *)
Lemma seedMean_at mode j :
  (j < pSize)%nat ->
  match mode with
  | color =>
    seedMean color currentData pSize !! (j * 3)%nat = Some (redAt currentData j)
    /\ seedMean color currentData pSize !! (j * 3 + 1)%nat
       = Some (greenAt currentData j)
    /\ seedMean color currentData pSize !! (j * 3 + 2)%nat
       = Some (blueAt currentData j)
  | luminance =>
    seedMean luminance currentData pSize !! j = Some (brightnessAt currentData j)
  end.
Proof.
  intros Hj. destruct mode; unfold seedMean; rewrite rounds_sized.
  - by apply (seedMean_color_prefix pSize).
  - by apply (seedMean_luminance_prefix pSize).
Qed.

End CpuSeed.

(** ** Morphology: the claims *)




(** C8, as stated, fails on the CPU: closing the all-foreground 3 by 3 mask
    keeps only its centre pixel. *)
Lemma C8_cpu_close_shrinks_full_mask :
  sized 3 3 full3x3
  /\ Forall (fun v => v = 0 \/ v = 255) full3x3
  /\ foreground 3 3 full3x3 = 9%nat
  /\ foreground 3 3 (Cpu.applyMorphology full3x3 3 3 close) = 1%nat.
Proof.
  split; [reflexivity |]. split.
  { apply Forall_forall. intros v Hv.
    apply elem_of_replicate in Hv as [-> _]. by right. }
  split; vm_compute; reflexivity.
Qed.

(** C8, amended.  Opening never increases the foreground area, on the CPU
    and on the GPU.  Closing never decreases it on the GPU, where the
    sampler clamps at the edge.  On the CPU, where pixels outside the image
    read as background, closing never lowers a pixel whose neighbourhood
    lies in the image and blanks every pixel on the border. *)
Theorem C8_open_close_area
    (width height : Z) (data : list Z)
    (outputFragment :
       Z -> bool -> Z * Z -> Gpu.Texture -> Gpu.Texture -> Z -> Z -> Gpu.vec4)
    (frame : Gpu.Texture) (controls : MotionControls)
    (e : Gpu.MotionEngine) (t : Gpu.Textures) :
  sized width height data -> bytes data ->
  Gpu.isInitialized e = true -> Gpu.textures e = Some t ->
  (Gpu.pingPongIndex e < 2)%nat ->
  let next := ((Gpu.pingPongIndex e + 1) mod 2)%nat in
  let detected :=
    Gpu.sel (Gpu.mask (Gpu.bgSubPass e controls (Gpu.upload frame t)
                         (Gpu.pingPongIndex e) next)) next in
  (foreground width height (Cpu.applyMorphology data width height open)
   <= foreground width height data)%nat
  /\ (forall x y, 1 <= x < width - 1 -> 1 <= y < height - 1 ->
        Cpu.getPixel data x y width height
        <= Cpu.getPixel (Cpu.applyMorphology data width height close)
             x y width height)
  /\ (forall x y, inb width height x y ->
        x = 0 \/ x = width - 1 \/ y = 0 \/ y = height - 1 ->
        Cpu.getPixel (Cpu.applyMorphology data width height close)
          x y width height = 0)
  /\ exists t',
       Gpu.textures (Gpu.render outputFragment frame controls e) = Some t'
       /\ (morphology controls = open ->
           (foregroundTex (Gpu.width e) (Gpu.height e) (Gpu.sel (Gpu.mask t') next)
            <= foregroundTex (Gpu.width e) (Gpu.height e) detected)%nat)
       /\ (morphology controls = close ->
           (foregroundTex (Gpu.width e) (Gpu.height e) detected
            <= foregroundTex (Gpu.width e) (Gpu.height e)
                 (Gpu.sel (Gpu.mask t') next))%nat).
Proof.
  intros Hs Hb Hi Ht Hidx next detected.
  split; [by apply foreground_open |].
  split; [intros x y Hx Hy; by apply close_ge_interior |].
  split; [intros x y Hin Hedge; by apply close_border |].
  eexists. split; [by apply render_textures |].
  split; intros Hm.
  - by apply foregroundTex_open.
  - by apply foregroundTex_close.
Qed.

Lemma C8_open_close_area_witness :
  (foreground 3 3 (Cpu.applyMorphology full3x3 3 3 open)
   <= foreground 3 3 full3x3)%nat
  /\ Cpu.getPixel full3x3 1 1 3 3
     <= Cpu.getPixel (Cpu.applyMorphology full3x3 3 3 close) 1 1 3 3.
Proof.
  pose proof (C8_open_close_area 3 3 full3x3
                (fun _ _ _ _ _ _ _ => Gpu.Vec4 0 0 0 0) Gpu.createTex
                (controlsWith open classic color) engine2x2 textures2x2) as H.
  assert (sized 3 3 full3x3) as Hs by reflexivity.
  assert (bytes full3x3) as Hb by (apply bytes_replicate_of; lia).
  assert (Gpu.isInitialized engine2x2 = true) as Hi by reflexivity.
  assert (Gpu.textures engine2x2 = Some textures2x2) as Ht by reflexivity.
  assert (Gpu.pingPongIndex engine2x2 < 2)%nat as Hidx by (simpl; lia).
  destruct (H Hs Hb Hi Ht Hidx) as (H1 & H2 & _).
  split; [exact H1 | apply H2; lia].
Defined.

(** ** The detector: the claims *)

Section DetectorClaims.
Local Open Scope R_scope.

Lemma sqrt_100 : sqrt 100 = 10.
Proof. replace 100 with (10 * 10) by lra. apply sqrt_square. lra. Qed.

Lemma sqrt_005_lower : 1 / 6 <= sqrt 0.05.
Proof.
  assert (sqrt (1 / 6 * (1 / 6)) = 1 / 6) as E by (apply sqrt_square; lra).
  rewrite <- E. apply sqrt_le_1_alt. lra.
Qed.

(** On the first frame after [init], a mid-grey texel is background in
    luminance mode at threshold 50. *)
Lemma grey_is_background :
  gpuScore (luminanceControls 50 0.5) (grey 0%Z 0%Z) (Gpu.createTex 0%Z 0%Z)
           (Gpu.createTex 0%Z 0%Z) = 0.
Proof.
  unfold gpuScore, gpuEdge, gpuDist, luma, grey, Gpu.createTex.
  cbn [detectionMode detectionThreshold luminanceControls Gpu.rgb Gpu.r Gpu.g
       Gpu.b Gpu.x Gpu.y Gpu.z].
  rewrite Rmax_right by lra.
  pose proof sqrt_005_lower.
  apply smoothstep_below; [lra |].
  rewrite Rabs_right by lra. lra.
Qed.

Lemma sqrt_005_upper : sqrt 0.05 <= 1.
Proof.
  transitivity (sqrt 1); [apply sqrt_le_1_alt; lra | rewrite sqrt_1; lra].
Qed.

(** At threshold 1 the same texel is full motion. *)
Lemma grey_is_motion :
  gpuScore (luminanceControls 1 0.05) (grey 0%Z 0%Z) (Gpu.createTex 0%Z 0%Z)
           (Gpu.createTex 0%Z 0%Z) = 1.
Proof.
  unfold gpuScore, gpuEdge, gpuDist, luma, grey, Gpu.createTex.
  cbn [detectionMode detectionThreshold luminanceControls Gpu.rgb Gpu.r Gpu.g
       Gpu.b Gpu.x Gpu.y Gpu.z].
  rewrite Rmax_right by lra.
  pose proof sqrt_005_lower. pose proof sqrt_005_upper.
  apply smoothstep_above; [lra |].
  rewrite Rabs_right by lra. lra.
Qed.

(** The brightness of the red pixel is 85, its edge over a model of mean 0
    and variance 100 is ten times the threshold. *)
Lemma red_dist threshold rate :
  cpuDist (luminanceControls threshold rate) redPixel [0] 0 = 85.
Proof.
  unfold cpuDist, brightnessAt, redAt, greenAt, blueAt, Cpu.cell, Cpu.byte.
  cbn. rewrite Rabs_right by lra. lra.
Qed.

Lemma red_edge threshold rate :
  cpuEdge (luminanceControls threshold rate) [100] 0 = threshold * 10.
Proof.
  unfold cpuEdge, Cpu.cell. cbn. rewrite Rmax_left by lra. by rewrite sqrt_100.
Qed.

Lemma red_is_foreground threshold rate :
  threshold * 10 < 85 ->
  (Cpu.detect (luminanceControls threshold rate) redPixel [0] [100] 0).1.1 = true.
Proof.
  intros H. rewrite detect_classification, red_dist, red_edge.
  apply gtb_true. lra.
Qed.

End DetectorClaims.

(** C1: on the GPU, in luminance mode, the variance update reads the mean
    this very fragment has just updated.  First frame after [init] on a
    1 by 1 engine (mean 0, variance 0), mid-grey frame, threshold 50,
    adaptation rate 0.5: the texel is background, the mean moves to 0.25
    and the shader stores variance 0.03125, where the update with the mean
    held before the tick gives 0.125. *)
Theorem C1_gpu_luminance_variance_reads_updated_mean
    (outputFragment :
       Z -> bool -> Z * Z -> Gpu.Texture -> Gpu.Texture -> Z -> Z -> Gpu.vec4) :
  exists t',
    Gpu.textures
      (Gpu.render outputFragment grey (luminanceControls 50 0.5) engine1x1)
    = Some t'
    /\ Gpu.r (maskAt t' 1 0 0) = 0%R
    /\ Gpu.r (meanAt t' 1 0 0) = 0.25%R
    /\ Gpu.r (varianceAt t' 1 0 0) = 0.03125%R
    /\ Gpu.mix 0 ((luma (Gpu.rgb (grey 0 0)) - 0) ^ 2) (0.5 * (1 - 0)) = 0.125%R.
Proof.
  eexists. split; [by apply render_textures |].
  assert (inb (Gpu.width engine1x1) (Gpu.height engine1x1) 0 0) as Hin
    by (split; simpl; lia).
  destruct (bgSubPass_at engine1x1 (luminanceControls 50 0.5)
              (Gpu.upload grey
                 {| Gpu.video := Gpu.createTex;
                    Gpu.mean := (Gpu.createTex, Gpu.createTex);
                    Gpu.variance := (Gpu.createTex, Gpu.createTex);
                    Gpu.mask := (Gpu.createTex, Gpu.createTex) |})
              0 1 0 0 Hin) as (Hm & Hv & Hk).
  unfold Gpu.morphologyPasses. cbn [morphology luminanceControls].
  cbn [Gpu.pingPongIndex engine1x1 Gpu.init Gpu.createTexturesAndFBOs Gpu.new
       Nat.add Nat.modulo Nat.divmod snd Nat.sub].
  rewrite Hm, Hv, Hk.
  rewrite backgroundSubtraction_mean, backgroundSubtraction_variance,
    backgroundSubtraction_mask.
  cbn zeta. unfold currentAt, meanAt, varianceAt.
  cbn [Gpu.upload Gpu.video Gpu.mean Gpu.variance Gpu.sel fst snd].
  rewrite grey_is_background.
  cbn [detectionMode adaptationRate luminanceControls Gpu.r].
  unfold Gpu.mix, luma, grey, Gpu.createTex.
  cbn [Gpu.rgb Gpu.r Gpu.g Gpu.b Gpu.x Gpu.y Gpu.z].
  repeat split; lra.
Qed.

(** C4: a pixel scored as full motion leaves the model as it is.  On the
    GPU, where the detector's score at a texel is 1, the mean and variance
    written for the next tick carry the colour channels read this tick; on
    the CPU, every pixel the loop classifies as foreground keeps its mean
    cells and its variance cell. *)
Theorem C4_foreground_pixels_do_not_adapt
    (outputFragment :
       Z -> bool -> Z * Z -> Gpu.Texture -> Gpu.Texture -> Z -> Z -> Gpu.vec4)
    (frame : Gpu.Texture) (controls : MotionControls)
    (e : Gpu.MotionEngine) (t : Gpu.Textures) (i j : Z)
    (currentData : list Z) (meanData varianceData : list R)
    (motionData : list Z) (k : nat) :
  Gpu.isInitialized e = true -> Gpu.textures e = Some t ->
  inb (Gpu.width e) (Gpu.height e) i j ->
  (k < Cpu.rounds currentData)%nat ->
  let idx := Gpu.pingPongIndex e in
  let next := ((idx + 1) mod 2)%nat in
  let score :=
    Gpu.r (maskAt (Gpu.bgSubPass e controls (Gpu.upload frame t) idx next)
             next i j) in
  (exists t',
     Gpu.textures (Gpu.render outputFragment frame controls e) = Some t'
     /\ (score = 1%R ->
         Gpu.rgb (meanAt t' next i j) = Gpu.rgb (meanAt t idx i j)
         /\ Gpu.rgb (varianceAt t' next i j) = Gpu.rgb (varianceAt t idx i j)))
  /\ ((Cpu.detect controls currentData meanData varianceData k).1.1 = true ->
      let after :=
        Cpu.pixels controls currentData (meanData, varianceData, motionData) in
      (forall c, owns (detectionMode controls) k c ->
         after.1.1 !! c = meanData !! c)
      /\ after.1.2 !! k = varianceData !! k).
Proof.
  intros Hi Ht Hin Hk idx next score. split.
  - eexists. split; [by apply render_textures |].
    fold idx next. intros Hs. unfold score in Hs.
    destruct (morphologyPasses_model e controls
                (Gpu.bgSubPass e controls (Gpu.upload frame t) idx next)
                idx next) as [Em Ev].
    unfold meanAt at 1, varianceAt at 1. rewrite Em, Ev.
    destruct (bgSubPass_at e controls (Gpu.upload frame t) idx next i j Hin)
      as (Hm & Hv & Hk').
    fold (meanAt (Gpu.bgSubPass e controls (Gpu.upload frame t) idx next) next i j).
    fold (varianceAt (Gpu.bgSubPass e controls (Gpu.upload frame t) idx next)
            next i j).
    rewrite Hm, Hv. rewrite Hk', backgroundSubtraction_mask in Hs.
    cbn [Gpu.r] in Hs.
    rewrite backgroundSubtraction_mean, backgroundSubtraction_variance.
    cbn zeta. rewrite Hs.
    replace (adaptationRate controls * (1 - 1))%R with 0%R by ring.
    rewrite !mix_0.
    unfold meanAt, varianceAt. cbn [Gpu.upload Gpu.mean Gpu.variance].
    by destruct (detectionMode controls).
  - intros Hfg after. by apply pixels_foreground.
Qed.

Lemma C4_foreground_pixels_do_not_adapt_witness :
  (exists t',
     Gpu.textures
       (Gpu.render (fun _ _ _ _ _ _ _ => Gpu.Vec4 0 0 0 0) grey
          (luminanceControls 1 0.05) engine1x1) = Some t'
     /\ Gpu.rgb (meanAt t' 1 0 0) = Gpu.rgb (meanAt textures2x2 0 0 0))
  /\ (Cpu.pixels (luminanceControls 1 0.05) redPixel ([0%R], [100%R], [0; 0; 0; 0])).1.2
       !! 0%nat = Some 100%R.
Proof.
  pose proof (C4_foreground_pixels_do_not_adapt
                (fun _ _ _ _ _ _ _ => Gpu.Vec4 0 0 0 0) grey
                (luminanceControls 1 0.05) engine1x1 textures2x2 0 0
                redPixel [0%R] [100%R] [0; 0; 0; 0] 0) as H.
  assert (Gpu.isInitialized engine1x1 = true) as Hi by reflexivity.
  assert (Gpu.textures engine1x1 = Some textures2x2) as Ht by reflexivity.
  assert (inb (Gpu.width engine1x1) (Gpu.height engine1x1) 0 0) as Hin
    by (split; simpl; lia).
  assert (0 < Cpu.rounds redPixel)%nat as Hk by (unfold Cpu.rounds; simpl; lia).
  destruct (H Hi Ht Hin Hk) as [(t' & Ht' & Hg) Hc].
  split.
  - exists t'. split; [exact Ht' |]. apply Hg.
    destruct (bgSubPass_at engine1x1 (luminanceControls 1 0.05)
                (Gpu.upload grey textures2x2) 0 1 0 0 Hin) as (_ & _ & Hs).
    change (((Gpu.pingPongIndex engine1x1 + 1) mod 2)%nat) with 1%nat.
    change (Gpu.pingPongIndex engine1x1) with 0%nat.
    rewrite Hs, backgroundSubtraction_mask. exact grey_is_motion.
  - apply Hc. apply red_is_foreground. lra.
Defined.

(** C6, as stated, fails on the CPU: in luminance mode the brightness is the
    plain average of the channels.  Over a model of mean 0 and variance 100
    at threshold 8 (edge 80), the pure red pixel has average 85 and is
    painted as foreground, while its weighted luma, 76.245, stays under the
    edge. *)
Lemma C6_cpu_luminance_is_plain_average :
  (Cpu.pixels (luminanceControls 8 0.05) redPixel ([0%R], [100%R], [0; 0; 0; 0])).2
  = [255; 255; 255; 255]
  /\ (Rabs (luma (Gpu.Vec3 255 0 0) - 0)
      <= 8 * sqrt (Rmax 100 25))%R.
Proof.
  split.
  - unfold Cpu.pixels. change (Cpu.rounds redPixel) with 1%nat.
    cbn [seq foldl]. rewrite pixel_detect. cbn [snd].
    rewrite red_is_foreground by lra. reflexivity.
  - unfold luma. cbn [Gpu.x Gpu.y Gpu.z].
    rewrite Rmax_left by lra. rewrite sqrt_100.
    rewrite Rabs_right by lra. lra.
Qed.

(** C6, amended.  On the GPU the score of a texel is the smoothstep of the
    distance between the frame and the mean: Euclidean over the three
    channels in colour mode, [|0.299 R + 0.587 G + 0.114 B - mean.r|] in
    luminance mode.  On the CPU a pixel is foreground exactly when its
    distance exceeds the edge, the distance being Euclidean in colour mode
    and [|(R + G + B) / 3 - mean|] in luminance mode. *)
Theorem C6_distance_metric
    (controls : MotionControls)
    (e : Gpu.MotionEngine) (t : Gpu.Textures) (idx next : nat) (i j : Z)
    (currentData : list Z) (meanData varianceData : list R) (k : nat) :
  inb (Gpu.width e) (Gpu.height e) i j ->
  let current := currentAt t i j in
  let mean := meanAt t idx i j in
  let edge := gpuEdge controls (varianceAt t idx i j) in
  Gpu.r (maskAt (Gpu.bgSubPass e controls t idx next) next i j)
  = Gpu.smoothstep (0.6 * edge) (1.4 * edge)
      match detectionMode controls with
      | color =>
        sqrt ((Gpu.r current - Gpu.r mean) ^ 2
              + (Gpu.g current - Gpu.g mean) ^ 2
              + (Gpu.b current - Gpu.b mean) ^ 2)
      | luminance =>
        Rabs (0.299 * Gpu.r current + 0.587 * Gpu.g current
              + 0.114 * Gpu.b current - Gpu.r mean)
      end%R
  /\ ((Cpu.detect controls currentData meanData varianceData k).1.1 = true
      <-> (match detectionMode controls with
           | color =>
             sqrt ((redAt currentData k - Cpu.cell meanData (k * 3)) ^ 2
                   + (greenAt currentData k - Cpu.cell meanData (k * 3 + 1)) ^ 2
                   + (blueAt currentData k - Cpu.cell meanData (k * 3 + 2)) ^ 2)
           | luminance =>
             Rabs ((redAt currentData k + greenAt currentData k
                    + blueAt currentData k) / 3 - Cpu.cell meanData k)
           end > cpuEdge controls varianceData k)%R).
Proof.
  intros Hin current mean edge. split.
  - destruct (bgSubPass_at e controls t idx next i j Hin) as (_ & _ & Hs).
    rewrite Hs, backgroundSubtraction_mask. reflexivity.
  - rewrite detect_classification, gtb_true. reflexivity.
Qed.

Lemma C6_distance_metric_witness :
  Gpu.r (maskAt (Gpu.bgSubPass engine1x1 (luminanceControls 8 0.05)
                   (Gpu.upload grey textures2x2) 0 1) 1 0 0)
  = Gpu.smoothstep
      (0.6 * gpuEdge (luminanceControls 8 0.05) (Gpu.createTex 0 0))
      (1.4 * gpuEdge (luminanceControls 8 0.05) (Gpu.createTex 0 0))
      (Rabs (0.299 * 0.5 + 0.587 * 0.5 + 0.114 * 0.5 - 0))%R.
Proof.
  assert (inb (Gpu.width engine1x1) (Gpu.height engine1x1) 0 0) as Hin
    by (split; simpl; lia).
  exact (proj1 (C6_distance_metric (luminanceControls 8 0.05) engine1x1
                  (Gpu.upload grey textures2x2) 0 1 0 0
                  redPixel [0%R] [100%R] 0 Hin)).
Defined.

(** C7: the adaptive edge is the threshold times the square root of the
    floored variance; the GPU divides the threshold of the controls by 10
    and floors the variance at 0.05, the CPU uses the threshold as it is
    and floors at 25.  On the GPU the score is
    [smoothstep (0.6 edge) (1.4 edge) dist], which for a positive threshold
    is 0 up to [0.6 edge] and 1 from [1.4 edge] on. *)
Theorem C7_adaptive_edge_and_soft_score
    (controls : MotionControls)
    (e : Gpu.MotionEngine) (t : Gpu.Textures) (idx next : nat) (i j : Z)
    (currentData : list Z) (meanData varianceData : list R) (k : nat) :
  inb (Gpu.width e) (Gpu.height e) i j ->
  (0 < detectionThreshold controls)%R ->
  let dist := gpuDist controls (currentAt t i j) (meanAt t idx i j) in
  let edge :=
    (detectionThreshold controls / 10
     * sqrt (Rmax (Gpu.r (varianceAt t idx i j)) 0.05))%R in
  let score :=
    Gpu.r (maskAt (Gpu.bgSubPass e controls t idx next) next i j) in
  score = Gpu.smoothstep (0.6 * edge) (1.4 * edge) dist
  /\ ((dist <= 0.6 * edge)%R -> score = 0%R)
  /\ ((1.4 * edge <= dist)%R -> score = 1%R)
  /\ ((Cpu.detect controls currentData meanData varianceData k).1.1 = true
      <-> (cpuDist controls currentData meanData k
           > detectionThreshold controls
             * sqrt (Rmax (Cpu.cell varianceData k) 25))%R).
Proof.
  intros Hin Hthr dist edge score.
  assert (score = Gpu.smoothstep (0.6 * edge) (1.4 * edge) dist) as Hs.
  { unfold score.
    destruct (bgSubPass_at e controls t idx next i j Hin) as (_ & _ & Hs).
    rewrite Hs, backgroundSubtraction_mask. reflexivity. }
  assert (0 < edge)%R as Hedge.
  { unfold edge. apply Rmult_lt_0_compat; [lra |].
    apply sqrt_lt_R0.
    pose proof (Rmax_r (Gpu.r (varianceAt t idx i j)) 0.05). lra. }
  split; [done |].
  split; [intros Hd; rewrite Hs; apply smoothstep_below; lra |].
  split; [intros Hd; rewrite Hs; apply smoothstep_above; lra |].
  rewrite detect_classification, gtb_true. reflexivity.
Qed.

Lemma C7_adaptive_edge_and_soft_score_witness :
  Gpu.r (maskAt (Gpu.bgSubPass engine1x1 (luminanceControls 1 0.05)
                   (Gpu.upload grey textures2x2) 0 1) 1 0 0) = 1%R.
Proof.
  assert (inb (Gpu.width engine1x1) (Gpu.height engine1x1) 0 0) as Hin
    by (split; simpl; lia).
  assert (0 < detectionThreshold (luminanceControls 1 0.05))%R as Hthr
    by (simpl; lra).
  destruct (C7_adaptive_edge_and_soft_score (luminanceControls 1 0.05)
              engine1x1 (Gpu.upload grey textures2x2) 0 1 0 0
              redPixel [0%R] [100%R] 0 Hin Hthr) as (Hs & _ & _ & _).
  rewrite Hs. exact grey_is_motion.
Defined.

(** C9: [render] on an engine that has not been initialised returns at
    once: the engine, its textures, its ping-pong index and the drawing
    buffer are what they were. *)
Theorem C9_render_before_init
    (outputFragment :
       Z -> bool -> Z * Z -> Gpu.Texture -> Gpu.Texture -> Z -> Z -> Gpu.vec4)
    (frame : Gpu.Texture) (controls : MotionControls) (e : Gpu.MotionEngine) :
  Gpu.isInitialized e = false ->
  Gpu.render outputFragment frame controls e = e.
Proof. intros Hi. unfold Gpu.render. by rewrite Hi. Qed.

Lemma C9_render_before_init_witness :
  Gpu.render (fun _ _ _ _ _ _ _ => Gpu.Vec4 0 0 0 0) grey
    (luminanceControls 1 0.05) (Gpu.new Gpu.createTex)
  = Gpu.new Gpu.createTex.
Proof.
  apply (C9_render_before_init (fun _ _ _ _ _ _ _ => Gpu.Vec4 0 0 0 0) grey
           (luminanceControls 1 0.05) (Gpu.new Gpu.createTex)).
  reflexivity.
Defined.

(** ** Model lifecycle: the claims *)

(** The tick that finds no model: what [draw] returns. *)
Lemma draw_without_model dimensions controls resample video st :
  Cpu.ended video = false -> 2 <= Cpu.readyState video ->
  Cpu.backgroundModelData st = None ->
  let pWidth :=
    Int_part (Cpu.width dimensions * processingResolution controls) in
  let pHeight :=
    Int_part (Cpu.height dimensions * processingResolution controls) in
  let currentData := Cpu.frame video pWidth pHeight (noiseReduction controls) in
  0 < pWidth -> 0 < pHeight ->
  Cpu.draw dimensions controls resample (Some video) st
  = {| Cpu.backgroundModelData :=
         Some (Cpu.seedModel (detectionMode controls) currentData
                 (Z.to_nat (pWidth * pHeight)));
       Cpu.motionCanvas :=
         if bool_decide (effect controls = electricTrails)
         then Cpu.fillRect (Cpu.black (1 - persistence controls))
                (Cpu.motionCanvas st)
         else Cpu.clearRect (Cpu.motionCanvas st);
       Cpu.processingCanvas := currentData |}.
Proof.
  intros He Hr Hm pWidth pHeight currentData Hw Hh.
  unfold Cpu.draw. rewrite He, Hm.
  destruct (Z.ltb_spec (Cpu.readyState video) 2); [lia |]. cbn [orb].
  fold pWidth pHeight.
  destruct (Z.eqb_spec pWidth 0); [lia |].
  destruct (Z.eqb_spec pHeight 0); [lia | done].
Qed.

Lemma Int_part_1x1 : Int_part (1 * 1) = 1.
Proof. symmetry. apply Int_part_spec. lra. Qed.

(** C10: on the CPU, the tick that finds no model only seeds it from the
    current frame.  After that tick the model exists, its variance is 100 at
    every pixel and its mean at every pixel is the value of that pixel in
    the frame (its three channels in colour mode, their average in
    luminance mode); the processing canvas holds the frame as it was read,
    no mask; and the output canvas is the previous one faded (trails style)
    or cleared, with nothing drawn over it. *)
Theorem C10_first_tick_after_reset_only_seeds
    (dimensions : Cpu.Dimensions) (controls : MotionControls)
    (resample : nat -> nat) (video : Cpu.Video) (st : Cpu.State) :
  Cpu.ended video = false -> 2 <= Cpu.readyState video ->
  let pWidth :=
    Int_part (Cpu.width dimensions * processingResolution controls) in
  let pHeight :=
    Int_part (Cpu.height dimensions * processingResolution controls) in
  let currentData := Cpu.frame video pWidth pHeight (noiseReduction controls) in
  let pSize := Z.to_nat (pWidth * pHeight) in
  let after :=
    Cpu.draw dimensions controls resample (Some video) (Cpu.resetModel st) in
  0 < pWidth -> 0 < pHeight ->
  length currentData = (4 * pSize)%nat ->
  (exists model,
     Cpu.backgroundModelData after = Some model
     /\ model = Cpu.seedModel (detectionMode controls) currentData pSize
     /\ Cpu.variance model = replicate pSize 100%R
     /\ length (Cpu.mean model)
        = match detectionMode controls with
          | color => (pSize * 3)%nat
          | luminance => pSize
          end
     /\ forall j, (j < pSize)%nat ->
          match detectionMode controls with
          | color =>
            Cpu.mean model !! (j * 3)%nat = Some (redAt currentData j)
            /\ Cpu.mean model !! (j * 3 + 1)%nat = Some (greenAt currentData j)
            /\ Cpu.mean model !! (j * 3 + 2)%nat = Some (blueAt currentData j)
          | luminance =>
            Cpu.mean model !! j
            = Some ((redAt currentData j + greenAt currentData j
                     + blueAt currentData j) / 3)%R
          end)
  /\ Cpu.processingCanvas after = currentData
  /\ Cpu.motionCanvas after
     = if bool_decide (effect controls = electricTrails)
       then Cpu.fillRect (Cpu.black (1 - persistence controls))
              (Cpu.motionCanvas st)
       else Cpu.clearRect (Cpu.motionCanvas st).
Proof.
  intros He Hr pWidth pHeight currentData pSize after Hw Hh Hlen. unfold after.
  rewrite draw_without_model by done. fold pWidth pHeight currentData pSize.
  split; [| done].
  eexists. split; [reflexivity |]. split; [reflexivity |].
  split; [reflexivity |]. cbn [Cpu.seedModel Cpu.mean].
  split.
  - unfold Cpu.seedMean. rewrite (rounds_sized currentData pSize Hlen).
    destruct (detectionMode controls).
    + by apply (seedMean_color_prefix currentData pSize Hlen pSize).
    + by apply (seedMean_luminance_prefix currentData pSize Hlen pSize).
  - intros j Hj.
    pose proof (seedMean_at currentData pSize Hlen (detectionMode controls) j Hj)
      as Hs.
    by destruct (detectionMode controls).
Qed.

Lemma C10_first_tick_after_reset_only_seeds_witness :
  exists model,
    Cpu.backgroundModelData
      (Cpu.draw unit1x1 (luminanceControls 8 0.05) (fun _ => 0%nat)
         (Some (flatVideo 7)) (Cpu.resetModel freshState)) = Some model
    /\ Cpu.variance model
       = replicate (Z.to_nat (Int_part (1 * 1) * Int_part (1 * 1))) 100%R
    /\ Cpu.mean model !! 0%nat
       = Some ((redAt (Cpu.frame (flatVideo 7) (Int_part (1 * 1))
                         (Int_part (1 * 1)) 0) 0
                + greenAt (Cpu.frame (flatVideo 7) (Int_part (1 * 1))
                             (Int_part (1 * 1)) 0) 0
                + blueAt (Cpu.frame (flatVideo 7) (Int_part (1 * 1))
                            (Int_part (1 * 1)) 0) 0) / 3)%R
    /\ Cpu.motionCanvas
         (Cpu.draw unit1x1 (luminanceControls 8 0.05) (fun _ => 0%nat)
            (Some (flatVideo 7)) (Cpu.resetModel freshState))
       = Cpu.clearRect [white].
Proof.
  assert (Cpu.ended (flatVideo 7) = false) as He by reflexivity.
  assert (2 <= Cpu.readyState (flatVideo 7)) as Hr by (simpl; lia).
  assert (0 < Int_part (Cpu.width unit1x1
                        * processingResolution (luminanceControls 8 0.05)))
    as Hw by (simpl; rewrite Int_part_1x1; lia).
  assert (0 < Int_part (Cpu.height unit1x1
                        * processingResolution (luminanceControls 8 0.05)))
    as Hh by (simpl; rewrite Int_part_1x1; lia).
  destruct (C10_first_tick_after_reset_only_seeds unit1x1
              (luminanceControls 8 0.05) (fun _ => 0%nat) (flatVideo 7)
              freshState He Hr Hw Hh (length_replicate _ _))
    as ((model & Hm & _ & Hv & _ & Hj) & _ & Hc).
  exists model. split; [exact Hm |]. split; [exact Hv |].
  split; [| exact Hc]. apply (Hj 0%nat).
  simpl. rewrite Int_part_1x1. simpl. lia.
Defined.

(** ** Fading and clearing the output *)

Section Fading.
Import Cpu.
Local Open Scope R_scope.

Lemma clamp01_id u : 0 <= u <= 1 -> clamp01 u = u.
Proof.
  intros Hu. unfold clamp01. rewrite Rmin_right by lra. by rewrite Rmax_right by lra.
Qed.

(** Black at alpha [1 - p] over a pixel scales its colour by [p]. *)
Lemma source_over_black p pix :
  0 <= p <= 1 ->
  source_over (black (1 - p)) pix
  = {| red := red pix * p; green := green pix * p; blue := blue pix * p;
       alpha := 1 - p + alpha pix * p |}.
Proof.
  intros Hp. unfold source_over, black. cbn [red green blue alpha].
  rewrite clamp01_id by lra. f_equal; ring.
Qed.

Lemma source_over_transparent pix : source_over transparent pix = pix.
Proof.
  destruct pix. unfold source_over, transparent. cbn [red green blue alpha].
  f_equal; ring.
Qed.

(** A mask pixel whose alpha byte is 0 is transparent on the canvas. *)
Lemma imagePixel_transparent data q :
  byte data (4 * q + 3) = 0%Z -> imagePixel data q = transparent.
Proof.
  intros Ha. unfold imagePixel, transparent. rewrite Ha. f_equal; lra.
Qed.

Lemma drawImage_transparent resample data canvas :
  (forall q, byte data (4 * q + 3) = 0%Z) ->
  drawImage resample data canvas = canvas.
Proof.
  intros Ha. unfold drawImage. apply list_eq. intros d.
  rewrite list_lookup_imap. destruct (canvas !! d) as [pix |]; [| done].
  cbn. by rewrite imagePixel_transparent, source_over_transparent.
Qed.

Lemma fillRect_lookup fillStyle canvas d :
  fillRect fillStyle canvas !! d = source_over fillStyle <$> canvas !! d.
Proof. unfold fillRect. apply list_lookup_fmap. Qed.

Lemma clearRect_lookup canvas d :
  (d < length canvas)%nat -> clearRect canvas !! d = Some transparent.
Proof.
  intros Hd. unfold clearRect. rewrite list_lookup_fmap.
  destruct (lookup_lt_is_Some_2 canvas d Hd) as [pix ->]. done.
Qed.

Variables (dimensions : Dimensions) (controls : MotionControls)
          (resample : nat -> nat).

(** Every tick on a ready video leaves the faded or cleared canvas with at
    most the mask of the tick drawn over it. *)
Lemma draw_canvas video st :
  ended video = false -> (2 <= readyState video)%Z ->
  exists data,
    motionCanvas (draw dimensions controls resample (Some video) st)
    = overlay resample data
        (if bool_decide (effect controls = electricTrails)
         then fillRect (black (1 - persistence controls)) (motionCanvas st)
         else clearRect (motionCanvas st)).
Proof.
  intros He Hr. unfold draw. rewrite He.
  destruct (Z.ltb_spec (readyState video) 2); [lia |]. cbn [orb].
  destruct (_ || _); [by exists None |].
  destruct (backgroundModelData st) as [model |]; [| by exists None].
  destruct (pixels _ _ _) as [[meanData varianceData] motionData].
  eexists (Some _). reflexivity.
Qed.

(** In the trails style, without morphology, a still tick paints only
    transparent pixels. *)
Lemma pixels_still_alpha currentData meanData varianceData n q :
  effect controls = electricTrails ->
  (forall j, (j < rounds currentData)%nat ->
     (detect controls currentData meanData varianceData j).1.1 = false) ->
  byte (pixels controls currentData (meanData, varianceData, replicate n 0%Z)).2
       (4 * q + 3) = 0%Z.
Proof.
  intros Hfx Hstill. unfold byte.
  destruct (decide (q < rounds currentData)%nat) as [Hq | Hq].
  - rewrite (pixels_paint controls currentData meanData varianceData
               (replicate n 0%Z) q 3 Hq ltac:(lia)).
    rewrite (Hstill q Hq). unfold paint, store.
    rewrite Hfx. cbn [bool_decide decide_rel].
    destruct (decide ((4 * q + 3)%nat < n)%nat) as [Hl | Hl].
    + rewrite list_lookup_insert_eq; [done |].
      rewrite !length_insert, length_replicate. lia.
    + rewrite list_insert_ge.
      * rewrite !list_lookup_insert_ne by lia.
        by rewrite (proj1 (lookup_replicate_None n 0%Z (4 * q + 3)) ltac:(lia)).
      * rewrite !length_insert, length_replicate. lia.
  - destruct (pixels_untouched controls currentData q
                (meanData, varianceData, replicate n 0%Z)
                (rounds currentData) ltac:(lia)) as (_ & _ & Hd).
    unfold pixels. rewrite (Hd 3%nat ltac:(lia)). cbn [snd].
    destruct (replicate n 0%Z !! (4 * q + 3)%nat) as [v |] eqn:E; [| done].
    apply lookup_replicate in E as [-> _]. done.
Qed.

Lemma draw_still video st :
  effect controls = electricTrails -> morphology controls = none ->
  still dimensions controls video st ->
  motionCanvas (draw dimensions controls resample (Some video) st)
  = fillRect (black (1 - persistence controls)) (motionCanvas st).
Proof.
  intros Hfx Hmo (He & Hr & Hstill). unfold draw. rewrite He.
  destruct (Z.ltb_spec (readyState video) 2); [lia |]. cbn [orb].
  rewrite Hfx, Hmo. cbn [bool_decide decide_rel].
  destruct (_ || _); [done |].
  destruct (backgroundModelData st) as [model |] eqn:Em; [| done].
  specialize (Hstill model eq_refl). cbn zeta in Hstill.
  pose proof (fun q => pixels_still_alpha _ (mean model) (variance model)
                         (Z.to_nat
                            (4 * Int_part (width dimensions * processingResolution controls)
                             * Int_part (height dimensions * processingResolution controls)))
                         q Hfx Hstill) as Ha.
  destruct (pixels _ _ _) as [[meanData varianceData] motionData].
  cbn [motionCanvas snd] in *. by apply drawImage_transparent.
Qed.

(** After a run of still ticks every pixel of the canvas has its colour
    scaled by the persistence once per tick. *)
Lemma ticks_quiet videos st d pix :
  effect controls = electricTrails -> morphology controls = none ->
  0 <= persistence controls <= 1 ->
  quiet dimensions controls resample videos st ->
  motionCanvas st !! d = Some pix ->
  exists pix',
    motionCanvas (ticks dimensions controls resample videos st) !! d = Some pix'
    /\ red pix' = red pix * persistence controls ^ List.length videos
    /\ green pix' = green pix * persistence controls ^ List.length videos
    /\ blue pix' = blue pix * persistence controls ^ List.length videos.
Proof.
  intros Hfx Hmo Hp. revert st pix.
  induction videos as [| video videos IH]; intros st pix Hq Hd.
  - exists pix. cbn. split; [done |]. repeat split; ring.
  - destruct Hq as [Hs Hq]. unfold ticks. cbn [foldl].
    fold (ticks dimensions controls resample videos
            (draw dimensions controls resample (Some video) st)).
    destruct (IH _ (source_over (black (1 - persistence controls)) pix) Hq)
      as (pix' & Hl & Hr & Hg & Hb).
    { rewrite draw_still by done. rewrite fillRect_lookup, Hd. done. }
    exists pix'. split; [done |].
    rewrite source_over_black in Hr, Hg, Hb by done.
    cbn [red green blue List.length pow] in *.
    rewrite Hr, Hg, Hb. repeat split; ring.
Qed.

End Fading.

(** *** The display pass of the GPU *)

Section Display.
Import Gpu.
Local Open Scope R_scope.

Variable outputFragment :
  Z -> bool -> Z * Z -> Texture -> Texture -> Z -> Z -> vec4.

Lemma saturate_opaque_black : saturate (Vec4 0 0 0 1) = Vec4 0 0 0 1.
Proof.
  unfold saturate, clamp. cbn [r g b a].
  rewrite (Rmax_left 0 0), (Rmin_left 0 1), (Rmax_left 1 0), (Rmin_left 1 1)
    by lra.
  reflexivity.
Qed.

(** Outside the two persistence styles the drawing buffer is cleared to
    opaque black and the quad is drawn over it without blending. *)
Lemma render_display_clear frame controls e t :
  isInitialized e = true -> textures e = Some t ->
  effect controls <> electricTrails -> effect controls <> heatmap ->
  exists t',
    textures (render outputFragment frame controls e) = Some t'
    /\ BLEND (gl (render outputFragment frame controls e)) = false
    /\ drawingBuffer (gl (render outputFragment frame controls e))
       = drawQuad false (width e) (height e)
           (fun i j =>
              saturate
                (outputFragment (effectIndex (effect controls))
                   (invert controls) (width e, height e) (video t')
                   (sel (mask t') ((pingPongIndex e + 1) mod 2)%nat) i j))
           (fun _ _ => Vec4 0 0 0 1).
Proof.
  intros Hi Ht Hn1 Hn2. eexists. split; [by apply render_textures |].
  unfold render. rewrite Hi, Ht. cbn [negb].
  rewrite (bool_decide_eq_false_2 _ Hn1), (bool_decide_eq_false_2 _ Hn2).
  cbn [orb gl BLEND drawingBuffer]. unfold clear.
  rewrite saturate_opaque_black. done.
Qed.

(** In the two persistence styles the clear replaces the previous buffer
    as well, by transparent black of alpha [1 - persistence]: [clear] is not
    subject to blending, only the quad drawn after it is. *)
Lemma render_display_persistence frame controls e t :
  isInitialized e = true -> textures e = Some t ->
  effect controls = electricTrails \/ effect controls = heatmap ->
  exists t',
    textures (render outputFragment frame controls e) = Some t'
    /\ BLEND (gl (render outputFragment frame controls e)) = true
    /\ drawingBuffer (gl (render outputFragment frame controls e))
       = drawQuad true (width e) (height e)
           (fun i j =>
              saturate
                (outputFragment (effectIndex (effect controls))
                   (invert controls) (width e, height e) (video t')
                   (sel (mask t') ((pingPongIndex e + 1) mod 2)%nat) i j))
           (fun _ _ => saturate (Vec4 0 0 0 (1 - persistence controls))).
Proof.
  intros Hi Ht Hfx. eexists. split; [by apply render_textures |].
  unfold render. rewrite Hi, Ht. cbn [negb].
  assert (bool_decide (effect controls = electricTrails)
          || bool_decide (effect controls = heatmap) = true) as ->.
  { destruct Hfx as [-> | ->]; reflexivity. }
  done.
Qed.

End Display.

(** ** Persistence: the claims *)

(** C5: in the two persistence styles the GPU does not fade the previous
    frame, it replaces it.  [render] enables blending and then calls
    [clear] with the colour [(0, 0, 0, 1 - persistence)]; a clear is not
    blended, so the drawing buffer after the tick is the quad blended over
    that uniform colour and holds nothing of what the previous tick left:
    with any other previous contents the result is the same, and wherever
    the quad is transparent the pixel is black at alpha [1 - persistence],
    not the previous colour times the persistence. *)
Theorem C5_gpu_persistence_clear_replaces_previous_frame
    (outputFragment :
       Z -> bool -> Z * Z -> Gpu.Texture -> Gpu.Texture -> Z -> Z -> Gpu.vec4)
    (frame : Gpu.Texture) (controls : MotionControls)
    (e : Gpu.MotionEngine) (t : Gpu.Textures) (canvas : Gpu.Texture) :
  Gpu.isInitialized e = true -> Gpu.textures e = Some t ->
  effect controls = electricTrails \/ effect controls = heatmap ->
  let after := Gpu.render outputFragment frame controls e in
  let cleared := Gpu.saturate (Gpu.Vec4 0 0 0 (1 - persistence controls)) in
  Gpu.drawingBuffer
    (Gpu.gl (Gpu.render outputFragment frame controls (repainted canvas e)))
  = Gpu.drawingBuffer (Gpu.gl after)
  /\ exists t',
       Gpu.textures after = Some t'
       /\ let quad i j :=
            Gpu.saturate
              (outputFragment (Gpu.effectIndex (effect controls))
                 (invert controls) (Gpu.width e, Gpu.height e) (Gpu.video t')
                 (Gpu.sel (Gpu.mask t') ((Gpu.pingPongIndex e + 1) mod 2)%nat)
                 i j) in
          Gpu.drawingBuffer (Gpu.gl after)
          = Gpu.drawQuad true (Gpu.width e) (Gpu.height e) quad
              (fun _ _ => cleared)
          /\ forall i j,
               Gpu.a (quad i j) = 0%R \/ ~ inb (Gpu.width e) (Gpu.height e) i j ->
               Gpu.drawingBuffer (Gpu.gl after) i j = cleared.
Proof.
  intros Hi Ht Hfx after cleared. subst after cleared.
  assert (bool_decide (effect controls = electricTrails)
          || bool_decide (effect controls = heatmap) = true) as Hb.
  { destruct Hfx as [-> | ->]; reflexivity. }
  split.
  { unfold Gpu.render, repainted, withContext.
    cbn [Gpu.isInitialized Gpu.textures]. rewrite Hi, Ht. cbn [negb].
    rewrite Hb. reflexivity. }
  destruct (render_display_persistence outputFragment frame controls e t Hi Ht
              Hfx) as (t' & Ht' & _ & Hd).
  exists t'. split; [exact Ht' |]. cbn zeta. split; [exact Hd |].
  intros i j Hq. rewrite Hd. unfold Gpu.drawQuad.
  destruct (Gpu.inside (Gpu.width e) (Gpu.height e) i j) eqn:Hins; [| done].
  destruct Hq as [Ha | Hout].
  - unfold Gpu.blend. rewrite Ha.
    destruct (Gpu.saturate (Gpu.Vec4 0 0 0 (1 - persistence controls)))
      as [cr cg cb ca].
    cbn [Gpu.r Gpu.g Gpu.b Gpu.a]. f_equal; ring.
  - exfalso. apply Hout. by apply inside_inb.
Qed.

Lemma C5_gpu_persistence_clear_replaces_previous_frame_witness :
  Gpu.drawingBuffer
    (Gpu.gl
       (Gpu.render (Display.main (fun _ => Gpu.Vec4 0 0 0 1))
          (fun _ _ => Gpu.Vec4 0 0 0 1)
          (controlsWith none electricTrails color)
          (repainted whiteCanvas engine1x1)))
  = Gpu.drawingBuffer
      (Gpu.gl
         (Gpu.render (Display.main (fun _ => Gpu.Vec4 0 0 0 1))
            (fun _ _ => Gpu.Vec4 0 0 0 1)
            (controlsWith none electricTrails color) engine1x1)).
Proof.
  assert (Gpu.isInitialized engine1x1 = true) as Hi by reflexivity.
  assert (Gpu.textures engine1x1 = Some textures2x2) as Ht by reflexivity.
  assert (effect (controlsWith none electricTrails color) = electricTrails
          \/ effect (controlsWith none electricTrails color) = heatmap) as Hfx
    by (left; reflexivity).
  destruct (C5_gpu_persistence_clear_replaces_previous_frame
              (Display.main (fun _ => Gpu.Vec4 0 0 0 1))
              (fun _ _ => Gpu.Vec4 0 0 0 1)
              (controlsWith none electricTrails color) engine1x1 textures2x2
              whiteCanvas Hi Ht Hfx) as [H _].
  exact H.
Defined.

Example applyMorphology_close_1x1 :
  Cpu.applyMorphology [255; 255; 255; 255] 1 1 close = [0; 0; 0; 255].
Proof. vm_compute. reflexivity. Qed.

(** * Further properties of the code *)

(** ** Morphology: single passes and blank masks *)

Section MorphologyBounds.

Variables width height : Z.

Lemma least_le_centre {A} (le : A -> A -> Prop) v (f : Z -> Z -> A) :
  least le v (window f) -> le v (f 0 0).
Proof.
  intros [_ Hl]. rewrite Forall_forall in Hl.
  apply Hl. apply elem_of_window; lia.
Qed.

Lemma greatest_ge_centre {A} (le : A -> A -> Prop) v (f : Z -> Z -> A) :
  greatest le v (window f) -> le (f 0 0) v.
Proof.
  intros [_ Hl]. rewrite Forall_forall in Hl.
  apply (Hl (f 0 0)). apply elem_of_window; lia.
Qed.

Lemma padded_centre data x y :
  padded width height data x y 0 0 = Cpu.getPixel data x y width height.
Proof. unfold padded. by rewrite !Z.add_0_r. Qed.

Lemma clamped_centre (t : Gpu.Texture) i j :
  inb width height i j -> clamped width height t i j 0 0 = Gpu.r (t i j).
Proof.
  intros Hin. unfold clamped. rewrite !Z.add_0_r. by rewrite texture_inb.
Qed.

End MorphologyBounds.

(** X1: a single erosion never raises and a single dilation never lowers a
    pixel of the image, on the CPU and on the GPU. *)
Theorem X1_erode_below_dilate_above
    (width height : Z) (input output : list Z) (x y : Z)
    (e : Gpu.MotionEngine) (t : Gpu.Textures) (from to : nat) (i j : Z) :
  sized width height output -> bytes input -> inb width height x y ->
  inb (Gpu.width e) (Gpu.height e) i j ->
  Cpu.getPixel (Cpu.erode width height input output) x y width height
    <= Cpu.getPixel input x y width height
    <= Cpu.getPixel (Cpu.dilate width height input output) x y width height
  /\ (Gpu.r (maskAt (Gpu.morphPass e 0 t from to) to i j)
      <= Gpu.r (maskAt t from i j)
      <= Gpu.r (maskAt (Gpu.morphPass e 1 t from to) to i j))%R.
Proof.
  intros Hs Hb Hin Hin'. split.
  - rewrite getPixel_erode, getPixel_dilate by done.
    rewrite (clamp8_id (Cpu.erode_at input width height x y))
      by (by apply erode_at_bytes).
    rewrite (clamp8_id (Cpu.dilate_at input width height x y))
      by (by apply dilate_at_bytes).
    rewrite <- (padded_centre width height input x y). split.
    + apply (least_le_centre Z.le). by apply erode_at_least.
    + apply (greatest_ge_centre Z.le). by apply dilate_at_greatest.
  - unfold maskAt. rewrite !mask_morphPass by done.
    rewrite <- (clamped_centre (Gpu.width e) (Gpu.height e)
                  (Gpu.sel (Gpu.mask t) from) i j Hin').
    split.
    + apply (least_le_centre Rle). apply morphologyFragment_least.
    + apply (greatest_ge_centre Rle). apply morphologyFragment_greatest.
Qed.

Lemma X1_erode_below_dilate_above_witness :
  Cpu.getPixel (Cpu.erode 3 3 full3x3 (replicate 36 0)) 1 1 3 3
    <= Cpu.getPixel full3x3 1 1 3 3
    <= Cpu.getPixel (Cpu.dilate 3 3 full3x3 (replicate 36 0)) 1 1 3 3.
Proof.
  assert (sized 3 3 (replicate 36 0)) as Hs by reflexivity.
  assert (bytes full3x3) as Hb by (apply bytes_replicate_of; lia).
  assert (inb 3 3 1 1) as Hin by (split; lia).
  assert (inb (Gpu.width engine2x2) (Gpu.height engine2x2) 0 0) as Hin'
    by (split; simpl; lia).
  exact (proj1 (X1_erode_below_dilate_above 3 3 full3x3 (replicate 36 0) 1 1
                  engine2x2 textures2x2 1 0 0 0 Hs Hb Hin Hin')).
Defined.

Section BlankMasks.

Variables width height : Z.

Lemma padded_blank data x y v :
  (forall x' y', inb width height x' y' ->
     Cpu.getPixel data x' y' width height = 0) ->
  v ∈ window (padded width height data x y) -> v = 0.
Proof.
  intros Hz Hv. apply window_elem in Hv as (i & j & _ & _ & ->).
  unfold padded.
  destruct (decide (inb width height (x + i) (y + j))) as [Hin | Hout].
  - by apply Hz.
  - by apply getPixel_outside.
Qed.

Lemma erode_blank input output x y :
  sized width height output -> bytes input -> inb width height x y ->
  (forall x' y', inb width height x' y' ->
     Cpu.getPixel input x' y' width height = 0) ->
  Cpu.getPixel (Cpu.erode width height input output) x y width height = 0.
Proof.
  intros Hs Hb Hin Hz. rewrite getPixel_erode by done.
  rewrite clamp8_id by (by apply erode_at_bytes).
  destruct (erode_at_least width height input x y Hb) as [Hm _].
  by apply (padded_blank input x y).
Qed.

Lemma dilate_blank input output x y :
  sized width height output -> bytes input -> inb width height x y ->
  (forall x' y', inb width height x' y' ->
     Cpu.getPixel input x' y' width height = 0) ->
  Cpu.getPixel (Cpu.dilate width height input output) x y width height = 0.
Proof.
  intros Hs Hb Hin Hz. rewrite getPixel_dilate by done.
  rewrite clamp8_id by (by apply dilate_at_bytes).
  destruct (dilate_at_greatest width height input x y Hb) as [Hm _].
  by apply (padded_blank input x y).
Qed.

Lemma applyMorphology_blank data type x y :
  sized width height data -> bytes data -> inb width height x y ->
  (forall x' y', inb width height x' y' ->
     Cpu.getPixel data x' y' width height = 0) ->
  Cpu.getPixel (Cpu.applyMorphology data width height type) x y width height = 0.
Proof.
  intros Hs Hb Hin Hz. unfold Cpu.applyMorphology.
  assert (sized width height (replicate (length data) 0)) as Hs0
    by (red; by rewrite length_replicate).
  destruct type; [by apply Hz | |].
  - apply dilate_blank; [done | | done |].
    + rewrite erode_is_pass. apply bytes_pass, bytes_replicate.
    + intros x' y' Hin'. by apply erode_blank.
  - apply erode_blank; [done | | done |].
    + rewrite dilate_is_pass. apply bytes_pass, bytes_replicate.
    + intros x' y' Hin'. by apply dilate_blank.
Qed.

Lemma clamped_uniform (t : Gpu.Texture) c i0 j0 v :
  inb width height i0 j0 ->
  (forall i j, inb width height i j -> Gpu.r (t i j) = c) ->
  v ∈ window (clamped width height t i0 j0) -> v = c.
Proof.
  intros Hin Hc Hv. apply window_elem in Hv as (i & j & Hi & Hj & ->).
  destruct (clampZ_inb width height i0 j0 i j Hin Hi Hj) as [Hq _].
  unfold clamped, Gpu.texture. by apply Hc.
Qed.

Lemma morphologyFragment_uniform (t : Gpu.Texture) u_type c i0 j0 :
  u_type = 0 \/ u_type = 1 ->
  inb width height i0 j0 ->
  (forall i j, inb width height i j -> Gpu.r (t i j) = c) ->
  Gpu.r (Gpu.morphologyFragment width height u_type t i0 j0) = c.
Proof.
  intros [-> | ->] Hin Hc.
  - destruct (morphologyFragment_least width height t i0 j0) as [Hm _].
    by apply (clamped_uniform t c i0 j0).
  - destruct (morphologyFragment_greatest width height t i0 j0) as [Hm _].
    by apply (clamped_uniform t c i0 j0).
Qed.

End BlankMasks.

(** X2: cleaning up creates nothing out of nothing.  On the CPU a mask
    that is blank on the whole image is blank after [applyMorphology],
    whatever the operation; on the GPU a mask that is uniform over the
    image comes out of the morphology passes of [render] as it went in. *)
Theorem X2_blank_mask_stays_blank
    (width height : Z) (data : list Z) (type : Morphology) (x y : Z)
    (e : Gpu.MotionEngine) (controls : MotionControls) (t : Gpu.Textures)
    (idx : nat) (c : R) (i j : Z) :
  sized width height data -> bytes data -> inb width height x y ->
  (forall x' y', inb width height x' y' ->
     Cpu.getPixel data x' y' width height = 0) ->
  inb (Gpu.width e) (Gpu.height e) i j ->
  (forall i' j', inb (Gpu.width e) (Gpu.height e) i' j' ->
     Gpu.r (maskAt t ((idx + 1) mod 2)%nat i' j') = c) ->
  Cpu.getPixel (Cpu.applyMorphology data width height type) x y width height = 0
  /\ Gpu.r (maskAt (Gpu.morphologyPasses e controls t idx ((idx + 1) mod 2)%nat)
              ((idx + 1) mod 2)%nat i j) = c.
Proof.
  intros Hs Hb Hin Hz Hin' Hc.
  split; [by apply applyMorphology_blank |].
  unfold Gpu.morphologyPasses, maskAt in *.
  destruct (morphology controls); [by apply Hc | |].
  - rewrite mask_morphPass by done.
    apply morphologyFragment_uniform; [by right | done |].
    intros i' j' Hq. rewrite mask_morphPass by done.
    apply morphologyFragment_uniform; [by left | done | done].
  - rewrite mask_morphPass by done.
    apply morphologyFragment_uniform; [by left | done |].
    intros i' j' Hq. rewrite mask_morphPass by done.
    apply morphologyFragment_uniform; [by right | done | done].
Qed.

Lemma X2_blank_mask_stays_blank_witness :
  Cpu.getPixel (Cpu.applyMorphology (replicate 36 0) 3 3 close) 0 0 3 3 = 0.
Proof.
  assert (sized 3 3 (replicate 36 0)) as Hs by reflexivity.
  assert (bytes (replicate 36 0)) as Hb by (apply bytes_replicate_of; lia).
  assert (inb 3 3 0 0) as Hin by (split; lia).
  assert (forall x' y', inb 3 3 x' y' ->
            Cpu.getPixel (replicate 36 0) x' y' 3 3 = 0) as Hz.
  { intros x' y' Hq.
    pose proof (getPixel_bytes 3 3 (replicate 36 0) x' y' Hb) as Hr.
    unfold Cpu.getPixel, Cpu.rd, Cpu.byte in *.
    destruct (_ || _); [reflexivity |]. destruct (_ <? 0); [reflexivity |].
    destruct (replicate 36 0 !! _) as [v |] eqn:E; [| reflexivity].
    apply lookup_replicate in E as [-> _]. reflexivity. }
  assert (inb (Gpu.width engine2x2) (Gpu.height engine2x2) 0 0) as Hin'
    by (split; simpl; lia).
  assert (forall i' j', inb (Gpu.width engine2x2) (Gpu.height engine2x2) i' j' ->
            Gpu.r (maskAt textures2x2 ((0 + 1) mod 2)%nat i' j') = 0%R) as Hc
    by (intros; reflexivity).
  exact (proj1 (X2_blank_mask_stays_blank 3 3 (replicate 36 0) close 0 0
                  engine2x2 (controlsWith close classic color) textures2x2
                  0 0%R 0 0 Hs Hb Hin Hz Hin' Hc)).
Defined.

(** ** The detector of the GPU: ranges and monotonicity *)

Section GpuRanges.
Import Gpu.
Local Open Scope R_scope.

Lemma clamp_unit v : unit (clamp v 0 1).
Proof.
  unfold unit, clamp. split.
  - apply Rmin_glb; [apply Rmax_r | lra].
  - apply Rmin_r.
Qed.

Lemma clamp_mono u v lo hi : u <= v -> clamp u lo hi <= clamp v lo hi.
Proof.
  intros H. unfold clamp. apply Rle_min_compat_r. by apply Rle_max_compat_r.
Qed.

Lemma cubic_unit s : unit s -> unit (s * s * (3 - 2 * s)).
Proof.
  unfold unit. intros [H0 H1]. split.
  - apply Rmult_le_pos; [apply Rmult_le_pos; lra | lra].
  - assert (1 - s * s * (3 - 2 * s) = (1 - s) * (1 - s) * (1 + 2 * s)) as E
      by ring.
    assert (0 <= (1 - s) * (1 - s) * (1 + 2 * s))
      by (apply Rmult_le_pos; [apply Rmult_le_pos; lra | lra]).
    lra.
Qed.

Lemma cubic_mono s s' :
  unit s -> unit s' -> s <= s' -> s * s * (3 - 2 * s) <= s' * s' * (3 - 2 * s').
Proof.
  unfold unit. intros [H0 H1] [H0' H1'] Hle.
  assert (s' * s' * (3 - 2 * s') - s * s * (3 - 2 * s)
          = (s' - s) * (3 * (s' + s) - 2 * (s' * s' + s' * s + s * s))) as E
    by ring.
  assert (0 <= 3 * (s' + s) - 2 * (s' * s' + s' * s + s * s)) by nra.
  assert (0 <= (s' - s) * (3 * (s' + s) - 2 * (s' * s' + s' * s + s * s)))
    by (apply Rmult_le_pos; lra).
  lra.
Qed.

Lemma smoothstep_unit e0 e1 v : unit (smoothstep e0 e1 v).
Proof. unfold smoothstep. apply cubic_unit, clamp_unit. Qed.

Lemma smoothstep_mono e0 e1 u v :
  e0 < e1 -> u <= v -> smoothstep e0 e1 u <= smoothstep e0 e1 v.
Proof.
  intros He Hle. unfold smoothstep.
  apply cubic_mono; [apply clamp_unit | apply clamp_unit |].
  apply clamp_mono. unfold Rdiv.
  apply Rmult_le_compat_r; [| lra].
  left. apply Rinv_0_lt_compat. lra.
Qed.

(** A wider edge lowers the score of a given distance. *)
Lemma smoothstep_edge_antimono e e' d :
  0 < e -> e <= e' -> 0 <= d ->
  smoothstep (0.6 * e') (1.4 * e') d <= smoothstep (0.6 * e) (1.4 * e) d.
Proof.
  intros He Hle Hd. unfold smoothstep.
  apply cubic_mono; [apply clamp_unit | apply clamp_unit |].
  apply clamp_mono.
  replace (1.4 * e' - 0.6 * e') with (0.8 * e') by lra.
  replace (1.4 * e - 0.6 * e) with (0.8 * e) by lra.
  assert (/ (0.8 * e') <= / (0.8 * e)) as Hk
    by (apply Rinv_le_contravar; lra).
  assert (/ (0.8 * e') * (0.8 * e') = 1) as Hu' by (apply Rinv_l; lra).
  assert (/ (0.8 * e) * (0.8 * e) = 1) as Hu by (apply Rinv_l; lra).
  assert (0 <= d * (/ (0.8 * e) - / (0.8 * e'))) as Hp
    by (apply Rmult_le_pos; lra).
  unfold Rdiv. nra.
Qed.

Lemma gpuEdge_pos controls variance :
  0 < detectionThreshold controls -> 0 < gpuEdge controls variance.
Proof.
  intros Hthr. unfold gpuEdge. apply Rmult_lt_0_compat; [lra |].
  apply sqrt_lt_R0. pose proof (Rmax_r (r variance) 0.05). lra.
Qed.

Lemma gpuDist_nonneg controls current mean : 0 <= gpuDist controls current mean.
Proof.
  unfold gpuDist, euclid.
  destruct (detectionMode controls); [apply sqrt_pos | apply Rabs_pos].
Qed.

Lemma gpuScore_unit controls current mean variance :
  unit (gpuScore controls current mean variance).
Proof. apply smoothstep_unit. Qed.

Lemma mix_unit u v k : unit u -> unit v -> unit k -> unit (mix u v k).
Proof. unfold unit, mix. intros [? ?] [? ?] [? ?]. split; nra. Qed.

Lemma square_unit d : -1 <= d <= 1 -> unit (d * d).
Proof. unfold unit. intros [? ?]. split; nra. Qed.

Lemma luma_unit c : unit (x c) -> unit (y c) -> unit (z c) -> unit (luma c).
Proof. unfold unit, luma. intros [? ?] [? ?] [? ?]. split; lra. Qed.

(** One fragment of the detector keeps the model in the unit range. *)
Lemma backgroundSubtraction_range controls current mean variance :
  unit (adaptationRate controls) ->
  unit (r current) -> unit (g current) -> unit (b current) ->
  unit (r mean) -> unit (g mean) -> unit (b mean) -> unit (r variance) ->
  let out :=
    backgroundSubtraction (adaptationRate controls)
      (detectionThreshold controls / 10)
      (bool_decide (detectionMode controls = color)) 0.05
      current mean variance in
  unit (r (fst (fst out))) /\ unit (g (fst (fst out)))
  /\ unit (b (fst (fst out))) /\ unit (r (snd (fst out))).
Proof.
  intros Hrate Hcr Hcg Hcb Hmr Hmg Hmb Hv out. unfold out.
  rewrite backgroundSubtraction_mean, backgroundSubtraction_variance.
  cbn zeta.
  pose proof (gpuScore_unit controls current mean variance) as Hs.
  set (soft := gpuScore controls current mean variance) in *.
  assert (unit (adaptationRate controls * (1 - soft))) as Ha
    by (unfold unit in *; split; nra).
  set (alpha := adaptationRate controls * (1 - soft)) in *.
  pose proof (luma_unit (rgb current) Hcr Hcg Hcb) as Hl.
  destruct (detectionMode controls); cbn [r g b].
  - split; [by apply mix_unit |]. split; [by apply mix_unit |].
    split; [by apply mix_unit |].
    apply mix_unit; [done | | done]. apply square_unit.
    unfold dot, splat3, rgb. cbn [x y z]. unfold unit in *. lra.
  - pose proof (mix_unit _ _ _ Hmr Hl Ha) as Hn.
    split; [done |]. split; [done |]. split; [done |].
    apply mix_unit; [done | | done]. apply square_unit.
    unfold unit in *. lra.
Qed.

Lemma morphologyFragment_unit w h u_type (t : Texture) i0 j0 :
  u_type = 0%Z \/ u_type = 1%Z ->
  inb w h i0 j0 ->
  (forall i j, inb w h i j -> unit (r (t i j))) ->
  unit (r (morphologyFragment w h u_type t i0 j0)).
Proof.
  intros Hu Hin Hr.
  assert (forall v, v ∈ window (clamped w h t i0 j0) -> unit v) as Hw.
  { intros v Hv. apply window_elem in Hv as (i & j & Hi & Hj & ->).
    destruct (clampZ_inb w h i0 j0 i j Hin Hi Hj) as [Hq _].
    unfold clamped, texture. by apply Hr. }
  destruct Hu as [-> | ->].
  - destruct (morphologyFragment_least w h t i0 j0) as [Hm _]. by apply Hw.
  - destruct (morphologyFragment_greatest w h t i0 j0) as [Hm _]. by apply Hw.
Qed.

Lemma morphologyPasses_unit e controls t idx next i j :
  inb (width e) (height e) i j ->
  (forall i' j', inb (width e) (height e) i' j' -> unit (r (maskAt t next i' j'))) ->
  unit (r (maskAt (morphologyPasses e controls t idx next) next i j)).
Proof.
  intros Hin Hr. unfold morphologyPasses, maskAt in *.
  destruct (morphology controls); [by apply Hr | |].
  - rewrite mask_morphPass by done.
    apply morphologyFragment_unit; [by right | done |].
    intros i' j' Hq. rewrite mask_morphPass by done.
    apply morphologyFragment_unit; [by left | done | done].
  - rewrite mask_morphPass by done.
    apply morphologyFragment_unit; [by left | done |].
    intros i' j' Hq. rewrite mask_morphPass by done.
    apply morphologyFragment_unit; [by right | done | done].
Qed.

Lemma bgSubPass_mask_score e controls t idx next i j :
  inb (width e) (height e) i j ->
  r (maskAt (bgSubPass e controls t idx next) next i j)
  = gpuScore controls (currentAt t i j) (meanAt t idx i j) (varianceAt t idx i j).
Proof.
  intros Hin.
  destruct (bgSubPass_at e controls t idx next i j Hin) as (_ & _ & Hk).
  by rewrite Hk, backgroundSubtraction_mask.
Qed.

End GpuRanges.

(** X3: for a positive threshold the mask [render] hands to the display
    pass lies in [0, 1] at every texel of the image, with or without
    morphology, whatever the frame and the model are.  (For a threshold
    that is not positive the two edges of the shader's [smoothstep]
    coincide or cross, and GLSL leaves its result undefined.) *)
Theorem X3_gpu_mask_in_unit_range
    (outputFragment :
       Z -> bool -> Z * Z -> Gpu.Texture -> Gpu.Texture -> Z -> Z -> Gpu.vec4)
    (frame : Gpu.Texture) (controls : MotionControls)
    (e : Gpu.MotionEngine) (t : Gpu.Textures) (i j : Z) :
  Gpu.isInitialized e = true -> Gpu.textures e = Some t ->
  inb (Gpu.width e) (Gpu.height e) i j ->
  (0 < detectionThreshold controls)%R ->
  exists t',
    Gpu.textures (Gpu.render outputFragment frame controls e) = Some t'
    /\ (0 <= Gpu.r (maskAt t' ((Gpu.pingPongIndex e + 1) mod 2)%nat i j) <= 1)%R.
Proof.
  intros Hi Ht Hin Hthr. eexists. split; [by apply render_textures |].
  apply morphologyPasses_unit; [done |].
  intros i' j' Hq. rewrite bgSubPass_mask_score by done. apply gpuScore_unit.
Qed.

Lemma X3_gpu_mask_in_unit_range_witness :
  exists t',
    Gpu.textures
      (Gpu.render (fun _ _ _ _ _ _ _ => Gpu.Vec4 0 0 0 0) grey
         (controlsWith open classic color) engine2x2) = Some t'
    /\ (0 <= Gpu.r (maskAt t' 1 1 1) <= 1)%R.
Proof.
  assert (Gpu.isInitialized engine2x2 = true) as Hi by reflexivity.
  assert (Gpu.textures engine2x2 = Some textures2x2) as Ht by reflexivity.
  assert (inb (Gpu.width engine2x2) (Gpu.height engine2x2) 1 1) as Hin
    by (split; simpl; lia).
  assert (0 < detectionThreshold (controlsWith open classic color))%R as Hthr
    by (simpl; lra).
  exact (X3_gpu_mask_in_unit_range (fun _ _ _ _ _ _ _ => Gpu.Vec4 0 0 0 0) grey
           (controlsWith open classic color) engine2x2 textures2x2 1 1
           Hi Ht Hin Hthr).
Defined.

(** X4: the soft score of the GPU detector is monotone: for a positive
    threshold it does not decrease when the distance of the frame from the
    mean grows, and it does not increase when the variance of the model
    grows. *)
Theorem X4_gpu_score_monotone
    (controls : MotionControls) (e : Gpu.MotionEngine)
    (t1 t2 : Gpu.Textures) (idx next : nat) (i j : Z) :
  inb (Gpu.width e) (Gpu.height e) i j ->
  (0 < detectionThreshold controls)%R ->
  (gpuDist controls (currentAt t1 i j) (meanAt t1 idx i j)
   <= gpuDist controls (currentAt t2 i j) (meanAt t2 idx i j))%R ->
  (Gpu.r (varianceAt t2 idx i j) <= Gpu.r (varianceAt t1 idx i j))%R ->
  (Gpu.r (maskAt (Gpu.bgSubPass e controls t1 idx next) next i j)
   <= Gpu.r (maskAt (Gpu.bgSubPass e controls t2 idx next) next i j))%R.
Proof.
  intros Hin Hthr Hd Hv. rewrite !bgSubPass_mask_score by done.
  unfold gpuScore.
  pose proof (gpuEdge_pos controls (varianceAt t1 idx i j) Hthr) as He1.
  pose proof (gpuEdge_pos controls (varianceAt t2 idx i j) Hthr) as He2.
  assert (gpuEdge controls (varianceAt t2 idx i j)
          <= gpuEdge controls (varianceAt t1 idx i j))%R as Hle.
  { unfold gpuEdge. apply Rmult_le_compat_l; [lra |].
    apply sqrt_le_1_alt. by apply Rle_max_compat_r. }
  etransitivity.
  - apply (smoothstep_edge_antimono (gpuEdge controls (varianceAt t2 idx i j)));
      [done | done | apply gpuDist_nonneg].
  - apply smoothstep_mono; [lra | done].
Qed.

Lemma X4_gpu_score_monotone_witness :
  (Gpu.r (maskAt (Gpu.bgSubPass engine2x2 (controlsWith none classic color)
                    textures2x2 0 1) 1 0 0)
   <= Gpu.r (maskAt (Gpu.bgSubPass engine2x2 (controlsWith none classic color)
                       (Gpu.upload grey textures2x2) 0 1) 1 0 0))%R.
Proof.
  assert (inb (Gpu.width engine2x2) (Gpu.height engine2x2) 0 0) as Hin
    by (split; simpl; lia).
  assert (0 < detectionThreshold (controlsWith none classic color))%R as Hthr
    by (simpl; lra).
  apply (X4_gpu_score_monotone (controlsWith none classic color) engine2x2
           textures2x2 (Gpu.upload grey textures2x2) 0 1 0 0 Hin Hthr).
  - unfold gpuDist, euclid, currentAt, meanAt, grey. cbn.
    apply sqrt_le_1_alt. lra.
  - cbn. lra.
Defined.

(** ** The engine across ticks *)

Section GpuTicks.
Import Gpu.
Local Open Scope R_scope.

Variable outputFragment :
  Z -> bool -> Z * Z -> Texture -> Texture -> Z -> Z -> vec4.

Lemma render_shape frame controls e :
  isInitialized (render outputFragment frame controls e) = isInitialized e
  /\ width (render outputFragment frame controls e) = width e
  /\ height (render outputFragment frame controls e) = height e
  /\ programs (render outputFragment frame controls e) = programs e.
Proof.
  unfold render. destruct (isInitialized e) eqn:Hi; [| done].
  destruct (textures e); [| done]. cbn. done.
Qed.

(** The model [render] leaves at a texel of the image, from the frame and
    the model it was called with. *)
Lemma render_model_at frame controls e t i j :
  isInitialized e = true -> textures e = Some t ->
  inb (width e) (height e) i j ->
  let out :=
    backgroundSubtraction (adaptationRate controls)
      (detectionThreshold controls / 10)
      (bool_decide (detectionMode controls = color)) 0.05
      (frame i j) (meanAt t (pingPongIndex e) i j)
      (varianceAt t (pingPongIndex e) i j) in
  exists t',
    textures (render outputFragment frame controls e) = Some t'
    /\ meanAt t' (pingPongIndex (render outputFragment frame controls e)) i j
       = fst (fst out)
    /\ varianceAt t' (pingPongIndex (render outputFragment frame controls e)) i j
       = snd (fst out).
Proof.
  intros Hi Ht Hin out. eexists. split; [by apply render_textures |].
  rewrite (render_pingPongIndex outputFragment frame controls e t Hi Ht).
  destruct (morphologyPasses_model e controls
              (bgSubPass e controls (upload frame t) (pingPongIndex e)
                 ((pingPongIndex e + 1) mod 2)%nat)
              (pingPongIndex e) ((pingPongIndex e + 1) mod 2)%nat) as [Em Ev].
  unfold meanAt at 1, varianceAt at 1. rewrite Em, Ev.
  destruct (bgSubPass_at e controls (upload frame t) (pingPongIndex e)
              ((pingPongIndex e + 1) mod 2)%nat i j Hin) as (Hm & Hv & _).
  split; [exact Hm | exact Hv].
Qed.

Lemma gpuScore_rgb controls current mean mean' variance variance' :
  rgb mean = rgb mean' -> r variance = r variance' ->
  gpuScore controls current mean variance
  = gpuScore controls current mean' variance'.
Proof.
  intros Hm Hv. unfold gpuScore, gpuEdge, gpuDist. rewrite Hm, Hv.
  assert (r mean = r mean') as -> by (by injection Hm).
  reflexivity.
Qed.

(** A fragment of score 1 writes the colour channels it read. *)
Lemma backgroundSubtraction_frozen controls current mean variance :
  gpuScore controls current mean variance = 1 ->
  let out :=
    backgroundSubtraction (adaptationRate controls)
      (detectionThreshold controls / 10)
      (bool_decide (detectionMode controls = color)) 0.05
      current mean variance in
  rgb (fst (fst out)) = rgb mean /\ rgb (snd (fst out)) = rgb variance.
Proof.
  intros Hs out. unfold out.
  rewrite backgroundSubtraction_mean, backgroundSubtraction_variance.
  cbn zeta. rewrite Hs.
  replace (adaptationRate controls * (1 - 1)) with 0 by ring.
  rewrite !mix_0. by destruct (detectionMode controls).
Qed.

Lemma renders_frozen frame controls e t i j n :
  isInitialized e = true -> textures e = Some t ->
  inb (width e) (height e) i j ->
  gpuScore controls (frame i j) (meanAt t (pingPongIndex e) i j)
    (varianceAt t (pingPongIndex e) i j) = 1 ->
  let after := renders outputFragment frame controls n e in
  isInitialized after = true /\ width after = width e
  /\ height after = height e
  /\ exists tn,
       textures after = Some tn
       /\ rgb (meanAt tn (pingPongIndex after) i j)
          = rgb (meanAt t (pingPongIndex e) i j)
       /\ rgb (varianceAt tn (pingPongIndex after) i j)
          = rgb (varianceAt t (pingPongIndex e) i j).
Proof.
  intros Hi Ht Hin Hs. induction n as [| n IH]; cbn zeta.
  - cbn. repeat split; try done. by exists t.
  - cbn zeta in IH. destruct IH as (Hi' & Hw & Hh & tn & Htn & Hm & Hv).
    unfold renders in *.
    change (Nat.iter (S n) (render outputFragment frame controls) e)
      with (render outputFragment frame controls
              (Nat.iter n (render outputFragment frame controls) e)).
    set (en := Nat.iter n (render outputFragment frame controls) e) in *.
    destruct (render_shape frame controls en) as (Ei & Ew & Eh & _).
    split; [by rewrite Ei |]. split; [by rewrite Ew |].
    split; [by rewrite Eh |].
    assert (inb (width en) (height en) i j) as Hin' by (by rewrite Hw, Hh).
    destruct (render_model_at frame controls en tn i j Hi' Htn Hin')
      as (t' & Ht' & Hm' & Hv').
    exists t'. split; [done |]. rewrite Hm', Hv'.
    assert (gpuScore controls (frame i j) (meanAt tn (pingPongIndex en) i j)
              (varianceAt tn (pingPongIndex en) i j) = 1) as Hs'.
    { rewrite <- Hs. apply gpuScore_rgb; [done |]. by injection Hv. }
    destruct (backgroundSubtraction_frozen controls (frame i j)
                (meanAt tn (pingPongIndex en) i j)
                (varianceAt tn (pingPongIndex en) i j) Hs') as [Fm Fv].
    cbn zeta in Fm, Fv. by rewrite Fm, Fv.
Qed.

Lemma play_range inputs e t i j :
  isInitialized e = true -> textures e = Some t ->
  inb (width e) (height e) i j ->
  Forall (fun input =>
            unit (adaptationRate input.2) /\ unit (r (input.1 i j))
            /\ unit (g (input.1 i j)) /\ unit (b (input.1 i j))) inputs ->
  modelInRange t (pingPongIndex e) i j ->
  let after := play outputFragment inputs e in
  isInitialized after = true /\ width after = width e
  /\ height after = height e
  /\ exists tn,
       textures after = Some tn
       /\ modelInRange tn (pingPongIndex after) i j.
Proof.
  intros Hi Ht Hin Hall Hr.
  induction inputs as [| [frame controls] inputs IH] using rev_ind; cbn zeta.
  - cbn. repeat split; try done. by exists t.
  - apply Forall_app in Hall as [Hall Hlast].
    rewrite Forall_singleton in Hlast. cbn [fst snd] in Hlast.
    destruct Hlast as (Hrate & Hcr & Hcg & Hcb).
    destruct (IH Hall) as (Hi' & Hw & Hh & tn & Htn & Hn). clear IH.
    unfold play in *. rewrite foldl_snoc. cbn [fst snd].
    set (en := foldl (fun e input => render outputFragment input.1 input.2 e)
                 e inputs) in *.
    destruct (render_shape frame controls en) as (Ei & Ew & Eh & _).
    split; [by rewrite Ei |]. split; [by rewrite Ew |].
    split; [by rewrite Eh |].
    assert (inb (width en) (height en) i j) as Hin' by (by rewrite Hw, Hh).
    destruct (render_model_at frame controls en tn i j Hi' Htn Hin')
      as (t' & Ht' & Hm' & Hv').
    exists t'. split; [done |].
    destruct Hn as (Hmr & Hmg & Hmb & Hvr).
    unfold modelInRange. rewrite Hm', Hv'.
    by apply backgroundSubtraction_range.
Qed.

End GpuTicks.

(** X5: on the GPU the model stays in pixel range.  From a model whose
    mean channels and variance lie in [0, 1] at a texel (in particular
    the zero model of [init]), any sequence of ticks whose threshold is
    positive, whose adaptation rate is in [0, 1] and whose frame is in
    [0, 1] at that texel leaves the mean channels and the variance of that
    texel in [0, 1]. *)
Theorem X5_gpu_model_stays_in_range
    (outputFragment :
       Z -> bool -> Z * Z -> Gpu.Texture -> Gpu.Texture -> Z -> Z -> Gpu.vec4)
    (inputs : list (Gpu.Texture * MotionControls))
    (e : Gpu.MotionEngine) (t : Gpu.Textures) (i j : Z) :
  Gpu.isInitialized e = true -> Gpu.textures e = Some t ->
  inb (Gpu.width e) (Gpu.height e) i j ->
  Forall (fun input =>
            (0 < detectionThreshold input.2)%R
            /\ unit (adaptationRate input.2) /\ unit (Gpu.r (input.1 i j))
            /\ unit (Gpu.g (input.1 i j)) /\ unit (Gpu.b (input.1 i j)))
         inputs ->
  modelInRange t (Gpu.pingPongIndex e) i j ->
  exists tn,
    Gpu.textures (play outputFragment inputs e) = Some tn
    /\ modelInRange tn (Gpu.pingPongIndex (play outputFragment inputs e)) i j.
Proof.
  intros Hi Ht Hin Hpos Hr.
  assert (Forall (fun input =>
                    unit (adaptationRate input.2) /\ unit (Gpu.r (input.1 i j))
                    /\ unit (Gpu.g (input.1 i j)) /\ unit (Gpu.b (input.1 i j)))
                 inputs) as Hall.
  { eapply Forall_impl; [exact Hpos |]. by intros input [_ H]. }
  by destruct (play_range outputFragment inputs e t i j Hi Ht Hin Hall Hr)
    as (_ & _ & _ & H).
Qed.

Lemma X5_gpu_model_stays_in_range_witness :
  exists tn,
    Gpu.textures
      (play (fun _ _ _ _ _ _ _ => Gpu.Vec4 0 0 0 0)
         [(grey, luminanceControls 50 0.5)] engine1x1) = Some tn
    /\ modelInRange tn
         (Gpu.pingPongIndex
            (play (fun _ _ _ _ _ _ _ => Gpu.Vec4 0 0 0 0)
               [(grey, luminanceControls 50 0.5)] engine1x1)) 0 0.
Proof.
  assert (Gpu.isInitialized engine1x1 = true) as Hi by reflexivity.
  assert (Gpu.textures engine1x1 = Some textures2x2) as Ht by reflexivity.
  assert (inb (Gpu.width engine1x1) (Gpu.height engine1x1) 0 0) as Hin
    by (split; simpl; lia).
  apply (X5_gpu_model_stays_in_range (fun _ _ _ _ _ _ _ => Gpu.Vec4 0 0 0 0)
           [(grey, luminanceControls 50 0.5)] engine1x1 textures2x2 0 0
           Hi Ht Hin).
  - apply Forall_singleton. unfold unit, grey. simpl. lra.
  - unfold modelInRange, unit, meanAt, varianceAt. simpl. lra.
Defined.

(** X6: [render] reads the model of index [idx] and writes the one of the
    other index: the mean and variance textures of index [idx] are the same
    textures afterwards, the ping-pong index has moved to the other value,
    and a second call moves it back. *)
Theorem X6_render_ping_pong
    (outputFragment :
       Z -> bool -> Z * Z -> Gpu.Texture -> Gpu.Texture -> Z -> Z -> Gpu.vec4)
    (frame frame' : Gpu.Texture) (controls controls' : MotionControls)
    (e : Gpu.MotionEngine) (t : Gpu.Textures) :
  Gpu.isInitialized e = true -> Gpu.textures e = Some t ->
  (Gpu.pingPongIndex e < 2)%nat ->
  let after := Gpu.render outputFragment frame controls e in
  exists t',
    Gpu.textures after = Some t'
    /\ Gpu.sel (Gpu.mean t') (Gpu.pingPongIndex e)
       = Gpu.sel (Gpu.mean t) (Gpu.pingPongIndex e)
    /\ Gpu.sel (Gpu.variance t') (Gpu.pingPongIndex e)
       = Gpu.sel (Gpu.variance t) (Gpu.pingPongIndex e)
    /\ Gpu.pingPongIndex after = (1 - Gpu.pingPongIndex e)%nat
    /\ Gpu.pingPongIndex (Gpu.render outputFragment frame' controls' after)
       = Gpu.pingPongIndex e.
Proof.
  intros Hi Ht Hidx after. unfold after.
  eexists. split; [by apply render_textures |].
  destruct (morphologyPasses_model e controls
              (Gpu.bgSubPass e controls (Gpu.upload frame t) (Gpu.pingPongIndex e)
                 ((Gpu.pingPongIndex e + 1) mod 2)%nat)
              (Gpu.pingPongIndex e) ((Gpu.pingPongIndex e + 1) mod 2)%nat)
    as [Em Ev].
  rewrite Em, Ev. unfold Gpu.bgSubPass. cbn [Gpu.mean Gpu.variance Gpu.upload].
  rewrite !sel_upd_next by done.
  split; [done |]. split; [done |].
  destruct (render_shape outputFragment frame controls e) as (Ei & _).
  destruct (Gpu.textures (Gpu.render outputFragment frame controls e))
    as [t' |] eqn:Ht'.
  2: { rewrite (render_textures outputFragment frame controls e t Hi Ht) in Ht'.
       discriminate Ht'. }
  rewrite (render_pingPongIndex outputFragment frame' controls' _ t')
    by (rewrite ?Ei; done).
  rewrite (render_pingPongIndex outputFragment frame controls e t Hi Ht).
  destruct (Gpu.pingPongIndex e) as [| [| k]]; [done | done | lia].
Qed.

Lemma X6_render_ping_pong_witness :
  Gpu.pingPongIndex
    (Gpu.render (fun _ _ _ _ _ _ _ => Gpu.Vec4 0 0 0 0) grey
       (luminanceControls 50 0.5)
       (Gpu.render (fun _ _ _ _ _ _ _ => Gpu.Vec4 0 0 0 0) grey
          (luminanceControls 50 0.5) engine1x1))
  = Gpu.pingPongIndex engine1x1.
Proof.
  assert (Gpu.isInitialized engine1x1 = true) as Hi by reflexivity.
  assert (Gpu.textures engine1x1 = Some textures2x2) as Ht by reflexivity.
  assert (Gpu.pingPongIndex engine1x1 < 2)%nat as Hidx by (simpl; lia).
  destruct (X6_render_ping_pong (fun _ _ _ _ _ _ _ => Gpu.Vec4 0 0 0 0)
              grey grey (luminanceControls 50 0.5) (luminanceControls 50 0.5)
              engine1x1 textures2x2 Hi Ht Hidx) as (t' & _ & _ & _ & _ & H).
  exact H.
Defined.

(** X7: a texel the GPU detector scores as full motion never enters the
    model while the scene stands still: if the score of a texel is 1 for
    the frame and the model of a tick, then after any number of further
    ticks on the same frame with the same controls the mean and variance of
    that texel are what they were and its score is still 1. *)
Theorem X7_gpu_full_motion_texel_never_adapts
    (outputFragment :
       Z -> bool -> Z * Z -> Gpu.Texture -> Gpu.Texture -> Z -> Z -> Gpu.vec4)
    (frame : Gpu.Texture) (controls : MotionControls)
    (e : Gpu.MotionEngine) (t : Gpu.Textures) (i j : Z) (n : nat) :
  Gpu.isInitialized e = true -> Gpu.textures e = Some t ->
  inb (Gpu.width e) (Gpu.height e) i j ->
  gpuScore controls (frame i j) (meanAt t (Gpu.pingPongIndex e) i j)
    (varianceAt t (Gpu.pingPongIndex e) i j) = 1%R ->
  let after := renders outputFragment frame controls n e in
  exists tn,
    Gpu.textures after = Some tn
    /\ Gpu.rgb (meanAt tn (Gpu.pingPongIndex after) i j)
       = Gpu.rgb (meanAt t (Gpu.pingPongIndex e) i j)
    /\ Gpu.rgb (varianceAt tn (Gpu.pingPongIndex after) i j)
       = Gpu.rgb (varianceAt t (Gpu.pingPongIndex e) i j)
    /\ gpuScore controls (frame i j) (meanAt tn (Gpu.pingPongIndex after) i j)
         (varianceAt tn (Gpu.pingPongIndex after) i j) = 1%R.
Proof.
  intros Hi Ht Hin Hs after.
  destruct (renders_frozen outputFragment frame controls e t i j n Hi Ht Hin Hs)
    as (_ & _ & _ & tn & Htn & Hm & Hv).
  exists tn. split; [done |]. split; [done |]. split; [done |].
  rewrite <- Hs. apply gpuScore_rgb; [done |]. by injection Hv.
Qed.

Lemma X7_gpu_full_motion_texel_never_adapts_witness :
  exists tn,
    Gpu.textures
      (renders (fun _ _ _ _ _ _ _ => Gpu.Vec4 0 0 0 0) grey
         (luminanceControls 1 0.05) 3 engine1x1) = Some tn
    /\ Gpu.rgb
         (meanAt tn
            (Gpu.pingPongIndex
               (renders (fun _ _ _ _ _ _ _ => Gpu.Vec4 0 0 0 0) grey
                  (luminanceControls 1 0.05) 3 engine1x1)) 0 0)
       = Gpu.Vec3 0 0 0.
Proof.
  assert (Gpu.isInitialized engine1x1 = true) as Hi by reflexivity.
  assert (Gpu.textures engine1x1 = Some textures2x2) as Ht by reflexivity.
  assert (inb (Gpu.width engine1x1) (Gpu.height engine1x1) 0 0) as Hin
    by (split; simpl; lia).
  destruct (X7_gpu_full_motion_texel_never_adapts
              (fun _ _ _ _ _ _ _ => Gpu.Vec4 0 0 0 0) grey
              (luminanceControls 1 0.05) engine1x1 textures2x2 0 0 3
              Hi Ht Hin grey_is_motion) as (tn & Htn & Hm & _).
  exists tn. split; [exact Htn | exact Hm].
Defined.

(** ** The samplers and the display shader *)

Section Samplers.
Import Gpu.
Local Open Scope R_scope.

Lemma Int_part_half n : Int_part (IZR n + 0.5) = n.
Proof. symmetry. apply Int_part_spec. lra. Qed.

Lemma texel_centre w i k :
  (0 < w)%Z -> ((IZR i + 0.5) / IZR w + IZR k * (1 / IZR w)) * IZR w
               = IZR (i + k) + 0.5.
Proof.
  intros Hw. apply IZR_lt in Hw. rewrite plus_IZR. field. lra.
Qed.

Lemma nearest_offset w h (tex : Texture) i0 j0 i j :
  (0 < w)%Z -> (0 < h)%Z ->
  Display.nearest w h tex (Display.morphologyCoord w h i0 j0 i j)
  = texture w h tex (i0 + i) (j0 + j).
Proof.
  intros Hw Hh. unfold Display.nearest, Display.morphologyCoord,
    Display.v_texCoord, texture. cbn [Display.cx Display.cy].
  by rewrite !texel_centre, !Int_part_half.
Qed.

Lemma nearest_centre w h (tex : Texture) i j :
  (0 < w)%Z -> (0 < h)%Z ->
  Display.nearest w h tex (Display.v_texCoord w h i j) = texture w h tex i j.
Proof.
  intros Hw Hh. unfold Display.nearest, Display.v_texCoord, texture.
  cbn [Display.cx Display.cy].
  pose proof (texel_centre w i 0 Hw) as Hx.
  pose proof (texel_centre h j 0 Hh) as Hy.
  rewrite Z.add_0_r, Rmult_0_l, Rplus_0_r in Hx, Hy.
  by rewrite Hx, Hy, !Int_part_half.
Qed.

Lemma clampZ_range w v : (0 < w)%Z -> (0 <= clampZ v 0 (w - 1) < w)%Z.
Proof. unfold clampZ. lia. Qed.

(** Wherever the sampler is asked, it answers from inside the image. *)
Lemma nearest_blank w h (u_mask : Texture) c p :
  (0 < w)%Z -> (0 < h)%Z ->
  (forall i j, inb w h i j -> r (u_mask i j) = c) ->
  r (Display.nearest w h u_mask p) = c.
Proof.
  intros Hw Hh Hc. unfold Display.nearest. apply Hc.
  split; by apply clampZ_range.
Qed.

Lemma edgeGlow_blank w h (u_mask : Texture) tc radius :
  (0 < w)%Z -> (0 < h)%Z ->
  (forall i j, inb w h i j -> r (u_mask i j) = 0) ->
  Display.edgeGlow w h u_mask tc 0 radius = 0.
Proof.
  intros Hw Hh Hc. unfold Display.edgeGlow. cbv zeta.
  rewrite !(nearest_blank w h u_mask 0) by done.
  replace ((0 + 0 + 0 + 0 + 0 + 0 + 0 + 0 + 0) / 8) with 0 by lra.
  rewrite smoothstep_below by lra. ring.
Qed.

Lemma ltb_true u v : u < v -> Display.ltb u v = true.
Proof. intros H. unfold Display.ltb. by destruct (Rlt_dec u v). Qed.

Lemma ltb_false u v : v <= u -> Display.ltb u v = false.
Proof. intros H. unfold Display.ltb. destruct (Rlt_dec u v); [lra | done]. Qed.

Lemma clamp_below v lo hi : lo <= hi -> v <= lo -> clamp v lo hi = lo.
Proof.
  intros H1 H2. unfold clamp. rewrite Rmax_right by done. by rewrite Rmin_left.
Qed.

Lemma clamp_above v lo hi : lo <= hi -> hi <= v -> clamp v lo hi = hi.
Proof.
  intros H1 H2. unfold clamp. rewrite Rmax_left by lra. by rewrite Rmin_right.
Qed.

Lemma mix3_unit c d k :
  unit (x c) -> unit (y c) -> unit (z c) ->
  unit (x d) -> unit (y d) -> unit (z d) -> unit k ->
  unit (x (Display.mix3 c d k)) /\ unit (y (Display.mix3 c d k))
  /\ unit (z (Display.mix3 c d k)).
Proof.
  intros. unfold Display.mix3. cbn [x y z].
  split; [| split]; by apply mix_unit.
Qed.

Lemma heatPalette_unit t :
  unit (x (Display.heatPalette t)) /\ unit (y (Display.heatPalette t))
  /\ unit (z (Display.heatPalette t)).
Proof.
  unfold Display.heatPalette. cbv zeta.
  pose proof (clamp_unit t) as Hu. set (s := clamp t 0 1) in *.
  unfold unit in Hu. unfold Display.ltb.
  repeat (destruct (Rlt_dec s _));
    (apply mix3_unit; cbn [x y z]; unfold unit; lra).
Qed.

End Samplers.

(** X8: the nine reads of the morphology shader land on texel centres.
    With [px = 1 / u_resolution] and a [NEAREST], [CLAMP_TO_EDGE] sampler,
    reading at [v_texCoord + vec2(i, j) * px] fetches the texel [(i0 + i,
    j0 + j)] with its indices clamped into the image, so that the shader
    computes the minimum or maximum over the clamped 3 by 3 window of
    texels. *)
Theorem X8_morphology_shader_reads_texels
    (w h u_type : Z) (u_image : Gpu.Texture) (i0 j0 : Z) :
  0 < w -> 0 < h ->
  morphologyMain w h u_type u_image i0 j0
  = Gpu.morphologyFragment w h u_type u_image i0 j0.
Proof.
  intros Hw Hh. unfold morphologyMain, Gpu.morphologyFragment.
  rewrite (nearest_centre w h u_image i0 j0 Hw Hh).
  unfold Gpu.offsets. cbn [foldl].
  by rewrite !(nearest_offset w h u_image i0 j0) by done.
Qed.

Lemma X8_morphology_shader_reads_texels_witness :
  morphologyMain 1 1 0 grey 0 0 = Gpu.morphologyFragment 1 1 0 grey 0 0.
Proof. apply X8_morphology_shader_reads_texels; lia. Defined.

(** X9: the heat palette stays a colour.  For every argument the three
    channels of [heatPalette] lie in [0, 1]; at and below 0 it is the
    darkest stop and at and above 1 the brightest. *)
Theorem X9_heat_palette_range (t : R) :
  (unit (Gpu.x (Display.heatPalette t)) /\ unit (Gpu.y (Display.heatPalette t))
   /\ unit (Gpu.z (Display.heatPalette t)))
  /\ ((t <= 0)%R -> Display.heatPalette t = Gpu.Vec3 0 0 0.15)
  /\ ((1 <= t)%R -> Display.heatPalette t = Gpu.Vec3 1 1 0.9).
Proof.
  split; [apply heatPalette_unit |]. split; intros Ht.
  - unfold Display.heatPalette. cbv zeta.
    rewrite (clamp_below t 0 1) by lra. rewrite ltb_true by lra.
    unfold Display.mix3, Gpu.mix. cbn [Gpu.x Gpu.y Gpu.z]. f_equal; lra.
  - unfold Display.heatPalette. cbv zeta.
    rewrite (clamp_above t 0 1) by lra. rewrite !ltb_false by lra.
    unfold Display.mix3, Gpu.mix. cbn [Gpu.x Gpu.y Gpu.z]. f_equal; lra.
Qed.

Lemma X9_heat_palette_range_witness :
  Display.heatPalette 2 = Gpu.Vec3 1 1 0.9.
Proof.
  destruct (X9_heat_palette_range 2) as (_ & _ & H). apply H. lra.
Defined.

(** ** The display of a scene that stands still *)

Section StillDisplay.
Import Gpu.
Local Open Scope R_scope.

Variable u_videoAt : Display.vec2 -> vec4.

(** The display shader where the mask is blank and not inverted: nothing
    for the classic, colour burn and trails styles, the dim background of
    the heat map, the plain video for the chromatic style; alpha 0 in all
    of them. *)
Lemma main_blank u_effect w h (u_video u_mask : Texture) i j :
  (0 < w)%Z -> (0 < h)%Z ->
  (forall i j, inb w h i j -> r (u_mask i j) = 0) ->
  Display.main u_videoAt u_effect false (w, h) u_video u_mask i j
  = if (u_effect =? 3)%Z then Vec4 0.02 0.01 0.05 0
    else if (u_effect =? 4)%Z then vec4_of (rgb (u_video i j)) 0
    else Vec4 0 0 0 0.
Proof.
  intros Hw Hh Hc. unfold Display.main. cbv zeta. cbn [fst snd].
  rewrite (nearest_blank w h u_mask 0) by done.
  rewrite !(edgeGlow_blank w h u_mask) by done.
  rewrite (smoothstep_below 0 0.05 0), (smoothstep_below 0.05 0.3 0) by lra.
  unfold Display.scale3, Display.add3, Display.mix3, sub3, splat3, vec4_of,
    rgb, mix.
  cbn [x y z].
  destruct (u_effect =? 0)%Z eqn:E0.
  { apply Z.eqb_eq in E0 as ->. cbn. f_equal; ring. }
  destruct (u_effect =? 1)%Z eqn:E1.
  { apply Z.eqb_eq in E1 as ->. cbn. f_equal; ring. }
  destruct (u_effect =? 2)%Z eqn:E2.
  { apply Z.eqb_eq in E2 as ->. cbn. f_equal; ring. }
  destruct (u_effect =? 3)%Z eqn:E3; [cbn [x y z]; f_equal; ring |].
  destruct (u_effect =? 4)%Z eqn:E4; [cbn [x y z]; f_equal; ring |].
  reflexivity.
Qed.

Lemma morphologyPasses_uniform e controls t idx c i j :
  inb (width e) (height e) i j ->
  (forall i' j', inb (width e) (height e) i' j' ->
     r (maskAt t ((idx + 1) mod 2)%nat i' j') = c) ->
  r (maskAt (morphologyPasses e controls t idx ((idx + 1) mod 2)%nat)
       ((idx + 1) mod 2)%nat i j) = c.
Proof.
  intros Hin Hc. unfold morphologyPasses, maskAt in *.
  destruct (morphology controls); [by apply Hc | |].
  - rewrite mask_morphPass by done.
    apply morphologyFragment_uniform; [by right | done |].
    intros i' j' Hq. rewrite mask_morphPass by done.
    apply morphologyFragment_uniform; [by left | done | done].
  - rewrite mask_morphPass by done.
    apply morphologyFragment_uniform; [by left | done |].
    intros i' j' Hq. rewrite mask_morphPass by done.
    apply morphologyFragment_uniform; [by right | done | done].
Qed.

Lemma morphologyPasses_video e controls t idx next :
  video (morphologyPasses e controls t idx next) = video t.
Proof. unfold morphologyPasses. by destruct (morphology controls). Qed.

(** Where the frame shows what the model holds the mask of the tick is
    blank. *)
Lemma still_mask frame controls e t i j :
  inb (width e) (height e) i j ->
  0 < detectionThreshold controls ->
  (forall i' j', inb (width e) (height e) i' j' ->
     gpuDist controls (frame i' j') (meanAt t (pingPongIndex e) i' j') = 0) ->
  r (maskAt
       (morphologyPasses e controls
          (bgSubPass e controls (upload frame t) (pingPongIndex e)
             ((pingPongIndex e + 1) mod 2)%nat)
          (pingPongIndex e) ((pingPongIndex e + 1) mod 2)%nat)
       ((pingPongIndex e + 1) mod 2)%nat i j) = 0.
Proof.
  intros Hin Hthr Hd. apply morphologyPasses_uniform; [done |].
  intros i' j' Hq. rewrite bgSubPass_mask_score by done.
  unfold gpuScore, currentAt. cbn [upload video].
  change (meanAt (upload frame t) (pingPongIndex e) i' j')
    with (meanAt t (pingPongIndex e) i' j').
  rewrite (Hd i' j' Hq).
  pose proof (gpuEdge_pos controls
                (varianceAt (upload frame t) (pingPongIndex e) i' j') Hthr).
  apply smoothstep_below; lra.
Qed.

Lemma saturate_unit v :
  unit (r v) -> unit (g v) -> unit (b v) -> unit (a v) -> saturate v = v.
Proof.
  destruct v as [vr vg vb va]. unfold unit, saturate, clamp. cbn [r g b a].
  intros. rewrite !Rmax_left by lra. by rewrite !Rmin_left by lra.
Qed.

End StillDisplay.

(** X10: what the GPU variant shows of a scene that stands still.  When at
    every texel the frame is at distance 0 from the model, the threshold is
    positive and the mask is not inverted, the drawing buffer after
    [render] holds, at every pixel of the image: transparent black in the
    classic and colour burn styles; transparent black of alpha
    [1 - persistence] in the trails and heat map styles, so that the dim
    background colour of the heat map never shows; and the video at alpha
    0 in the chromatic style. *)
Theorem X10_gpu_still_scene_display
    (u_videoAt : Display.vec2 -> Gpu.vec4) (frame : Gpu.Texture)
    (controls : MotionControls) (e : Gpu.MotionEngine) (t : Gpu.Textures)
    (i j : Z) :
  Gpu.isInitialized e = true -> Gpu.textures e = Some t ->
  inb (Gpu.width e) (Gpu.height e) i j ->
  (0 < detectionThreshold controls)%R ->
  invert controls = false ->
  (forall i' j', inb (Gpu.width e) (Gpu.height e) i' j' ->
     gpuDist controls (frame i' j') (meanAt t (Gpu.pingPongIndex e) i' j') = 0%R) ->
  Gpu.drawingBuffer
    (Gpu.gl (Gpu.render (Display.main u_videoAt) frame controls e)) i j
  = match effect controls with
    | classic | colorBurn => Gpu.Vec4 0 0 0 0
    | electricTrails | heatmap =>
      Gpu.Vec4 0 0 0 (Gpu.clamp (1 - persistence controls) 0 1)
    | chromatic => Gpu.saturate (Gpu.vec4_of (Gpu.rgb (frame i j)) 0)
    end.
Proof.
  intros Hi Ht Hin Hthr Hinv Hd.
  assert (0 < Gpu.width e /\ 0 < Gpu.height e) as [Hw Hh]
    by (unfold inb in Hin; lia).
  pose proof (render_textures (Display.main u_videoAt) frame controls e t Hi Ht)
    as Hr.
  set (t1 := Gpu.morphologyPasses e controls
               (Gpu.bgSubPass e controls (Gpu.upload frame t)
                  (Gpu.pingPongIndex e) ((Gpu.pingPongIndex e + 1) mod 2)%nat)
               (Gpu.pingPongIndex e) ((Gpu.pingPongIndex e + 1) mod 2)%nat)
    in *.
  assert (forall i' j', inb (Gpu.width e) (Gpu.height e) i' j' ->
            Gpu.r (Gpu.sel (Gpu.mask t1)
                     ((Gpu.pingPongIndex e + 1) mod 2)%nat i' j') = 0%R)
    as Hblank.
  { intros i' j' Hq. by apply (still_mask frame controls e t i' j'). }
  assert (Gpu.video t1 = frame) as Hv.
  { unfold t1. by rewrite morphologyPasses_video. }
  assert (Gpu.inside (Gpu.width e) (Gpu.height e) i j = true) as Hins
    by (by apply inside_inb).
  assert (Gpu.saturate (Gpu.Vec4 0 0 0 0) = Gpu.Vec4 0 0 0 0) as Hs0.
  { apply saturate_unit; cbn; unfold unit; lra. }
  destruct (effect controls) eqn:Hfx.
  - destruct (render_display_clear (Display.main u_videoAt) frame controls e t
                Hi Ht) as (t' & Ht' & _ & ->); [by rewrite Hfx .. |].
    rewrite Hr in Ht'. injection Ht' as <-.
    unfold Gpu.drawQuad. rewrite Hins, Hinv, Hfx.
    rewrite main_blank by done. cbn. exact Hs0.
  - destruct (render_display_clear (Display.main u_videoAt) frame controls e t
                Hi Ht) as (t' & Ht' & _ & ->); [by rewrite Hfx .. |].
    rewrite Hr in Ht'. injection Ht' as <-.
    unfold Gpu.drawQuad. rewrite Hins, Hinv, Hfx.
    rewrite main_blank by done. cbn. exact Hs0.
  - destruct (render_display_persistence (Display.main u_videoAt) frame
                controls e t Hi Ht) as (t' & Ht' & _ & ->); [by left |].
    rewrite Hr in Ht'. injection Ht' as <-.
    unfold Gpu.drawQuad. rewrite Hins, Hinv, Hfx.
    rewrite main_blank by done. cbn [Gpu.effectIndex Z.eqb Pos.eqb].
    rewrite Hs0. unfold Gpu.blend, Gpu.saturate. cbn [Gpu.r Gpu.g Gpu.b Gpu.a].
    rewrite (clamp_below 0 0 1) by lra. f_equal; ring.
  - destruct (render_display_persistence (Display.main u_videoAt) frame
                controls e t Hi Ht) as (t' & Ht' & _ & ->); [by right |].
    rewrite Hr in Ht'. injection Ht' as <-.
    unfold Gpu.drawQuad. rewrite Hins, Hinv, Hfx.
    rewrite main_blank by done. cbn [Gpu.effectIndex Z.eqb Pos.eqb].
    rewrite (saturate_unit (Gpu.Vec4 0.02 0.01 0.05 0))
      by (cbn; unfold unit; lra).
    unfold Gpu.blend, Gpu.saturate. cbn [Gpu.r Gpu.g Gpu.b Gpu.a].
    rewrite (clamp_below 0 0 1) by lra. f_equal; ring.
  - destruct (render_display_clear (Display.main u_videoAt) frame controls e t
                Hi Ht) as (t' & Ht' & _ & ->); [by rewrite Hfx .. |].
    rewrite Hr in Ht'. injection Ht' as <-.
    unfold Gpu.drawQuad. rewrite Hins, Hinv, Hfx.
    rewrite main_blank by done. cbn [Gpu.effectIndex Z.eqb Pos.eqb].
    by rewrite Hv.
Qed.

Lemma X10_gpu_still_scene_display_witness :
  Gpu.drawingBuffer
    (Gpu.gl (Gpu.render (Display.main (fun _ => Gpu.Vec4 0 0 0 0)) Gpu.createTex
               (luminanceControls 1 0.05) engine1x1)) 0 0
  = Gpu.Vec4 0 0 0 0.
Proof.
  assert (Gpu.isInitialized engine1x1 = true) as Hi by reflexivity.
  assert (Gpu.textures engine1x1 = Some textures2x2) as Ht by reflexivity.
  assert (inb (Gpu.width engine1x1) (Gpu.height engine1x1) 0 0) as Hin
    by (split; simpl; lia).
  assert (0 < detectionThreshold (luminanceControls 1 0.05))%R as Hthr
    by (simpl; lra).
  apply (X10_gpu_still_scene_display (fun _ => Gpu.Vec4 0 0 0 0) Gpu.createTex
           (luminanceControls 1 0.05) engine1x1 textures2x2 0 0
           Hi Ht Hin Hthr eq_refl).
  intros i' j' _. unfold gpuDist, luma, meanAt. cbn.
  replace (0.299 * 0 + 0.587 * 0 + 0.114 * 0 - 0)%R with 0%R by lra.
  apply Rabs_R0.
Defined.

(** ** The four channels of a cleaned-up mask *)

Section CpuChannels.
Import Cpu.

Variables width height : Z.

Local Abbreviation inb := (inb width height).
Local Abbreviation sized := (sized width height).
Local Abbreviation row := (row width).
Local Abbreviation pass := (pass width).
Local Abbreviation channel := (channel width).

Lemma channel_setPixel_eq data x y v c :
  inb x y -> sized data -> 0 <= c <= 3 ->
  channel (setPixel data x y width v) x y c = stored v c.
Proof.
  intros Hin Hs Hc. unfold Spec.channel, stored.
  destruct (index_bound width height x y Hin) as [H0 H3]. unfold Spec.sized in Hs.
  unfold setPixel.
  assert (c = 0 \/ c = 1 \/ c = 2 \/ c = 3) as [-> | [-> | [-> | ->]]] by lia;
    cbn [Z.eqb Pos.eqb].
  - rewrite Z.add_0_r. rewrite rd_wr_ne by lia.
    rewrite rd_wr_eq; [done | lia |]. rewrite !length_wr. lia.
  - rewrite !rd_wr_ne by lia.
    rewrite rd_wr_eq; [done | lia |]. rewrite !length_wr. lia.
  - rewrite !rd_wr_ne by lia.
    rewrite rd_wr_eq; [done | lia |]. lia.
  - rewrite rd_wr_eq; [done | lia |]. rewrite !length_wr. lia.
Qed.

Lemma channel_setPixel_ne data x y x' y' v c :
  inb x y -> inb x' y' -> (x, y) <> (x', y') -> 0 <= c <= 3 ->
  channel (setPixel data x' y' width v) x y c = channel data x y c.
Proof.
  intros Hin Hin' Hne Hc. unfold Spec.channel.
  destruct (index_bound width height x y Hin) as [H0 H3].
  destruct (index_bound width height x' y' Hin') as [H0' H3'].
  assert (y * width + x <> y' * width + x') as Hd.
  { intros E. destruct (index_inj width height _ _ _ _ Hin Hin' E). congruence. }
  unfold setPixel. rewrite !rd_wr_ne by lia. done.
Qed.

Lemma channel_row f y output xs x' y' c :
  sized output -> 0 <= y < height -> Forall (fun x => 0 <= x < width) xs ->
  inb x' y' -> 0 <= c <= 3 ->
  channel (row f y output xs) x' y' c
  = if decide (y' = y /\ x' ∈ xs) then stored (f x' y) c
    else channel output x' y' c.
Proof.
  intros Hs Hy Hxs Hin Hc. unfold Spec.row.
  induction xs as [| x xs IH] using rev_ind.
  - simpl. destruct (decide _) as [[_ H] |]; [by apply elem_of_nil in H | done].
  - rewrite foldl_snoc. apply Forall_app in Hxs as [Hxs Hx].
    rewrite Forall_singleton in Hx. specialize (IH Hxs).
    destruct (decide ((x', y') = (x, y))) as [E | Hne].
    + inversion E; subst. rewrite channel_setPixel_eq.
      * rewrite decide_True; [done |]. split; [done |].
        apply elem_of_app. right. by apply list_elem_of_singleton.
      * done.
      * red. fold (row f y output xs). by rewrite length_row.
      * done.
    + rewrite channel_setPixel_ne; [| done | by split | done | done].
      rewrite IH. destruct (decide (y' = y /\ x' ∈ xs)) as [[-> Hm] | Hn].
      * rewrite decide_True; [done |]. split; [done |].
        apply elem_of_app. by left.
      * rewrite decide_False; [done |]. intros [-> Hm].
        apply elem_of_app in Hm as [Hm | Hm]; [by apply Hn |].
        apply list_elem_of_singleton in Hm. congruence.
Qed.

Lemma channel_pass f output ys x' y' c :
  sized output -> Forall (fun y => 0 <= y < height) ys -> inb x' y' ->
  0 <= c <= 3 ->
  channel (pass f output ys) x' y' c
  = if decide (y' ∈ ys) then stored (f x' y') c
    else channel output x' y' c.
Proof.
  intros Hs Hys Hin Hc. unfold Spec.pass.
  induction ys as [| y ys IH] using rev_ind.
  - destruct (decide (y' ∈ [])) as [H |]; [by apply elem_of_nil in H | done].
  - rewrite foldl_snoc. apply Forall_app in Hys as [Hys Hy].
    rewrite Forall_singleton in Hy. specialize (IH Hys).
    fold (pass f output ys).
    rewrite channel_row; [| red; by rewrite length_pass | done | | done | done].
    2: { apply Forall_seqZ. lia. }
    destruct (decide (y' = y /\ x' ∈ seqZ 0 width)) as [[-> Hm] | Hn].
    + rewrite decide_True; [done |]. apply elem_of_app. right.
      by apply list_elem_of_singleton.
    + unfold Spec.pass. rewrite IH.
      destruct (decide (y' ∈ ys)) as [Hm | Hm].
      * rewrite decide_True; [done |]. apply elem_of_app. by left.
      * rewrite decide_False; [done |]. intros Hm'.
        apply elem_of_app in Hm' as [Hm' | Hm']; [done |].
        apply list_elem_of_singleton in Hm'. subst. apply Hn. split; [done |].
        apply elem_of_seqZ. unfold Spec.inb in Hin. lia.
Qed.

Lemma channel_whole_pass f output x y c :
  sized output -> inb x y -> 0 <= c <= 3 ->
  channel (pass f output (seqZ 0 height)) x y c = stored (f x y) c.
Proof.
  intros Hs Hin Hc. rewrite channel_pass; [| done | | done | done].
  - rewrite decide_True; [done |]. apply elem_of_seqZ.
    unfold Spec.inb in Hin. lia.
  - apply Forall_seqZ. lia.
Qed.

Lemma getPixel_whole_pass f output x y :
  sized output -> inb x y ->
  getPixel (pass f output (seqZ 0 height)) x y width height = clamp8 (f x y).
Proof.
  intros Hs Hin. rewrite getPixel_pass; [| done | | done].
  - rewrite decide_True; [done |]. apply elem_of_seqZ.
    unfold Spec.inb in Hin. lia.
  - apply Forall_seqZ. lia.
Qed.

(** The result of [applyMorphology] is the last pass over [data]. *)
Lemma applyMorphology_last_pass data type :
  type <> none ->
  exists f, applyMorphology data width height type
            = pass f data (seqZ 0 height).
Proof.
  intros Hn. destruct type; [done | |]; unfold applyMorphology.
  - eexists. apply dilate_is_pass.
  - eexists. apply erode_is_pass.
Qed.

Lemma applyMorphology_channels data type x y c :
  sized data -> type <> none -> inb x y -> 0 <= c <= 3 ->
  channel (applyMorphology data width height type) x y c
  = if c =? 3 then 255
    else getPixel (applyMorphology data width height type) x y width height.
Proof.
  intros Hs Hn Hin Hc.
  destruct (applyMorphology_last_pass data type Hn) as [f ->].
  rewrite channel_whole_pass, getPixel_whole_pass by done. done.
Qed.

Lemma length_applyMorphology data type :
  length (applyMorphology data width height type) = length data.
Proof.
  destruct type; [done | |]; unfold applyMorphology.
  - by rewrite length_dilate.
  - by rewrite length_erode.
Qed.

End CpuChannels.

(** X11: a cleaned-up mask is grey and opaque.  After [applyMorphology]
    with [open] or [close] every pixel of the buffer holds its mask value
    in all three colour channels and 255 in the alpha channel, and the
    buffer has kept its length: the colour the per-pixel loop painted
    (the colour-burn teal) and the transparent background of the trails
    style do not survive the clean-up. *)
Theorem X11_morphology_output_is_opaque_grey
    (width height : Z) (data : list Z) (type : Morphology) (x y : Z) :
  sized width height data -> type <> none -> inb width height x y ->
  let out := Cpu.applyMorphology data width height type in
  channel width out x y 0 = Cpu.getPixel out x y width height
  /\ channel width out x y 1 = Cpu.getPixel out x y width height
  /\ channel width out x y 2 = Cpu.getPixel out x y width height
  /\ channel width out x y 3 = 255
  /\ length out = length data.
Proof.
  intros Hs Hn Hin out. unfold out.
  rewrite !applyMorphology_channels by (done || lia).
  cbn [Z.eqb Pos.eqb]. by rewrite length_applyMorphology.
Qed.

Lemma X11_morphology_output_is_opaque_grey_witness :
  channel 1 (Cpu.applyMorphology [3; 218; 198; 255] 1 1 open) 0 0 1
  = Cpu.getPixel (Cpu.applyMorphology [3; 218; 198; 255] 1 1 open) 0 0 1 1.
Proof.
  assert (sized 1 1 [3; 218; 198; 255]) as Hs by reflexivity.
  assert (open <> none) as Hn by discriminate.
  assert (inb 1 1 0 0) as Hin by (split; lia).
  destruct (X11_morphology_output_is_opaque_grey 1 1 [3; 218; 198; 255] open
              0 0 Hs Hn Hin) as (_ & H & _).
  exact H.
Defined.

(** ** The CPU variant across ticks *)

Section CpuTicks.
Import Cpu.
Local Open Scope R_scope.

Lemma insert_cell (l : list R) i v : v = cell l i -> <[i := v]> l = l.
Proof.
  intros ->. unfold cell. destruct (l !! i) as [u |] eqn:E.
  - by apply list_insert_id.
  - apply list_insert_ge. by apply lookup_ge_None.
Qed.

Lemma length_detect controls currentData meanData varianceData j :
  length (detect controls currentData meanData varianceData j).1.2
  = length meanData
  /\ length (detect controls currentData meanData varianceData j).2
     = length varianceData.
Proof.
  unfold detect.
  destruct (detectionMode controls); destruct (gtb _ _); cbn;
    by rewrite ?length_insert.
Qed.

Lemma length_paint controls motionData j isForeground :
  length (paint controls motionData j isForeground) = length motionData.
Proof.
  unfold paint, store. destruct isForeground; by rewrite !length_insert.
Qed.

(** The per-pixel loop keeps the three arrays at their lengths. *)
Lemma length_pixels controls currentData s :
  length (pixels controls currentData s).1.1 = length s.1.1
  /\ length (pixels controls currentData s).1.2 = length s.1.2
  /\ length (pixels controls currentData s).2 = length s.2.
Proof.
  unfold pixels. induction (seq 0 (rounds currentData)) as [| j l IH]
    using rev_ind; [done |].
  rewrite foldl_snoc.
  destruct (foldl (pixel controls currentData) s l)
    as [[meanData varianceData] motionData].
  rewrite pixel_detect. cbn [fst snd] in *.
  destruct (length_detect controls currentData meanData varianceData j)
    as [-> ->].
  by rewrite length_paint.
Qed.

Variables (dimensions : Dimensions) (controls : MotionControls)
          (resample : nat -> nat).

Local Abbreviation pWidth := (pWidthOf dimensions controls).
Local Abbreviation pHeight := (pHeightOf dimensions controls).
Local Abbreviation pSize := (pSizeOf dimensions controls).

(** The canvas as [draw] fades or clears it before anything else. *)
Local Abbreviation faded st :=
  (if bool_decide (effect controls = electricTrails)
   then fillRect (black (1 - persistence controls)) (motionCanvas st)
   else clearRect (motionCanvas st)).

Lemma draw_seed video st :
  readable dimensions controls video ->
  backgroundModelData st = None ->
  draw dimensions controls resample (Some video) st
  = {| backgroundModelData :=
         Some (seedModel (detectionMode controls)
                 (frameOf dimensions controls video) pSize);
       motionCanvas := faded st;
       processingCanvas := frameOf dimensions controls video |}.
Proof.
  intros (He & Hr & Hw & Hh & _) Hm. unfold draw. rewrite He, Hm.
  destruct (Z.ltb_spec (readyState video) 2); [lia |]. cbn [orb].
  fold pWidth pHeight.
  destruct (Z.eqb_spec pWidth 0); [lia |].
  destruct (Z.eqb_spec pHeight 0); [lia |]. done.
Qed.

Lemma draw_running video st model :
  readable dimensions controls video ->
  backgroundModelData st = Some model ->
  let after :=
    pixels controls (frameOf dimensions controls video)
      (mean model, variance model,
       replicate (Z.to_nat (4 * pWidth * pHeight)) 0%Z) in
  let motionData :=
    if bool_decide (morphology controls <> none)
    then applyMorphology after.2 pWidth pHeight (morphology controls)
    else after.2 in
  draw dimensions controls resample (Some video) st
  = {| backgroundModelData :=
         Some {| mean := after.1.1; variance := after.1.2 |};
       motionCanvas := drawImage resample motionData (faded st);
       processingCanvas := motionData |}.
Proof.
  intros (He & Hr & Hw & Hh & _) Hm. cbn zeta. unfold draw. rewrite He, Hm.
  destruct (Z.ltb_spec (readyState video) 2); [lia |]. cbn [orb].
  fold pWidth pHeight.
  destruct (Z.eqb_spec pWidth 0); [lia |].
  destruct (Z.eqb_spec pHeight 0); [lia |]. cbn [orb].
  unfold frameOf.
  by destruct (pixels _ _ _) as [[meanData varianceData] motionData].
Qed.

Lemma readable_rounds video :
  readable dimensions controls video ->
  rounds (frameOf dimensions controls video) = pSize.
Proof. intros (_ & _ & _ & _ & Hl & _). by apply rounds_sized. Qed.

(** *** A picture that stands still *)

Section Static.

Variable currentData : list Z.
Hypothesis Hthr : 0 <= detectionThreshold controls.

Lemma cpuEdge_nonneg varianceData j : 0 <= cpuEdge controls varianceData j.
Proof. unfold cpuEdge. apply Rmult_le_pos; [done | apply sqrt_pos]. Qed.

Lemma matches_dist meanData j :
  matches (detectionMode controls) currentData meanData j ->
  cpuDist controls currentData meanData j = 0.
Proof.
  unfold matches, cpuDist. destruct (detectionMode controls).
  - intros (-> & -> & ->).
    replace ((redAt currentData j - redAt currentData j) ^ 2
             + (greenAt currentData j - greenAt currentData j) ^ 2
             + (blueAt currentData j - blueAt currentData j) ^ 2) with 0
      by ring.
    apply sqrt_0.
  - intros ->. rewrite Rminus_diag. apply Rabs_R0.
Qed.

(** A pixel that shows what the mean holds is background; its round
    leaves the mean as it is and scales the variance by
    [1 - adaptationRate]. *)
Lemma detect_matches meanData varianceData j :
  matches (detectionMode controls) currentData meanData j ->
  detect controls currentData meanData varianceData j
  = (false, meanData,
     <[j := (1 - adaptationRate controls) * cell varianceData j]> varianceData).
Proof.
  intros Hm.
  assert ((detect controls currentData meanData varianceData j).1.1 = false)
    as Hbg.
  { rewrite detect_classification. apply gtb_false.
    rewrite (matches_dist meanData j Hm). apply cpuEdge_nonneg. }
  pose proof (detect_background_variance controls currentData meanData
                varianceData j Hbg) as Hv.
  assert ((detect controls currentData meanData varianceData j).1.2 = meanData)
    as Hmean.
  { clear Hv. revert Hbg. unfold detect, matches in *.
    fold (redAt currentData j) (greenAt currentData j) (blueAt currentData j).
    destruct (detectionMode controls); destruct (gtb _ _); cbn; try done;
      intros _.
    - destruct Hm as (Hr & Hg & Hb).
      rewrite (insert_cell meanData (j * 3)) by (rewrite Hr; ring).
      rewrite (insert_cell meanData (j * 3 + 1)) by (rewrite Hg; ring).
      by rewrite (insert_cell meanData (j * 3 + 2)) by (rewrite Hb; ring).
    - apply insert_cell. rewrite Hm. unfold brightnessAt, redAt, greenAt, blueAt.
      replace (4 * j + 1)%nat with (4 * j + 1)%nat by done. ring. }
  assert (brightnessAt currentData j - meanBrightnessAt controls meanData j = 0)
    as Hd.
  { unfold meanBrightnessAt, matches, brightnessAt in *.
    destruct (detectionMode controls).
    - destruct Hm as (-> & -> & ->). ring.
    - rewrite Hm. ring. }
  rewrite Hd in Hv.
  destruct (detect controls currentData meanData varianceData j)
    as [[isForeground meanData'] varianceData'].
  cbn [fst snd] in *. subst. do 2 f_equal. ring.
Qed.

Lemma cell_agree (l1 l2 : list R) c : l1 !! c = l2 !! c -> cell l1 c = cell l2 c.
Proof. unfold cell. by intros ->. Qed.

(** One pass of the loop over a settled model. *)
Lemma pixels_settled pSize k model motionData :
  rounds currentData = pSize ->
  settled controls currentData pSize k model ->
  let after :=
    pixels controls currentData (mean model, variance model, motionData) in
  (forall j, (j < pSize)%nat ->
     (detect controls currentData (mean model) (variance model) j).1.1 = false)
  /\ settled controls currentData pSize (S k)
       {| mean := after.1.1; variance := after.1.2 |}.
Proof.
  intros Hrounds [[Hlm Hlv] Hcells] after. subst after.
  split.
  { intros j Hj. destruct (Hcells j Hj) as [Hm _].
    by rewrite (detect_matches _ _ _ Hm). }
  destruct (length_pixels controls currentData
              (mean model, variance model, motionData)) as (Lm & Lv & _).
  cbn [fst snd] in Lm, Lv.
  split; [split; cbn [mean variance]; congruence |].
  intros j Hj. destruct (Hcells j Hj) as [Hm Hv].
  destruct (pixels_at controls currentData j
              (mean model, variance model, motionData)
              ltac:(by rewrite Hrounds)) as (Am & Av & _).
  rewrite pixel_detect, (detect_matches _ _ _ Hm) in Am, Av.
  cbn [fst snd mean variance] in *.
  split.
  - unfold matches in *. destruct (detectionMode controls).
    + rewrite (cell_agree _ _ _ (Am (j * 3)%nat ltac:(cbn; lia))).
      rewrite (cell_agree _ _ _ (Am (j * 3 + 1)%nat ltac:(cbn; lia))).
      by rewrite (cell_agree _ _ _ (Am (j * 3 + 2)%nat ltac:(cbn; lia))).
    + by rewrite (cell_agree _ _ _ (Am j eq_refl)).
  - unfold cell at 1. rewrite Av.
    rewrite list_lookup_insert_eq by lia. cbn. rewrite Hv. ring.
Qed.

End Static.

(** The model the seeding tick leaves is settled on its frame. *)
Lemma seedModel_settled currentData n :
  length currentData = (4 * n)%nat ->
  settled controls currentData n 0
    (seedModel (detectionMode controls) currentData n).
Proof.
  intros Hl. split.
  - split; cbn [seedModel mean variance].
    + unfold seedMean. destruct (detectionMode controls).
      * apply (seedMean_color_prefix currentData n Hl (rounds currentData)).
        by rewrite (rounds_sized currentData n Hl).
      * apply (seedMean_luminance_prefix currentData n Hl (rounds currentData)).
        by rewrite (rounds_sized currentData n Hl).
    + apply length_replicate.
  - intros j Hj. split.
    + pose proof (seedMean_at currentData n Hl (detectionMode controls) j Hj)
        as Hs.
      unfold matches, cell. cbn [seedModel mean].
      destruct (detectionMode controls).
      * destruct Hs as (-> & -> & ->). done.
      * by rewrite Hs.
    + cbn [seedModel variance]. unfold cell.
      rewrite lookup_replicate_2 by done. cbn. ring.
Qed.

Lemma static_run video n :
  readable dimensions controls video ->
  0 <= detectionThreshold controls ->
  forall st k model,
    backgroundModelData st = Some model ->
    settled controls (frameOf dimensions controls video) pSize k model ->
    quiet dimensions controls resample (replicate n video) st
    /\ exists model',
         backgroundModelData
           (ticks dimensions controls resample (replicate n video) st)
         = Some model'
         /\ settled controls (frameOf dimensions controls video) pSize
              (k + n) model'.
Proof.
  intros Hread Hthr. induction n as [| n IH]; intros st k model Hm Hs.
  - split; [done |]. exists model. by rewrite Nat.add_0_r.
  - cbn [replicate quiet]. unfold ticks. cbn [foldl].
    fold (ticks dimensions controls resample (replicate n video)
            (draw dimensions controls resample (Some video) st)).
    pose proof (readable_rounds video Hread) as Hrounds.
    destruct (pixels_settled (frameOf dimensions controls video) Hthr pSize k
                model (replicate (Z.to_nat (4 * pWidth * pHeight)) 0%Z)
                Hrounds Hs) as [Hbg Hs'].
    pose proof (draw_running video st model Hread Hm) as Hd. cbn zeta in Hd.
    destruct (IH (draw dimensions controls resample (Some video) st) (S k) _
                ltac:(by rewrite Hd) Hs') as [Hq (model' & Hm' & Hs'')].
    split.
    + split; [| done]. destruct Hread as (He & Hr & _).
      split; [done |]. split; [done |].
      intros model0 Hm0. rewrite Hm in Hm0. injection Hm0 as <-.
      cbn zeta. intros j Hj. apply Hbg.
      unfold frameOf, pWidthOf, pHeightOf in Hrounds. by rewrite <- Hrounds.
    + exists model'. split; [done |].
      by replace (k + S n)%nat with (S k + n)%nat by lia.
Qed.

(** *** The range of the model *)

Lemma byte_bytes data i : bytes data -> (0 <= byte data i <= 255)%Z.
Proof.
  intros Hb. unfold byte. destruct (data !! i) as [v |] eqn:E; cbn; [| lia].
  unfold bytes in Hb. rewrite Forall_lookup in Hb. eauto.
Qed.

Lemma byte_range data i : bytes data -> 0 <= IZR (byte data i) <= 255.
Proof.
  intros Hb. destruct (byte_bytes data i Hb) as [H0 H1].
  apply IZR_le in H0, H1. done.
Qed.

Lemma cell_range (P : R -> Prop) l i : P 0 -> Forall P l -> P (cell l i).
Proof.
  intros H0 Hl. unfold cell. destruct (l !! i) as [v |] eqn:E; cbn; [| done].
  rewrite Forall_lookup in Hl. eauto.
Qed.

Lemma convex_range lo hi alpha u v :
  0 <= alpha <= 1 -> lo <= u <= hi -> lo <= v <= hi ->
  lo <= (1 - alpha) * u + alpha * v <= hi.
Proof. intros Ha Hu Hv. split; nra. Qed.

Lemma square_range d : -255 <= d <= 255 -> 0 <= d * d <= 255 * 255.
Proof. intros Hd. split; nra. Qed.

Lemma detect_bounded currentData meanData varianceData j :
  unit (adaptationRate controls) -> bytes currentData ->
  bounded {| mean := meanData; variance := varianceData |} ->
  bounded
    {| mean := (detect controls currentData meanData varianceData j).1.2;
       variance := (detect controls currentData meanData varianceData j).2 |}.
Proof.
  intros Ha Hb [Hm Hv]. cbn [mean variance] in Hm, Hv.
  pose proof (byte_range currentData (4 * j) Hb) as Hr.
  pose proof (byte_range currentData (4 * j + 1) Hb) as Hg.
  pose proof (byte_range currentData (4 * j + 2) Hb) as Hbl.
  assert (forall c, 0 <= cell meanData c <= 255) as Hcm.
  { intros c. apply (cell_range (fun v => 0 <= v <= 255)); [lra | done]. }
  assert (0 <= cell varianceData j <= 255 * 255) as Hcv.
  { apply (cell_range (fun v => 0 <= v <= 255 * 255)); [lra | done]. }
  unfold bounded, detect. cbn [mean variance].
  destruct (detectionMode controls); destruct (gtb _ _);
    cbn -[Nat.mul Nat.add]; try done.
  - pose proof (Hcm (j * 3)%nat). pose proof (Hcm (j * 3 + 1)%nat).
    pose proof (Hcm (j * 3 + 2)%nat).
    split.
    + repeat apply Forall_insert; try done; by apply convex_range.
    + apply Forall_insert; [done |].
      apply convex_range; [done | done |]. apply square_range. lra.
  - pose proof (Hcm j). split.
    + apply Forall_insert; [done |]. apply convex_range; [done | done | lra].
    + apply Forall_insert; [done |].
      apply convex_range; [done | done |]. apply square_range. lra.
Qed.

Lemma pixels_bounded currentData model motionData :
  unit (adaptationRate controls) -> bytes currentData -> bounded model ->
  let after :=
    pixels controls currentData (mean model, variance model, motionData) in
  bounded {| mean := after.1.1; variance := after.1.2 |}.
Proof.
  intros Ha Hb Hm. cbn zeta. unfold pixels.
  induction (seq 0 (rounds currentData)) as [| j l IH] using rev_ind.
  { by destruct model. }
  rewrite foldl_snoc.
  destruct (foldl (pixel controls currentData) _ l)
    as [[meanData varianceData] motionData'].
  rewrite pixel_detect. cbn [fst snd] in *. by apply detect_bounded.
Qed.

Lemma seedMean_bounded mode currentData n :
  bytes currentData ->
  Forall (fun v => 0 <= v <= 255) (seedMean mode currentData n).
Proof.
  intros Hb. unfold seedMean. destruct mode.
  - induction (seq 0 (rounds currentData)) as [| j l IH] using rev_ind.
    + cbn. apply Forall_replicate. lra.
    + rewrite foldl_snoc. cbn zeta.
      repeat apply Forall_insert; try done; by apply byte_range.
  - induction (seq 0 (rounds currentData)) as [| j l IH] using rev_ind.
    + cbn. apply Forall_replicate. lra.
    + rewrite foldl_snoc. cbn zeta. apply Forall_insert; [done |].
      pose proof (byte_range currentData (4 * j) Hb).
      pose proof (byte_range currentData (4 * j + 1) Hb).
      pose proof (byte_range currentData (4 * j + 2) Hb). lra.
Qed.

Lemma draw_bounded video st :
  unit (adaptationRate controls) ->
  bytes (frameOf dimensions controls video) ->
  modelBounded st ->
  modelBounded (draw dimensions controls resample (Some video) st).
Proof.
  intros Ha Hb Hst. unfold modelBounded in *. unfold draw.
  destruct (ended video || (readyState video <? 2)%Z); [done |].
  destruct (_ || _); [done |].
  destruct (backgroundModelData st) as [model |] eqn:Em.
  - pose proof (pixels_bounded (frameOf dimensions controls video) model
                  (replicate
                     (Z.to_nat
                        (4 * Int_part (width dimensions * processingResolution controls)
                         * Int_part (height dimensions * processingResolution controls)))
                     0%Z) Ha Hb Hst) as Hp.
    cbn zeta in Hp. unfold frameOf, pWidthOf, pHeightOf in Hp.
    by destruct (pixels _ _ _) as [[meanData varianceData] motionData].
  - cbn [backgroundModelData]. split; cbn [seedModel mean variance].
    + by apply seedMean_bounded.
    + apply Forall_replicate. unfold initialVariance. lra.
Qed.

(** *** The canvas after a clean-up *)

Lemma source_over_opaque s d : alpha s = 1 -> source_over s d = s.
Proof.
  destruct s as [sr sg sb sa]. cbn. intros ->. unfold source_over.
  cbn [red green blue alpha]. f_equal; ring.
Qed.

Lemma length_faded st : length (faded st) = length (motionCanvas st).
Proof.
  destruct (bool_decide _); unfold fillRect, clearRect; apply length_fmap.
Qed.

Lemma byte_channel w h data (q c : nat) :
  (0 < w)%Z -> (Z.of_nat q < w * h)%Z -> (c < 4)%nat ->
  inb w h (Z.of_nat q mod w) (Z.of_nat q / w)
  /\ byte data (4 * q + c)
     = channel w data (Z.of_nat q mod w) (Z.of_nat q / w) (Z.of_nat c).
Proof.
  intros Hw Hq Hc.
  pose proof (Z.div_mod (Z.of_nat q) w ltac:(lia)) as Hdm.
  pose proof (Z.mod_pos_bound (Z.of_nat q) w Hw) as Hmod.
  assert (0 <= Z.of_nat q / w)%Z as Hd0 by (apply Z.div_pos; lia).
  assert (Z.of_nat q / w < h)%Z as Hd1
    by (apply Z.div_lt_upper_bound; lia).
  split; [split; lia |].
  unfold channel, rd.
  replace (Z.of_nat q / w * w + Z.of_nat q mod w)%Z with (Z.of_nat q) by lia.
  destruct (Z.ltb_spec (Z.of_nat q * 4 + Z.of_nat c) 0); [lia |].
  f_equal. lia.
Qed.

End CpuTicks.

(** X12: a picture that stands still settles on the CPU.  After the tick
    that seeds the model from a frame, any number [n] of further ticks on
    the same frame with a threshold that is not negative classify no pixel
    as foreground, leave the mean of every pixel at the value of the frame
    and leave its variance at [100 * (1 - adaptationRate) ^ n]. *)
Theorem X12_cpu_static_scene_settles
    (dimensions : Cpu.Dimensions) (controls : MotionControls)
    (resample : nat -> nat) (video : Cpu.Video) (st : Cpu.State) (n : nat) :
  readable dimensions controls video ->
  (0 <= detectionThreshold controls)%R ->
  Cpu.backgroundModelData st = None ->
  let seeded := Cpu.draw dimensions controls resample (Some video) st in
  quiet dimensions controls resample (replicate n video) seeded
  /\ exists model,
       Cpu.backgroundModelData
         (ticks dimensions controls resample (replicate n video) seeded)
       = Some model
       /\ settled controls (frameOf dimensions controls video)
            (pSizeOf dimensions controls) n model.
Proof.
  intros Hread Hthr Hm seeded. unfold seeded.
  assert (length (frameOf dimensions controls video)
          = (4 * pSizeOf dimensions controls)%nat) as Hl
    by (by destruct Hread as (_ & _ & _ & _ & Hl & _)).
  apply (static_run dimensions controls resample video n Hread Hthr _ 0%nat
           (Cpu.seedModel (detectionMode controls)
              (frameOf dimensions controls video) (pSizeOf dimensions controls))).
  - by rewrite draw_seed.
  - by apply seedModel_settled.
Qed.

Lemma readable_flat threshold rate v :
  0 <= v <= 255 ->
  readable unit1x1 (luminanceControls threshold rate) (flatVideo v).
Proof.
  intros Hv. unfold readable, frameOf, pSizeOf, pWidthOf, pHeightOf.
  cbn [unit1x1 Cpu.width Cpu.height luminanceControls processingResolution
       noiseReduction flatVideo Cpu.ended Cpu.readyState Cpu.frame].
  rewrite Int_part_1x1.
  split; [done |]. split; [lia |]. split; [lia |]. split; [lia |].
  split; [by rewrite length_replicate |].
  by apply bytes_replicate_of.
Qed.

Lemma X12_cpu_static_scene_settles_witness :
  quiet unit1x1 (luminanceControls 8 0.05) (fun _ => 0%nat)
    (replicate 2 (flatVideo 7))
    (Cpu.draw unit1x1 (luminanceControls 8 0.05) (fun _ => 0%nat)
       (Some (flatVideo 7)) freshState).
Proof.
  assert (readable unit1x1 (luminanceControls 8 0.05) (flatVideo 7)) as Hread
    by (apply readable_flat; lia).
  assert (0 <= detectionThreshold (luminanceControls 8 0.05))%R as Hthr
    by (simpl; lra).
  destruct (X12_cpu_static_scene_settles unit1x1 (luminanceControls 8 0.05)
              (fun _ => 0%nat) (flatVideo 7) freshState 2 Hread Hthr eq_refl)
    as [H _].
  exact H.
Defined.

(** X13: the CPU model stays in the range of its data.  With an
    adaptation rate in [0, 1] and frames made of bytes, every tick of [draw]
    (seeding, adapting or leaving the model alone) keeps each cell of the
    mean in [0, 255] and each cell of the variance in [0, 255 * 255]. *)
Theorem X13_cpu_model_stays_in_range
    (dimensions : Cpu.Dimensions) (controls : MotionControls)
    (resample : nat -> nat) (videos : list Cpu.Video) (st : Cpu.State) :
  unit (adaptationRate controls) ->
  Forall (fun video => bytes (frameOf dimensions controls video)) videos ->
  modelBounded st ->
  modelBounded (ticks dimensions controls resample videos st).
Proof.
  intros Ha Hb. revert st. unfold ticks.
  induction Hb as [| video videos Hv _ IH]; intros st Hst; [done |].
  cbn [foldl]. apply IH. by apply draw_bounded.
Qed.

Lemma X13_cpu_model_stays_in_range_witness :
  modelBounded
    (ticks unit1x1 (luminanceControls 8 0.05) (fun _ => 0%nat)
       [flatVideo 7; flatVideo 200] freshState).
Proof.
  apply X13_cpu_model_stays_in_range.
  - unfold unit. simpl. lra.
  - repeat constructor;
      apply (readable_flat 8 0.05); lia.
  - exact I.
Defined.

(** X14: after a clean-up the canvas shows the mask and nothing else.
    On a tick that has a model and runs [applyMorphology], every canvas
    pixel that [drawImage] maps into the mask takes the grey, opaque mask
    pixel as it is: whatever the canvas held before, faded or not, is
    painted over, so the trails style leaves no trail while the morphology
    control is on. *)
Theorem X14_cpu_cleanup_repaints_canvas
    (dimensions : Cpu.Dimensions) (controls : MotionControls)
    (resample : nat -> nat) (video : Cpu.Video) (st : Cpu.State)
    (model : Cpu.BackgroundModel) (d : nat) :
  readable dimensions controls video ->
  Cpu.backgroundModelData st = Some model ->
  morphology controls <> none ->
  (d < length (Cpu.motionCanvas st))%nat ->
  (resample d < pSizeOf dimensions controls)%nat ->
  let after := Cpu.draw dimensions controls resample (Some video) st in
  let pix := Cpu.imagePixel (Cpu.processingCanvas after) (resample d) in
  Cpu.motionCanvas after !! d = Some pix
  /\ Cpu.alpha pix = 1%R
  /\ Cpu.green pix = Cpu.red pix /\ Cpu.blue pix = Cpu.red pix.
Proof.
  intros Hread Hm Hmo Hd Hq after pix. unfold pix, after. clear pix after.
  rewrite (draw_running dimensions controls resample video st model Hread Hm).
  cbn [Cpu.motionCanvas Cpu.processingCanvas].
  rewrite (bool_decide_eq_true_2 _ Hmo).
  destruct Hread as (_ & _ & Hw & Hh & _).
  set (after := Cpu.pixels _ _ _).
  assert (sized (pWidthOf dimensions controls) (pHeightOf dimensions controls)
            after.2) as Hs.
  { unfold sized, after.
    destruct (length_pixels controls (frameOf dimensions controls video)
                (Cpu.mean model, Cpu.variance model,
                 replicate
                   (Z.to_nat (4 * pWidthOf dimensions controls
                              * pHeightOf dimensions controls)) 0))
      as (_ & _ & ->).
    cbn [snd]. apply length_replicate. }
  set (out := Cpu.applyMorphology after.2 _ _ _).
  assert (Z.of_nat (resample d)
          < pWidthOf dimensions controls * pHeightOf dimensions controls) as Hq'
    by (unfold pSizeOf in Hq; lia).
  assert (forall c, (c < 4)%nat ->
            Cpu.byte out (4 * resample d + c)
            = if Z.of_nat c =? 3 then 255
              else Cpu.byte out (4 * resample d)) as Hbytes.
  { intros c Hc.
    destruct (byte_channel (pWidthOf dimensions controls)
                (pHeightOf dimensions controls) out (resample d) c Hw Hq' Hc)
      as [Hin ->].
    destruct (byte_channel (pWidthOf dimensions controls)
                (pHeightOf dimensions controls) out (resample d) 0 Hw Hq'
                ltac:(lia)) as [_ H0].
    rewrite Nat.add_0_r in H0. rewrite H0. unfold out.
    rewrite !(applyMorphology_channels (pWidthOf dimensions controls)
                (pHeightOf dimensions controls) after.2 (morphology controls))
      by (done || lia).
    done. }
  pose proof (Hbytes 1%nat ltac:(lia)) as H1.
  pose proof (Hbytes 2%nat ltac:(lia)) as H2.
  pose proof (Hbytes 3%nat ltac:(lia)) as H3.
  change (Cpu.byte out (4 * resample d + 1) = Cpu.byte out (4 * resample d))
    in H1.
  change (Cpu.byte out (4 * resample d + 2) = Cpu.byte out (4 * resample d))
    in H2.
  change (Cpu.byte out (4 * resample d + 3) = 255) in H3.
  assert (Cpu.alpha (Cpu.imagePixel out (resample d)) = 1%R) as Ha.
  { unfold Cpu.imagePixel. cbn [Cpu.alpha]. rewrite H3. lra. }
  split; [| split; [exact Ha |]].
  - unfold Cpu.drawImage. rewrite list_lookup_imap.
    destruct (lookup_lt_is_Some_2
                (if bool_decide (effect controls = electricTrails)
                 then Cpu.fillRect (Cpu.black (1 - persistence controls))
                        (Cpu.motionCanvas st)
                 else Cpu.clearRect (Cpu.motionCanvas st)) d) as [dst ->].
    { by rewrite (length_faded controls st). }
    cbn. f_equal. by apply source_over_opaque.
  - unfold Cpu.imagePixel. cbn [Cpu.red Cpu.green Cpu.blue].
    by rewrite H1, H2.
Qed.

Lemma X14_cpu_cleanup_repaints_canvas_witness :
  Cpu.alpha
    (Cpu.imagePixel
       (Cpu.processingCanvas
          (Cpu.draw unit1x1 (controlsWith open electricTrails luminance)
             (fun _ => 0%nat) (Some (flatVideo 7))
             (Cpu.draw unit1x1 (controlsWith open electricTrails luminance)
                (fun _ => 0%nat) (Some (flatVideo 7)) freshState))) 0)
  = 1%R.
Proof.
  assert (readable unit1x1 (controlsWith open electricTrails luminance)
            (flatVideo 7)) as Hread.
  { apply (readable_flat 15 0.05). lia. }
  assert (morphology (controlsWith open electricTrails luminance) <> none)
    as Hmo by discriminate.
  destruct (X14_cpu_cleanup_repaints_canvas unit1x1
              (controlsWith open electricTrails luminance) (fun _ => 0%nat)
              (flatVideo 7)
              (Cpu.draw unit1x1 (controlsWith open electricTrails luminance)
                 (fun _ => 0%nat) (Some (flatVideo 7)) freshState)
              (Cpu.seedModel luminance (replicate 4 7) 1) 0%nat Hread)
    as (_ & H & _); [| exact Hmo | | | exact H].
  - rewrite (draw_seed unit1x1 (controlsWith open electricTrails luminance)
               (fun _ => 0%nat) (flatVideo 7) freshState Hread eq_refl).
    cbn [Cpu.backgroundModelData]. unfold frameOf, pSizeOf, pWidthOf, pHeightOf.
    cbn [unit1x1 Cpu.width Cpu.height controlsWith processingResolution
         noiseReduction detectionMode flatVideo Cpu.frame].
    rewrite Int_part_1x1. reflexivity.
  - rewrite (draw_seed unit1x1 (controlsWith open electricTrails luminance)
               (fun _ => 0%nat) (flatVideo 7) freshState Hread eq_refl).
    cbn [Cpu.motionCanvas].
    rewrite (length_faded (controlsWith open electricTrails luminance)
               freshState).
    cbn. lia.
  - unfold pSizeOf, pWidthOf, pHeightOf.
    cbn [unit1x1 Cpu.width Cpu.height controlsWith processingResolution].
    rewrite Int_part_1x1. cbn. lia.
Defined.

(** X15: each tick closes a fixed share of the gap between the model and
    the frame.  With a positive threshold and an adaptation rate in
    [0, 1], the distance of a frame from the mean [render] writes is the
    distance from the mean it read times
    [1 - adaptationRate * (1 - score)]: adaptation moves the mean towards
    the frame, never past it and never away from it. *)
Theorem X15_gpu_adaptation_closes_the_gap
    (outputFragment :
       Z -> bool -> Z * Z -> Gpu.Texture -> Gpu.Texture -> Z -> Z -> Gpu.vec4)
    (frame : Gpu.Texture) (controls : MotionControls)
    (e : Gpu.MotionEngine) (t : Gpu.Textures) (i j : Z) :
  Gpu.isInitialized e = true -> Gpu.textures e = Some t ->
  inb (Gpu.width e) (Gpu.height e) i j ->
  (0 < detectionThreshold controls)%R ->
  unit (adaptationRate controls) ->
  let before := meanAt t (Gpu.pingPongIndex e) i j in
  let score :=
    gpuScore controls (frame i j) before
      (varianceAt t (Gpu.pingPongIndex e) i j) in
  let after := Gpu.render outputFragment frame controls e in
  exists t',
    Gpu.textures after = Some t'
    /\ (gpuDist controls (frame i j) (meanAt t' (Gpu.pingPongIndex after) i j)
        = (1 - adaptationRate controls * (1 - score))
          * gpuDist controls (frame i j) before)%R
    /\ (gpuDist controls (frame i j) (meanAt t' (Gpu.pingPongIndex after) i j)
        <= gpuDist controls (frame i j) before)%R.
Proof.
  intros Hi Ht Hin Hthr Ha before score after.
  destruct (render_model_at outputFragment frame controls e t i j Hi Ht Hin)
    as (t' & Ht' & Hm & _).
  exists t'. split; [exact Ht' |]. unfold after. rewrite Hm.
  rewrite backgroundSubtraction_mean. cbn zeta. fold before. fold score.
  pose proof (gpuScore_unit controls (frame i j) before
                (varianceAt t (Gpu.pingPongIndex e) i j)) as Hs.
  fold score in Hs. unfold unit in Ha, Hs.
  set (w := (adaptationRate controls * (1 - score))%R).
  assert (0 <= w <= 1)%R as Hw by (unfold w; nra).
  pose proof (gpuDist_nonneg controls (frame i j) before) as Hd.
  assert (gpuDist controls (frame i j)
            match detectionMode controls with
            | color =>
              Gpu.Vec4 (Gpu.mix (Gpu.r before) (Gpu.r (frame i j)) w)
                (Gpu.mix (Gpu.g before) (Gpu.g (frame i j)) w)
                (Gpu.mix (Gpu.b before) (Gpu.b (frame i j)) w) 1
            | luminance =>
              Gpu.Vec4 (Gpu.mix (Gpu.r before) (luma (Gpu.rgb (frame i j))) w)
                (Gpu.g before) (Gpu.b before) 1
            end
          = ((1 - w) * gpuDist controls (frame i j) before)%R) as ->.
  { unfold gpuDist, euclid, Gpu.mix.
    destruct (detectionMode controls); cbn [Gpu.rgb Gpu.r Gpu.g Gpu.b Gpu.x Gpu.y Gpu.z].
    - set (S := ((Gpu.r (frame i j) - Gpu.r before) ^ 2
                 + (Gpu.g (frame i j) - Gpu.g before) ^ 2
                 + (Gpu.b (frame i j) - Gpu.b before) ^ 2)%R).
      assert (0 <= S)%R as HS
        by (unfold S; repeat apply Rplus_le_le_0_compat; apply pow2_ge_0).
      transitivity (sqrt ((1 - w) * (1 - w) * S)); [f_equal; unfold S; ring |].
      rewrite sqrt_mult; [| nra | done]. by rewrite sqrt_square by lra.
    - transitivity (Rabs ((1 - w) * (luma (Gpu.rgb (frame i j)) - Gpu.r before)));
        [f_equal; ring |].
      by rewrite Rabs_mult, (Rabs_pos_eq (1 - w)) by lra. }
  split; [done | nra].
Qed.

Lemma X15_gpu_adaptation_closes_the_gap_witness :
  exists t',
    Gpu.textures
      (Gpu.render (fun _ _ _ _ _ _ _ => Gpu.Vec4 0 0 0 0) grey
         (luminanceControls 50 0.5) engine1x1) = Some t'
    /\ Rle
         (gpuDist (luminanceControls 50 0.5) (grey 0 0)
            (meanAt t'
               (Gpu.pingPongIndex
                  (Gpu.render (fun _ _ _ _ _ _ _ => Gpu.Vec4 0 0 0 0) grey
                     (luminanceControls 50 0.5) engine1x1)) 0 0))
         (gpuDist (luminanceControls 50 0.5) (grey 0 0)
            (meanAt textures2x2 (Gpu.pingPongIndex engine1x1) 0 0)).
Proof.
  assert (Gpu.isInitialized engine1x1 = true) as Hi by reflexivity.
  assert (Gpu.textures engine1x1 = Some textures2x2) as Ht by reflexivity.
  assert (inb (Gpu.width engine1x1) (Gpu.height engine1x1) 0 0) as Hin
    by (split; simpl; lia).
  assert (unit (adaptationRate (luminanceControls 50 0.5))) as Ha
    by (unfold unit; simpl; lra).
  assert (0 < detectionThreshold (luminanceControls 50 0.5))%R as Hthr
    by (simpl; lra).
  destruct (X15_gpu_adaptation_closes_the_gap
              (fun _ _ _ _ _ _ _ => Gpu.Vec4 0 0 0 0) grey
              (luminanceControls 50 0.5) engine1x1 textures2x2 0 0
              Hi Ht Hin Hthr Ha) as (t' & Ht' & _ & H).
  exists t'. split; [exact Ht' | exact H].
Defined.

(** ** The sidebar *)

Section Sidebar.
Local Open Scope R_scope.

Lemma handleControlChange_withinSliders controls e :
  withinSliders controls -> fromSidebar controls e ->
  withinSliders (Ui.handleControlChange controls e).
Proof.
  unfold withinSliders, fromSidebar, Ui.handleControlChange, Ui.assign,
    Ui.thresholdMax.
  intros (Ht & Hr & Hp & Hn & Hs) He.
  destruct e as [mode | v | v | v | v | m | f | c | v];
    cbn [detectionMode detectionThreshold adaptationRate processingResolution
         noiseReduction persistence];
    try done.
  destruct mode;
    [rewrite bool_decide_eq_true_2 by done
    | rewrite bool_decide_eq_false_2 by done];
    repeat split; lra.
Qed.

End Sidebar.

(** X16: the controls never leave the sliders.  Starting from controls
    within the ranges of the sidebar (the initial controls are), any run
    of input events keeps them there: in particular a change of the
    detection mode, which changes the range of the threshold slider, also
    moves the threshold into the new range.  Hence the threshold is always
    positive and the adaptation rate and the persistence always lie in
    [0, 1]. *)
Theorem X16_controls_stay_within_sliders
    (events : list Ui.Change) (controls : MotionControls) :
  withinSliders controls -> operable controls events ->
  let controls' := foldl Ui.handleControlChange controls events in
  withinSliders controls'
  /\ (0 < detectionThreshold controls')%R
  /\ unit (adaptationRate controls') /\ unit (persistence controls')
  /\ withinSliders Ui.initialControls.
Proof.
  intros Hw Hop controls'.
  assert (withinSliders controls') as H.
  { unfold controls'. clear controls'. revert controls Hw Hop.
    induction events as [| e events IH]; intros controls Hw Hop; [done |].
    destruct Hop as [He Hop]. cbn [foldl]. apply IH; [| done].
    by apply handleControlChange_withinSliders. }
  split; [done |].
  pose proof H as (Ht & Hr & _ & _ & Hs).
  split; [lra |]. split; [unfold unit; lra |]. split; [unfold unit; lra |].
  unfold withinSliders, Ui.initialControls, Ui.thresholdMax. cbn. lra.
Qed.

Lemma X16_controls_stay_within_sliders_witness :
  withinSliders
    (foldl Ui.handleControlChange Ui.initialControls
       [Ui.detectionThresholdInput 40; Ui.detectionModeChange luminance]).
Proof.
  assert (withinSliders Ui.initialControls) as Hw.
  { unfold withinSliders, Ui.initialControls, Ui.thresholdMax. cbn. lra. }
  destruct (X16_controls_stay_within_sliders
              [Ui.detectionThresholdInput 40; Ui.detectionModeChange luminance]
              Ui.initialControls Hw) as [H _]; [| exact H].
  cbn. unfold Ui.thresholdMax. cbn. split; [lra | done].
Defined.

(** ** The context state and the size of the engine *)

Section GpuContext.
Import Gpu.
Local Open Scope R_scope.

(** A morphology fragment of the image depends on the red channel of the
    texels of the image only. *)
Lemma morphologyFragment_ext w h u_type (t1 t2 : Texture) i0 j0 :
  inb w h i0 j0 ->
  (forall i j, inb w h i j -> r (t1 i j) = r (t2 i j)) ->
  morphologyFragment w h u_type t1 i0 j0 = morphologyFragment w h u_type t2 i0 j0.
Proof.
  intros Hin Heq.
  assert (forall a b, r (texture w h t1 a b) = r (texture w h t2 a b)) as H.
  { intros a b. unfold texture. apply Heq. unfold Spec.inb in Hin.
    split; apply clampZ_range; lia. }
  unfold morphologyFragment, offsets. cbn [foldl]. by rewrite !H.
Qed.

Lemma render_mask_context frame controls e t g i j :
  inb (width e) (height e) i j ->
  maskAt
    (morphologyPasses e controls
       (bgSubPass e controls (upload frame t) (pingPongIndex e)
          ((pingPongIndex e + 1) mod 2)%nat)
       (pingPongIndex e) ((pingPongIndex e + 1) mod 2)%nat)
    ((pingPongIndex e + 1) mod 2)%nat i j
  = maskAt
      (morphologyPasses (withContext g e) controls
         (bgSubPass (withContext g e) controls (upload frame t) (pingPongIndex e)
            ((pingPongIndex e + 1) mod 2)%nat)
         (pingPongIndex e) ((pingPongIndex e + 1) mod 2)%nat)
      ((pingPongIndex e + 1) mod 2)%nat i j.
Proof.
  intros Hin.
  set (idx := pingPongIndex e). set (next := ((idx + 1) mod 2)%nat).
  assert (forall i' j', inb (width e) (height e) i' j' ->
            maskAt (bgSubPass e controls (upload frame t) idx next) next i' j'
            = maskAt (bgSubPass (withContext g e) controls (upload frame t)
                        idx next) next i' j') as Hbg.
  { intros i' j' Hq.
    destruct (bgSubPass_at e controls (upload frame t) idx next i' j' Hq)
      as (_ & _ & ->).
    by destruct (bgSubPass_at (withContext g e) controls (upload frame t)
                   idx next i' j' Hq) as (_ & _ & ->). }
  unfold morphologyPasses, maskAt in *.
  destruct (morphology controls); [by apply Hbg | |].
  - rewrite (mask_morphPass e) by done.
    rewrite (mask_morphPass (withContext g e)) by done.
    apply morphologyFragment_ext; [done |]. intros i' j' Hq.
    rewrite (mask_morphPass e) by done.
    rewrite (mask_morphPass (withContext g e)) by done.
    f_equal. apply morphologyFragment_ext; [done |]. intros i'' j'' Hq'.
    by rewrite Hbg.
  - rewrite (mask_morphPass e) by done.
    rewrite (mask_morphPass (withContext g e)) by done.
    apply morphologyFragment_ext; [done |]. intros i' j' Hq.
    rewrite (mask_morphPass e) by done.
    rewrite (mask_morphPass (withContext g e)) by done.
    f_equal. apply morphologyFragment_ext; [done |]. intros i'' j'' Hq'.
    by rewrite Hbg.
Qed.

End GpuContext.

(** X17: [resize] keeps the model or forgets it.  Called with the size
    [init] was given it changes nothing; calling it twice is calling it
    once; it never marks the engine as initialised; and when the size
    differs the engine is left with the new size and a model and masks
    that are zero everywhere. *)
Theorem X17_resize_keeps_or_forgets (w h : Z) (e : Gpu.MotionEngine) :
  Gpu.resize w h (Gpu.init w h e) = Gpu.init w h e
  /\ Gpu.resize w h (Gpu.resize w h e) = Gpu.resize w h e
  /\ Gpu.isInitialized (Gpu.resize w h e) = Gpu.isInitialized e
  /\ (Gpu.width e <> w \/ Gpu.height e <> h ->
      Gpu.width (Gpu.resize w h e) = w /\ Gpu.height (Gpu.resize w h e) = h
      /\ exists t',
           Gpu.textures (Gpu.resize w h e) = Some t'
           /\ forall idx i j,
                meanAt t' idx i j = Gpu.Vec4 0 0 0 0
                /\ varianceAt t' idx i j = Gpu.Vec4 0 0 0 0
                /\ maskAt t' idx i j = Gpu.Vec4 0 0 0 0).
Proof.
  assert (forall e', Gpu.width e' = w -> Gpu.height e' = h ->
            Gpu.resize w h e' = e') as Hsame.
  { intros e' Hw Hh. unfold Gpu.resize.
    rewrite bool_decide_eq_false_2; [done |]. intros [? | ?]; done. }
  split; [by apply Hsame |].
  split.
  { apply Hsame; unfold Gpu.resize;
      (destruct (bool_decide (Gpu.width e <> w \/ Gpu.height e <> h)) eqn:E;
       [done | apply bool_decide_eq_false in E; lia]). }
  split.
  { unfold Gpu.resize. by destruct (bool_decide _). }
  intros Hne. unfold Gpu.resize. rewrite (bool_decide_eq_true_2 _ Hne).
  cbn. split; [done |]. split; [done |]. eexists. split; [done |].
  intros idx i j. unfold meanAt, varianceAt, maskAt. cbn.
  by destruct idx.
Qed.

Lemma X17_resize_keeps_or_forgets_witness :
  Gpu.width (Gpu.resize 2 2 engine1x1) = 2.
Proof.
  destruct (X17_resize_keeps_or_forgets 2 2 engine1x1) as (_ & _ & _ & H).
  destruct H as (Hw & _); [| exact Hw].
  left. simpl. lia.
Defined.

(** X18: the blend switch never reaches the model.  A tick in the trails
    or heat map style leaves blending enabled, and the next tick draws its
    model and mask passes in that state; since every fragment of these
    passes has alpha 1, the mean, the variance and the mask written inside
    the image are what they are with any other state of the context. *)
Theorem X18_context_state_never_reaches_model
    (outputFragment :
       Z -> bool -> Z * Z -> Gpu.Texture -> Gpu.Texture -> Z -> Z -> Gpu.vec4)
    (frame : Gpu.Texture) (controls : MotionControls)
    (e : Gpu.MotionEngine) (t : Gpu.Textures) (g : Gpu.Context) (i j : Z) :
  Gpu.isInitialized e = true -> Gpu.textures e = Some t ->
  inb (Gpu.width e) (Gpu.height e) i j ->
  let next := ((Gpu.pingPongIndex e + 1) mod 2)%nat in
  exists t1 t2,
    Gpu.textures (Gpu.render outputFragment frame controls e) = Some t1
    /\ Gpu.textures (Gpu.render outputFragment frame controls (withContext g e))
       = Some t2
    /\ meanAt t1 next i j = meanAt t2 next i j
    /\ varianceAt t1 next i j = varianceAt t2 next i j
    /\ maskAt t1 next i j = maskAt t2 next i j.
Proof.
  intros Hi Ht Hin next.
  pose proof (render_textures outputFragment frame controls e t Hi Ht) as H1.
  pose proof (render_textures outputFragment frame controls (withContext g e) t
                Hi Ht) as H2.
  cbn [withContext Gpu.pingPongIndex] in H2.
  eexists. eexists. split; [exact H1 |]. split; [exact H2 |].
  fold next.
  destruct (morphologyPasses_model e controls
              (Gpu.bgSubPass e controls (Gpu.upload frame t)
                 (Gpu.pingPongIndex e) next) (Gpu.pingPongIndex e) next)
    as [Em Ev].
  destruct (morphologyPasses_model (withContext g e) controls
              (Gpu.bgSubPass (withContext g e) controls (Gpu.upload frame t)
                 (Gpu.pingPongIndex e) next) (Gpu.pingPongIndex e) next)
    as [Em' Ev'].
  destruct (bgSubPass_at e controls (Gpu.upload frame t) (Gpu.pingPongIndex e)
              next i j Hin) as (Bm & Bv & _).
  destruct (bgSubPass_at (withContext g e) controls (Gpu.upload frame t)
              (Gpu.pingPongIndex e) next i j Hin) as (Bm' & Bv' & _).
  split; [| split].
  - unfold meanAt in *. rewrite Em, Em', Bm. by rewrite Bm'.
  - unfold varianceAt in *. rewrite Ev, Ev', Bv. by rewrite Bv'.
  - by apply render_mask_context.
Qed.

Lemma X18_context_state_never_reaches_model_witness :
  exists t1 t2,
    Gpu.textures
      (Gpu.render (fun _ _ _ _ _ _ _ => Gpu.Vec4 0 0 0 0) grey
         (luminanceControls 50 0.5) engine1x1) = Some t1
    /\ Gpu.textures
         (Gpu.render (fun _ _ _ _ _ _ _ => Gpu.Vec4 0 0 0 0) grey
            (luminanceControls 50 0.5)
            (withContext
               {| Gpu.BLEND := true; Gpu.COLOR_CLEAR_VALUE := Gpu.Vec4 0 0 0 0;
                  Gpu.drawingBuffer := grey |} engine1x1)) = Some t2
    /\ maskAt t1 1 0 0 = maskAt t2 1 0 0.
Proof.
  assert (Gpu.isInitialized engine1x1 = true) as Hi by reflexivity.
  assert (Gpu.textures engine1x1 = Some textures2x2) as Ht by reflexivity.
  assert (inb (Gpu.width engine1x1) (Gpu.height engine1x1) 0 0) as Hin
    by (split; simpl; lia).
  destruct (X18_context_state_never_reaches_model
              (fun _ _ _ _ _ _ _ => Gpu.Vec4 0 0 0 0) grey
              (luminanceControls 50 0.5) engine1x1 textures2x2
              {| Gpu.BLEND := true; Gpu.COLOR_CLEAR_VALUE := Gpu.Vec4 0 0 0 0;
                 Gpu.drawingBuffer := grey |} 0 0 Hi Ht Hin)
    as (t1 & t2 & H1 & H2 & _ & _ & H).
  exists t1, t2. split; [exact H1 |]. split; [exact H2 | exact H].
Defined.

(** X19: [setPixel] and [getPixel] round trip.  In a buffer of the size
    of the image, a pixel of the image reads back the value stored in it,
    clamped to a byte; every other pixel of the image reads what it read
    before; and the buffer keeps its length. *)
Theorem X19_setPixel_getPixel_round_trip
    (width height : Z) (data : list Z) (x y x' y' v : Z) :
  sized width height data -> inb width height x y -> inb width height x' y' ->
  Cpu.getPixel (Cpu.setPixel data x y width v) x y width height = Cpu.clamp8 v
  /\ ((x', y') <> (x, y) ->
      Cpu.getPixel (Cpu.setPixel data x y width v) x' y' width height
      = Cpu.getPixel data x' y' width height)
  /\ length (Cpu.setPixel data x y width v) = length data.
Proof.
  intros Hs Hin Hin'. split; [by apply getPixel_setPixel_eq |].
  split; [intros Hne; by apply getPixel_setPixel_ne |].
  apply length_setPixel.
Qed.

Lemma X19_setPixel_getPixel_round_trip_witness :
  Cpu.getPixel (Cpu.setPixel (replicate 36 0) 1 1 3 300) 1 1 3 3 = 255.
Proof.
  assert (sized 3 3 (replicate 36 0)) as Hs by reflexivity.
  assert (inb 3 3 1 1) as Hin by (split; lia).
  destruct (X19_setPixel_getPixel_round_trip 3 3 (replicate 36 0) 1 1 1 1 300
              Hs Hin Hin) as [H _].
  exact H.
Defined.

(** X21: on the CPU a higher threshold never detects more.  For the same
    frame, model and detection mode, a pixel that is background under a
    threshold is background under every threshold that is not lower. *)
Theorem X21_cpu_threshold_monotone
    (controls controls' : MotionControls) (currentData : list Z)
    (meanData varianceData : list R) (j : nat) :
  detectionMode controls' = detectionMode controls ->
  (detectionThreshold controls <= detectionThreshold controls')%R ->
  (Cpu.detect controls currentData meanData varianceData j).1.1 = false ->
  (Cpu.detect controls' currentData meanData varianceData j).1.1 = false.
Proof.
  intros Hmode Hthr. rewrite !detect_classification, !gtb_false.
  unfold cpuDist, cpuEdge. rewrite Hmode. intros Hbg.
  pose proof (sqrt_pos (Rmax (Cpu.cell varianceData j) 25)) as Hs.
  eapply Rle_trans; [exact Hbg |].
  by apply Rmult_le_compat_r.
Qed.

Lemma X21_cpu_threshold_monotone_witness :
  (Cpu.detect (luminanceControls 9 0.05) redPixel [85%R] [100%R] 0).1.1 = false.
Proof.
  apply (X21_cpu_threshold_monotone (luminanceControls 8 0.05)
           (luminanceControls 9 0.05)).
  - reflexivity.
  - simpl. lra.
  - rewrite detect_classification. apply gtb_false.
    unfold cpuDist, cpuEdge, brightnessAt, redAt, greenAt, blueAt, Cpu.cell.
    cbn. replace ((255 + 0 + 0) / 3 - 85)%R with 0%R by lra.
    rewrite Rabs_R0. apply Rmult_le_pos; [lra | apply sqrt_pos].
Defined.

(** ** Morphology preserves the order of masks *)

Section Monotone.

Lemma window_least_mono {A} (le : A -> A -> Prop) (f1 f2 : Z -> Z -> A) v1 v2 :
  (forall a b c, le a b -> le b c -> le a c) ->
  (forall i j, le (f1 i j) (f2 i j)) ->
  least le v1 (window f1) -> least le v2 (window f2) -> le v1 v2.
Proof.
  intros Htrans Hle [_ Hall] [Hin _].
  apply window_elem in Hin as (i & j & Hi & Hj & ->).
  rewrite Forall_forall in Hall.
  apply (Htrans _ (f1 i j)); [| apply Hle].
  apply Hall. by apply elem_of_window.
Qed.

Lemma window_greatest_mono {A} (le : A -> A -> Prop) (f1 f2 : Z -> Z -> A) v1 v2 :
  (forall a b c, le a b -> le b c -> le a c) ->
  (forall i j, le (f1 i j) (f2 i j)) ->
  greatest le v1 (window f1) -> greatest le v2 (window f2) -> le v1 v2.
Proof.
  intros Htrans Hle [Hin _] [_ Hall].
  apply window_elem in Hin as (i & j & Hi & Hj & ->).
  rewrite Forall_forall in Hall.
  apply (Htrans _ (f2 i j)); [apply Hle |].
  apply Hall. by apply elem_of_window.
Qed.

Variables width height : Z.

Local Abbreviation below d1 d2 :=
  (forall x y, inb width height x y ->
     Cpu.getPixel d1 x y width height <= Cpu.getPixel d2 x y width height).

Lemma getPixel_below d1 d2 x y :
  below d1 d2 ->
  Cpu.getPixel d1 x y width height <= Cpu.getPixel d2 x y width height.
Proof.
  intros Hle. destruct (decide (inb width height x y)) as [Hin | Hout].
  - by apply Hle.
  - by rewrite !getPixel_outside.
Qed.

Lemma erode_mono d1 d2 o1 o2 :
  bytes d1 -> bytes d2 -> sized width height o1 -> sized width height o2 ->
  below d1 d2 ->
  below (Cpu.erode width height d1 o1) (Cpu.erode width height d2 o2).
Proof.
  intros Hb1 Hb2 Hs1 Hs2 Hle x y Hin.
  rewrite !getPixel_erode by done.
  rewrite !clamp8_id by (by apply erode_at_bytes).
  apply (window_least_mono Z.le (padded width height d1 x y)
           (padded width height d2 x y)).
  - intros a b c. lia.
  - intros i j. by apply getPixel_below.
  - by apply erode_at_least.
  - by apply erode_at_least.
Qed.

Lemma dilate_mono d1 d2 o1 o2 :
  bytes d1 -> bytes d2 -> sized width height o1 -> sized width height o2 ->
  below d1 d2 ->
  below (Cpu.dilate width height d1 o1) (Cpu.dilate width height d2 o2).
Proof.
  intros Hb1 Hb2 Hs1 Hs2 Hle x y Hin.
  rewrite !getPixel_dilate by done.
  rewrite !clamp8_id by (by apply dilate_at_bytes).
  apply (window_greatest_mono Z.le (padded width height d1 x y)
           (padded width height d2 x y)).
  - intros a b c. lia.
  - intros i j. by apply getPixel_below.
  - by apply dilate_at_greatest.
  - by apply dilate_at_greatest.
Qed.

Lemma applyMorphology_mono d1 d2 type :
  sized width height d1 -> sized width height d2 -> bytes d1 -> bytes d2 ->
  below d1 d2 ->
  below (Cpu.applyMorphology d1 width height type)
        (Cpu.applyMorphology d2 width height type).
Proof.
  intros Hs1 Hs2 Hb1 Hb2 Hle.
  assert (forall d, sized width height d ->
            sized width height (replicate (length d) 0)) as Hs0
    by (intros d Hd; red; by rewrite length_replicate).
  unfold Cpu.applyMorphology. destruct type; [done | |].
  - apply dilate_mono; try done.
    + rewrite erode_is_pass. apply bytes_pass, bytes_replicate.
    + rewrite erode_is_pass. apply bytes_pass, bytes_replicate.
    + apply erode_mono; auto.
  - apply erode_mono; try done.
    + rewrite dilate_is_pass. apply bytes_pass, bytes_replicate.
    + rewrite dilate_is_pass. apply bytes_pass, bytes_replicate.
    + apply dilate_mono; auto.
Qed.

Local Abbreviation belowTex t1 t2 :=
  (forall i j, inb width height i j -> (Gpu.r (t1 i j) <= Gpu.r (t2 i j))%R).

Lemma morphologyFragment_mono u_type (t1 t2 : Gpu.Texture) i0 j0 :
  u_type = 0 \/ u_type = 1 -> inb width height i0 j0 -> belowTex t1 t2 ->
  (Gpu.r (Gpu.morphologyFragment width height u_type t1 i0 j0)
   <= Gpu.r (Gpu.morphologyFragment width height u_type t2 i0 j0))%R.
Proof.
  intros Hu Hin Hle.
  assert (forall i j,
            (clamped width height t1 i0 j0 i j
             <= clamped width height t2 i0 j0 i j)%R) as Hc.
  { intros i j. unfold clamped, Gpu.texture. apply Hle.
    unfold inb in Hin. split; apply clampZ_range; lia. }
  destruct Hu as [-> | ->].
  - apply (window_least_mono Rle (clamped width height t1 i0 j0)
             (clamped width height t2 i0 j0)); [| done | |].
    + intros a b c. apply Rle_trans.
    + apply morphologyFragment_least.
    + apply morphologyFragment_least.
  - apply (window_greatest_mono Rle (clamped width height t1 i0 j0)
             (clamped width height t2 i0 j0)); [| done | |].
    + intros a b c. apply Rle_trans.
    + apply morphologyFragment_greatest.
    + apply morphologyFragment_greatest.
Qed.

End Monotone.

(** X22: cleaning up preserves the order of masks.  If one mask is below
    another at every pixel of the image, it is so after
    [applyMorphology] on the CPU, and after the morphology passes of
    [render] on the GPU, whatever the operation. *)
Theorem X22_morphology_is_monotone
    (width height : Z) (d1 d2 : list Z) (type : Morphology) (x y : Z)
    (e : Gpu.MotionEngine) (controls : MotionControls) (t1 t2 : Gpu.Textures)
    (idx : nat) (i j : Z) :
  sized width height d1 -> sized width height d2 -> bytes d1 -> bytes d2 ->
  inb width height x y ->
  (forall x' y', inb width height x' y' ->
     Cpu.getPixel d1 x' y' width height <= Cpu.getPixel d2 x' y' width height) ->
  inb (Gpu.width e) (Gpu.height e) i j ->
  (forall i' j', inb (Gpu.width e) (Gpu.height e) i' j' ->
     (Gpu.r (maskAt t1 ((idx + 1) mod 2)%nat i' j')
      <= Gpu.r (maskAt t2 ((idx + 1) mod 2)%nat i' j'))%R) ->
  Cpu.getPixel (Cpu.applyMorphology d1 width height type) x y width height
  <= Cpu.getPixel (Cpu.applyMorphology d2 width height type) x y width height
  /\ (Gpu.r (maskAt (Gpu.morphologyPasses e controls t1 idx ((idx + 1) mod 2)%nat)
               ((idx + 1) mod 2)%nat i j)
      <= Gpu.r (maskAt (Gpu.morphologyPasses e controls t2 idx
                          ((idx + 1) mod 2)%nat)
                  ((idx + 1) mod 2)%nat i j))%R.
Proof.
  intros Hs1 Hs2 Hb1 Hb2 Hin Hle Hin' Hle'.
  split; [by apply applyMorphology_mono |].
  unfold Gpu.morphologyPasses, maskAt in *.
  destruct (morphology controls); [by apply Hle' | |].
  - rewrite !mask_morphPass by done.
    apply morphologyFragment_mono; [by right | done |].
    intros i' j' Hq. rewrite !mask_morphPass by done.
    apply morphologyFragment_mono; [by left | done | done].
  - rewrite !mask_morphPass by done.
    apply morphologyFragment_mono; [by left | done |].
    intros i' j' Hq. rewrite !mask_morphPass by done.
    apply morphologyFragment_mono; [by right | done | done].
Qed.

Lemma X22_morphology_is_monotone_witness :
  Cpu.getPixel (Cpu.applyMorphology (replicate 36 0) 3 3 close) 1 1 3 3
  <= Cpu.getPixel (Cpu.applyMorphology full3x3 3 3 close) 1 1 3 3.
Proof.
  assert (sized 3 3 (replicate 36 0)) as Hs1 by reflexivity.
  assert (sized 3 3 full3x3) as Hs2 by reflexivity.
  assert (bytes (replicate 36 0)) as Hb1 by (apply bytes_replicate_of; lia).
  assert (bytes full3x3) as Hb2 by (apply bytes_replicate_of; lia).
  assert (inb 3 3 1 1) as Hin by (split; lia).
  assert (inb (Gpu.width engine1x1) (Gpu.height engine1x1) 0 0) as Hin'
    by (split; simpl; lia).
  destruct (X22_morphology_is_monotone 3 3 (replicate 36 0) full3x3 close 1 1
              engine1x1 (luminanceControls 1 0.05) textures2x2 textures2x2
              0%nat 0 0 Hs1 Hs2 Hb1 Hb2 Hin) as [H _];
    [| exact Hin' | | exact H].
  - intros x' y' Hq.
    pose proof (getPixel_bytes 3 3 full3x3 x' y' Hb2) as Hr.
    assert (Cpu.getPixel (replicate 36 0) x' y' 3 3 = 0) as ->; [| lia].
    unfold inb in Hq.
    assert (x' = 0 \/ x' = 1 \/ x' = 2) as Hx by lia.
    assert (y' = 0 \/ y' = 1 \/ y' = 2) as Hy by lia.
    destruct Hx as [-> | [-> | ->]]; destruct Hy as [-> | [-> | ->]];
      reflexivity.
  - intros i' j' _. apply Rle_refl.
Defined.



(** ** The model of the GPU variant is never seeded *)

Section GpuSeed.
Import Gpu.
Local Open Scope R_scope.

Lemma sqrt_005_quarter : sqrt 0.05 <= 0.25.
Proof.
  rewrite <- (sqrt_square 0.25) by lra. apply sqrt_le_1_alt. lra.
Qed.

Lemma sqrt_075_lower : 0.75 <= sqrt 0.75.
Proof.
  rewrite <- (sqrt_square 0.75) at 1 by lra. apply sqrt_le_1_alt. lra.
Qed.

(** Under the default controls of the GPU variant a mid-grey texel over a
    model that is still zero has score 1. *)
Lemma grey_over_zero_model mean variance i j :
  rgb mean = Vec3 0 0 0 -> r variance = 0 ->
  gpuScore (controlsWith open classic color) (grey i j) mean variance = 1.
Proof.
  intros Hm Hv. unfold gpuScore.
  assert (0 < detectionThreshold (controlsWith open classic color)) as Hthr
    by (cbn; lra).
  pose proof (gpuEdge_pos (controlsWith open classic color) variance Hthr)
    as He.
  apply smoothstep_above; [lra |].
  unfold gpuEdge, gpuDist, euclid in *.
  cbn [controlsWith detectionMode detectionThreshold] in *.
  rewrite Hm, Hv. rewrite Rmax_right by lra.
  unfold grey. cbn [rgb r g b x y z].
  replace ((0.5 - 0) ^ 2 + (0.5 - 0) ^ 2 + (0.5 - 0) ^ 2) with 0.75 by lra.
  pose proof sqrt_005_quarter. pose proof sqrt_075_lower. lra.
Qed.

End GpuSeed.

(** C2: on the GPU the model is not initialised from the first frame.
    [init] leaves mean and variance textures that are zero everywhere and
    [render] has no seeding pass: under the default controls, with a
    mid-grey frame, every texel of the image has score 1 on the first tick,
    so it is not adapted, and after any number of ticks on that frame its
    mean is still 0, not the value of the frame, and its variance is still
    0. *)
Theorem C2_gpu_model_is_never_seeded
    (outputFragment :
       Z -> bool -> Z * Z -> Gpu.Texture -> Gpu.Texture -> Z -> Z -> Gpu.vec4)
    (canvas : Gpu.Texture) (w h i j : Z) (n : nat) :
  inb w h i j ->
  let controls := controlsWith open classic color in
  let after :=
    renders outputFragment grey controls n (Gpu.init w h (Gpu.new canvas)) in
  exists tn,
    Gpu.textures after = Some tn
    /\ Gpu.rgb (meanAt tn (Gpu.pingPongIndex after) i j) = Gpu.Vec3 0 0 0
    /\ Gpu.rgb (meanAt tn (Gpu.pingPongIndex after) i j) <> Gpu.rgb (grey i j)
    /\ Gpu.r (varianceAt tn (Gpu.pingPongIndex after) i j) = 0%R
    /\ gpuScore controls (grey i j) (meanAt tn (Gpu.pingPongIndex after) i j)
         (varianceAt tn (Gpu.pingPongIndex after) i j) = 1%R.
Proof.
  intros Hin controls after. subst after.
  set (e := Gpu.init w h (Gpu.new canvas)).
  set (after := renders outputFragment grey controls n e).
  set (t := {| Gpu.video := Gpu.createTex;
               Gpu.mean := (Gpu.createTex, Gpu.createTex);
               Gpu.variance := (Gpu.createTex, Gpu.createTex);
               Gpu.mask := (Gpu.createTex, Gpu.createTex) |}).
  assert (Gpu.isInitialized e = true) as Hi by reflexivity.
  assert (Gpu.textures e = Some t) as Ht by reflexivity.
  assert (inb (Gpu.width e) (Gpu.height e) i j) as Hin' by exact Hin.
  assert (gpuScore controls (grey i j) (meanAt t (Gpu.pingPongIndex e) i j)
            (varianceAt t (Gpu.pingPongIndex e) i j) = 1%R) as Hs
    by (by apply grey_over_zero_model).
  destruct (renders_frozen outputFragment grey controls e t i j n Hi Ht Hin' Hs)
    as (_ & _ & _ & tn & Htn & Hm & Hv).
  fold after in Htn, Hm, Hv.
  change (Gpu.rgb (meanAt t (Gpu.pingPongIndex e) i j)) with (Gpu.Vec3 0 0 0)
    in Hm.
  change (Gpu.rgb (varianceAt t (Gpu.pingPongIndex e) i j))
    with (Gpu.Vec3 0 0 0) in Hv.
  assert (Gpu.r (varianceAt tn (Gpu.pingPongIndex after) i j) = 0%R) as Hr
    by (by injection Hv).
  exists tn. split; [exact Htn |]. split; [exact Hm |].
  split; [| split; [exact Hr | by apply grey_over_zero_model]].
  rewrite Hm. unfold grey. cbn. intros [= H]. lra.
Qed.

Lemma C2_gpu_model_is_never_seeded_witness :
  exists tn,
    Gpu.textures
      (renders (fun _ _ _ _ _ _ _ => Gpu.Vec4 0 0 0 0) grey
         (controlsWith open classic color) 1 engine1x1) = Some tn
    /\ Gpu.rgb
         (meanAt tn
            (Gpu.pingPongIndex
               (renders (fun _ _ _ _ _ _ _ => Gpu.Vec4 0 0 0 0) grey
                  (controlsWith open classic color) 1 engine1x1)) 0 0)
       = Gpu.Vec3 0 0 0.
Proof.
  assert (inb 1 1 0 0) as Hin by (split; lia).
  destruct (C2_gpu_model_is_never_seeded
              (fun _ _ _ _ _ _ _ => Gpu.Vec4 0 0 0 0) Gpu.createTex 1 1 0 0 1
              Hin) as (tn & Htn & Hm & _).
  exists tn. split; [exact Htn | exact Hm].
Defined.

(** ** Trails on the CPU *)

(** X24: on the CPU the trails style fades.  Every tick of [draw] on a
    ready video leaves the canvas as the previous one faded (trails style:
    black at alpha [1 - persistence] composited over it) or cleared (every
    other style), with at most the mask of the tick drawn over it; and in
    the trails style without morphology, over [k] ticks that classify no
    pixel as foreground, every pixel of the canvas keeps its colour times
    [persistence ^ k]. *)
Theorem X24_cpu_trails_fade
    (dimensions : Cpu.Dimensions) (controls : MotionControls)
    (resample : nat -> nat) (videos : list Cpu.Video) (st : Cpu.State)
    (d : nat) (pix : Cpu.RGBA) :
  (0 <= persistence controls <= 1)%R ->
  Forall (fun video => Cpu.ended video = false /\ 2 <= Cpu.readyState video)
         videos ->
  Cpu.motionCanvas st !! d = Some pix ->
  (forall video, video ∈ videos ->
     forall st', exists data,
       Cpu.motionCanvas
         (Cpu.draw dimensions controls resample (Some video) st')
       = overlay resample data
           (if bool_decide (effect controls = electricTrails)
            then Cpu.fillRect (Cpu.black (1 - persistence controls))
                   (Cpu.motionCanvas st')
            else Cpu.clearRect (Cpu.motionCanvas st')))
  /\ (effect controls = electricTrails -> morphology controls = none ->
      quiet dimensions controls resample videos st ->
      exists pix',
        Cpu.motionCanvas (ticks dimensions controls resample videos st) !! d
        = Some pix'
        /\ Cpu.red pix' = (Cpu.red pix * persistence controls ^ length videos)%R
        /\ Cpu.green pix'
           = (Cpu.green pix * persistence controls ^ length videos)%R
        /\ Cpu.blue pix'
           = (Cpu.blue pix * persistence controls ^ length videos)%R).
Proof.
  intros Hp Hready Hd. split.
  - intros video Hin st'. rewrite Forall_forall in Hready.
    destruct (Hready video Hin) as [He Hr]. by apply draw_canvas.
  - intros Hfx Hmo Hq. by apply ticks_quiet.
Qed.

Lemma X24_cpu_trails_fade_witness :
  exists pix pix',
    Cpu.motionCanvas
      (Cpu.draw unit1x1 (controlsWith none electricTrails luminance)
         (fun _ => 0%nat) (Some (flatVideo 7)) freshState) !! 0%nat
    = Some pix
    /\ Cpu.motionCanvas
         (ticks unit1x1 (controlsWith none electricTrails luminance)
            (fun _ => 0%nat) (replicate 2 (flatVideo 7))
            (Cpu.draw unit1x1 (controlsWith none electricTrails luminance)
               (fun _ => 0%nat) (Some (flatVideo 7)) freshState)) !! 0%nat
       = Some pix'
    /\ Cpu.red pix' = (Cpu.red pix * 0.85 ^ 2)%R.
Proof.
  set (controls := controlsWith none electricTrails luminance).
  set (seeded := Cpu.draw unit1x1 controls (fun _ => 0%nat)
                   (Some (flatVideo 7)) freshState).
  assert (readable unit1x1 controls (flatVideo 7)) as Hread.
  { apply (readable_flat 15 0.05). lia. }
  assert (0 <= detectionThreshold controls)%R as Hthr by (simpl; lra).
  assert (0 <= persistence controls <= 1)%R as Hp by (simpl; lra).
  assert (seeded
          = {| Cpu.backgroundModelData :=
                 Some (Cpu.seedModel (detectionMode controls)
                         (frameOf unit1x1 controls (flatVideo 7))
                         (pSizeOf unit1x1 controls));
               Cpu.motionCanvas :=
                 Cpu.fillRect (Cpu.black (1 - persistence controls)) [white];
               Cpu.processingCanvas := frameOf unit1x1 controls (flatVideo 7) |})
    as Hseed.
  { unfold seeded.
    by rewrite (draw_seed unit1x1 controls (fun _ => 0%nat) (flatVideo 7)
                  freshState Hread eq_refl). }
  assert (quiet unit1x1 controls (fun _ => 0%nat) (replicate 2 (flatVideo 7))
            seeded) as Hq.
  { destruct (static_run unit1x1 controls (fun _ => 0%nat) (flatVideo 7) 2
                Hread Hthr seeded 0%nat
                (Cpu.seedModel (detectionMode controls)
                   (frameOf unit1x1 controls (flatVideo 7))
                   (pSizeOf unit1x1 controls))) as [H _]; [| | exact H].
    - by rewrite Hseed.
    - apply seedModel_settled. by destruct Hread as (_ & _ & _ & _ & Hl & _). }
  assert (Cpu.motionCanvas seeded !! 0%nat
          = Some (Cpu.source_over (Cpu.black (1 - persistence controls)) white))
    as Hd by (by rewrite Hseed).
  destruct (X24_cpu_trails_fade unit1x1 controls (fun _ => 0%nat)
              (replicate 2 (flatVideo 7)) seeded 0%nat
              (Cpu.source_over (Cpu.black (1 - persistence controls)) white)
              Hp) as [_ Hk];
    [| exact Hd |].
  { apply Forall_replicate. split; [reflexivity | simpl; lia]. }
  destruct (Hk eq_refl eq_refl Hq) as (pix' & Hl & Hr & _).
  eexists. exists pix'. split; [exact Hd |]. split; [exact Hl | exact Hr].
Defined.
